(** * tap-linkedin-ads: the incremental-extraction and analytics engine

    A shallow embedding of [tap_linkedin_ads/streams.py] and
    [tap_linkedin_ads/urn_resolver.py].

    - Decoded JSON bodies are values of [json]; a Python [dict] read from
      JSON is an association list in insertion order (iteration order is
      observable: a loop over [items()] can stop half way on an exception).
    - Dictionaries the code builds and only looks up ([resolved],
      [full_records], the [bookmarks] of the state) are [gmap]s, sets are
      [gset]s, and [list(a_set)] is [elements].
    - A Python call either returns, raises, or (for the pagination loops,
      which run on fuel) does not finish: [outcome].
    - The HTTP client is a deterministic function of the requests issued so
      far and of the current request; the world state is the request log
      and the records handed to the record sink.
    - Library functions whose code is not part of the repository are
      variables of the enclosing section. *)

From Stdlib Require Import ZArith Strings.String Strings.Ascii Numbers.DecimalString Lia.
From stdpp Require Import base gmap strings list.

Set Warnings "-register-all".
Set Default Proof Using "Type".

Local Open Scope Z_scope.

(** ** Decoded JSON and Python exceptions *)

Inductive json :=
| JNull
| JBool (b : bool)
| JNum (n : Z)
| JStr (s : string)
| JArr (l : list json)
| JObj (d : list (string * json)).

(** A Python [dict] with string keys, in insertion order. *)
Abbreviation dict := (list (string * json)).

(** An instance of (a subclass of) [Exception]: its class name and [str(e)]. *)
Record exn := Exn { exn_class : string; exn_str : string }.

(** The result of a call into a library or a collaborator: it comes back. *)
Inductive result (A : Type) :=
| Ok (a : A)
| Failed (e : exn).
Arguments Ok {A} a.
Arguments Failed {A} e.

(** The result of running modelled code: [Timeout] is a loop out of fuel. *)
Inductive outcome (A : Type) :=
| Return (a : A)
| Raise (e : exn)
| Timeout.
Arguments Return {A} a.
Arguments Raise {A} e.
Arguments Timeout {A}.

Definition obind {A B} (m : outcome A) (k : A -> outcome B) : outcome B :=
  match m with
  | Return a => k a
  | Raise e => Raise e
  | Timeout => Timeout
  end.

Notation "x <- m ;; k" := (obind m (fun x => k))
  (at level 100, m at next level, right associativity).

Definition liftR {A} (r : result A) : outcome A :=
  match r with
  | Ok a => Return a
  | Failed e => Raise e
  end.

(** Code with side effects on a state [S]; what was done before an
    exception stays done. *)
Definition ST (S A : Type) : Type := S -> outcome A * S.

Definition sret {S A} (a : A) : ST S A := fun s => (Return a, s).

Definition sbind {S A B} (m : ST S A) (k : A -> ST S B) : ST S B := fun s =>
  match m s with
  | (Return a, s') => k a s'
  | (Raise e, s') => (Raise e, s')
  | (Timeout, s') => (Timeout, s')
  end.

Notation "x <~ m ;; k" := (sbind m (fun x => k))
  (at level 100, m at next level, right associativity).

Definition liftO {S A} (o : outcome A) : ST S A := fun s => (o, s).
Definition sraise {S A} (e : exn) : ST S A := fun s => (Raise e, s).
Definition out_of_fuel {S A} : ST S A := fun s => (Timeout, s).
Definition gets {S A} (f : S -> A) : ST S A := fun s => (Return (f s), s).
Definition modify {S} (f : S -> S) : ST S unit := fun s => (Return tt, f s).

(** [try: m  except Exception as e: h(e)] *)
Definition try_except {S A} (m : ST S A) (h : exn -> ST S A) : ST S A := fun s =>
  match m s with
  | (Raise e, s') => h e s'
  | r => r
  end.

(** [for x in xs: body(x)] *)
Fixpoint for_each {S A} (xs : list A) (body : A -> ST S unit) : ST S unit :=
  match xs with
  | [] => sret tt
  | x :: xs' => _ <~ body x ;; for_each xs' body
  end.

Definition AttributeError (what : string) : exn :=
  Exn "AttributeError" ("'" +:+ what +:+ "' object has no attribute 'get'").
Definition KeyError (k : string) : exn := Exn "KeyError" ("'" +:+ k +:+ "'").
Definition IndexError : exn := Exn "IndexError" "list index out of range".
Definition TypeError (msg : string) : exn := Exn "TypeError" msg.
Definition ValueError (msg : string) : exn := Exn "ValueError" msg.
Definition OverflowError (msg : string) : exn := Exn "OverflowError" msg.

(** ** Python primitives on decoded JSON *)

Definition py_type (x : json) : string :=
  match x with
  | JNull => "NoneType"
  | JBool _ => "bool"
  | JNum _ => "int"
  | JStr _ => "str"
  | JArr _ => "list"
  | JObj _ => "dict"
  end.

(** Truth value testing: [if x:]. *)
Definition py_truthy (x : json) : bool :=
  match x with
  | JNull => false
  | JBool b => b
  | JNum n => negb (n =? 0)
  | JStr s => negb (String.eqb s "")
  | JArr l => match l with [] => false | _ => true end
  | JObj d => match d with [] => false | _ => true end
  end.

(** [a or b] *)
Definition py_or (a b : json) : json := if py_truthy a then a else b.

Definition string_of_Z (n : Z) : string := NilZero.string_of_int (Z.to_int n).

(** Insertion-ordered dictionaries: lookup, [d[k] = v] (an existing key
    keeps its position, a new key goes last) and [d.update(e)]. *)
Fixpoint al_get {K V} `{EqDecision K} (k : K) (d : list (K * V)) : option V :=
  match d with
  | [] => None
  | (k', v) :: d' => if decide (k = k') then Some v else al_get k d'
  end.

Fixpoint al_set {K V} `{EqDecision K} (k : K) (v : V) (d : list (K * V)) : list (K * V) :=
  match d with
  | [] => [(k, v)]
  | (k', v') :: d' =>
      if decide (k = k') then (k', v) :: d' else (k', v') :: al_set k v d'
  end.

Definition dict_get (k : string) (d : dict) : option json := al_get k d.
Definition dict_set (k : string) (v : json) (d : dict) : dict := al_set k v d.

Definition dict_has (k : string) (d : dict) : bool :=
  match dict_get k d with Some _ => true | None => false end.

Definition dict_update (d e : dict) : dict :=
  fold_left (fun acc kv => dict_set (fst kv) (snd kv) acc) e d.

(** [x.get(k, default)] *)
Definition py_get (x : json) (k : string) (dflt : json) : outcome json :=
  match x with
  | JObj d => Return (default dflt (dict_get k d))
  | _ => Raise (AttributeError (py_type x))
  end.

(** [x[k]] for a string [k] *)
Definition py_getitem (x : json) (k : string) : outcome json :=
  match x with
  | JObj d => match dict_get k d with Some v => Return v | None => Raise (KeyError k) end
  | JArr _ => Raise (TypeError "list indices must be integers or slices, not str")
  | JStr _ => Raise (TypeError "string indices must be integers")
  | _ => Raise (TypeError ("'" +:+ py_type x +:+ "' object is not subscriptable"))
  end.

(** [x[0]] *)
Definition py_first (x : json) : outcome json :=
  match x with
  | JArr (v :: _) => Return v
  | JArr [] => Raise IndexError
  | JStr (String c _) => Return (JStr (String c EmptyString))
  | JStr EmptyString => Raise (Exn "IndexError" "string index out of range")
  | JObj _ => Raise (Exn "KeyError" "0")
  | _ => Raise (TypeError ("'" +:+ py_type x +:+ "' object is not subscriptable"))
  end.

(** [x[k] = v] for a string [k] *)
Definition py_setitem (x : json) (k : string) (v : json) : outcome json :=
  match x with
  | JObj d => Return (JObj (dict_set k v d))
  | JArr _ => Raise (TypeError "list indices must be integers or slices, not str")
  | _ => Raise (TypeError ("'" +:+ py_type x +:+ "' object does not support item assignment"))
  end.

(** [for y in x]: the elements of a list, the keys of a dict, the
    characters of a string. *)
Definition py_iter (x : json) : outcome (list json) :=
  match x with
  | JArr l => Return l
  | JObj d => Return ((fun kv => JStr (fst kv)) <$> d)
  | JStr s => Return ((fun c => JStr (String c EmptyString)) <$> list_ascii_of_string s)
  | _ => Raise (TypeError ("'" +:+ py_type x +:+ "' object is not iterable"))
  end.

(** An [int] argument: [bool] is a subclass of [int]. *)
Definition py_index (x : json) : outcome Z :=
  match x with
  | JNum n => Return n
  | JBool b => Return (if b then 1 else 0)
  | _ => Raise (TypeError ("an integer is required (got type " +:+ py_type x +:+ ")"))
  end.

(** [",".join(xs)] and friends *)
Fixpoint str_join (sep : string) (xs : list string) : string :=
  match xs with
  | [] => ""
  | [x] => x
  | x :: xs' => x +:+ sep +:+ str_join sep xs'
  end.

(** [needle in haystack] on strings *)
Fixpoint str_contains (needle s : string) : bool :=
  String.prefix needle s ||
  match s with
  | EmptyString => false
  | String _ s' => str_contains needle s'
  end.

(** [needle in x] for a string [needle] *)
Definition py_contains (needle : string) (x : json) : outcome bool :=
  match x with
  | JStr s => Return (str_contains needle s)
  | JArr l => Return (existsb (fun y => match y with
                                         | JStr t => bool_decide (needle = t)
                                         | _ => false
                                         end) l)
  | JObj d => Return (dict_has needle d)
  | _ => Raise (TypeError ("argument of type '" +:+ py_type x +:+ "' is not iterable"))
  end.

(** [s.split(':')[-1]]: what follows the last colon. *)
Fixpoint last_segment_from (cur s : string) : string :=
  match s with
  | EmptyString => cur
  | String c s' => if Ascii.eqb c ":" then last_segment_from s' s' else last_segment_from cur s'
  end.
Definition last_segment (s : string) : string := last_segment_from s s.

(** [range(0, stop, step)] for a positive step *)
Definition py_range (stop step : nat) : list nat :=
  (fun i => (i * step)%nat) <$> seq 0 (Nat.div (stop + step - 1) step).

(** [s[n:]] *)
Fixpoint str_drop (n : nat) (s : string) : string :=
  match n, s with
  | O, _ => s
  | S n', String _ s' => str_drop n' s'
  | S _, EmptyString => EmptyString
  end.

(** ** Requests, the client and the record sink *)

Record request := Req {
  req_url : string;
  req_endpoint : string;
  req_headers : option (list (string * string))
}.

(** [client.get(url=, endpoint=, headers=)]: the reply may depend on all
    the requests issued before. *)
Definition Client : Type := list request -> request -> result json.

Record world := World {
  requests : list request;           (* issued so far, oldest first *)
  sink : list (string * dict)        (* (stream, record) written so far *)
}.

Definition client_get (client : Client) (r : request) : ST world json := fun w =>
  (liftR (client (requests w) r), World (requests w ++ [r]) (sink w)).

(** [singer.write_record(stream, record, time_extracted=...)]; writing to
    the sink is taken to succeed. *)
Definition write_record (tap_stream_id : string) (record : dict) : ST world unit :=
  modify (fun w => World (requests w) (sink w ++ [(tap_stream_id, record)])).

(** Hashable values as dictionary keys and set members: [True == 1] and
    [False == 0]; lists and dicts are unhashable. *)
Inductive pykey :=
| KNone
| KInt (n : Z)
| KStr (s : string).

#[global] Instance pykey_eq_dec : EqDecision pykey.
Proof. solve_decision. Defined.

#[global] Instance pykey_countable : Countable pykey.
Proof.
  refine (inj_countable'
            (fun k => match k with
                      | KNone => inl tt
                      | KInt n => inr (inl n)
                      | KStr s => inr (inr s)
                      end)
            (fun x => match x with
                      | inl _ => KNone
                      | inr (inl n) => KInt n
                      | inr (inr s) => KStr s
                      end) _).
  by intros [].
Defined.

Definition py_hash (x : json) : outcome pykey :=
  match x with
  | JNull => Return KNone
  | JBool b => Return (KInt (if b then 1 else 0))
  | JNum n => Return (KInt n)
  | JStr s => Return (KStr s)
  | _ => Raise (TypeError ("unhashable type: '" +:+ py_type x +:+ "'"))
  end.

(** [xs] mapped through a function that may raise, left to right. *)
Fixpoint map_outcome {A B} (f : A -> outcome B) (xs : list A) : outcome (list B) :=
  match xs with
  | [] => Return []
  | x :: xs' => y <- f x ;; ys <- map_outcome f xs' ;; Return (y :: ys)
  end.

(** [acc = f(acc, x)] for [x] in [xs], left to right. *)
Fixpoint fold_outcome {A S} (f : S -> A -> outcome S) (xs : list A) (acc : S) : outcome S :=
  match xs with
  | [] => Return acc
  | x :: xs' => acc' <- f acc x ;; fold_outcome f xs' acc'
  end.

(** ** The calendar of [datetime.date]

    A date is its proleptic Gregorian ordinal ([date.toordinal()]), day 1
    being 0001-01-01; the conversions are those of CPython's [datetime]. *)

Abbreviation date := Z.

Definition _MAXORDINAL : Z := 3652059.  (* date.max = 9999-12-31 *)
Definition _DI400Y : Z := 146097.
Definition _DI100Y : Z := 36524.
Definition _DI4Y : Z := 1461.

Definition date_valid (d : date) : Prop := 1 <= d <= _MAXORDINAL.

Definition _is_leap (year : Z) : bool :=
  (year mod 4 =? 0) && (negb (year mod 100 =? 0) || (year mod 400 =? 0)).

Definition _DAYS_IN_MONTH (month : Z) : Z :=
  match month with
  | 1 => 31 | 2 => 28 | 3 => 31 | 4 => 30 | 5 => 31 | 6 => 30
  | 7 => 31 | 8 => 31 | 9 => 30 | 10 => 31 | 11 => 30 | 12 => 31
  | _ => -1
  end.

Definition _DAYS_BEFORE_MONTH (month : Z) : Z :=
  match month with
  | 1 => 0 | 2 => 31 | 3 => 59 | 4 => 90 | 5 => 120 | 6 => 151
  | 7 => 181 | 8 => 212 | 9 => 243 | 10 => 273 | 11 => 304 | 12 => 334
  | _ => -1
  end.

Definition _days_before_year (year : Z) : Z :=
  let y := year - 1 in y * 365 + y / 4 - y / 100 + y / 400.

Definition _days_in_month (year month : Z) : Z :=
  if (month =? 2) && _is_leap year then 29 else _DAYS_IN_MONTH month.

Definition _days_before_month (year month : Z) : Z :=
  _DAYS_BEFORE_MONTH month + (if (2 <? month) && _is_leap year then 1 else 0).

Definition _ymd2ord (year month day : Z) : Z :=
  _days_before_year year + _days_before_month year month + day.

(** The month and day of the [n]-th day (from 0) of a year. *)
Definition month_day (leapyear : bool) (n : Z) : Z * Z :=
  let month := Z.shiftr (n + 50) 5 in
  let preceding := _DAYS_BEFORE_MONTH month + (if (2 <? month) && leapyear then 1 else 0) in
  if n <? preceding then
    let month' := month - 1 in
    let preceding' :=
      preceding - (_DAYS_IN_MONTH month' + (if (month' =? 2) && leapyear then 1 else 0)) in
    (month', n - preceding' + 1)
  else (month, n - preceding + 1).

Definition _ord2ymd (n : Z) : Z * Z * Z :=
  let n := n - 1 in
  let n400 := n / _DI400Y in let n := n mod _DI400Y in
  let year := n400 * 400 + 1 in
  let n100 := n / _DI100Y in let n := n mod _DI100Y in
  let n4 := n / _DI4Y in let n := n mod _DI4Y in
  let n1 := n / 365 in let n := n mod 365 in
  let year := year + (n100 * 100 + n4 * 4 + n1) in
  if (n1 =? 4) || (n100 =? 4) then (year - 1, 12, 31)
  else
    let leapyear := (n1 =? 3) && (negb (n4 =? 24) || (n100 =? 3)) in
    let '(month, day) := month_day leapyear n in
    (year, month, day).

Definition date_year (d : date) : Z := (_ord2ymd d).1.1.
Definition date_month (d : date) : Z := (_ord2ymd d).1.2.
Definition date_day (d : date) : Z := (_ord2ymd d).2.

(** A C [int] argument of the [datetime] constructors. *)
Definition c_int (x : json) : outcome Z :=
  n <- py_index x ;;
  if (- 2147483648 <=? n) && (n <=? 2147483647) then Return n
  else Raise (OverflowError "Python int too large to convert to C int").

(** [datetime.date(year=y, month=m, day=d)] *)
Definition date_new (y m d : json) : outcome date :=
  year <- c_int y ;;
  month <- c_int m ;;
  day <- c_int d ;;
  if negb ((1 <=? year) && (year <=? 9999)) then
    Raise (ValueError "year is out of range")
  else if negb ((1 <=? month) && (month <=? 12)) then
    Raise (ValueError "month must be in 1..12")
  else if negb ((1 <=? day) && (day <=? _days_in_month year month)) then
    Raise (ValueError "day is out of range for month")
  else Return (_ymd2ord year month day).

(** [timedelta(days=n)], as its number of days *)
Definition timedelta_days (n : Z) : outcome Z :=
  if (Z.abs n <=? 999999999) then Return n
  else Raise (OverflowError "days; must have magnitude <= 999999999").

(** [d + timedelta(days=n)] *)
Definition date_add (d : date) (days : Z) : outcome date :=
  let o := d + days in
  if (0 <? o) && (o <=? _MAXORDINAL) then Return o
  else Raise (OverflowError "date value out of range").

Section Tap.

(** [str(x)] of a list or a dict (Python's [repr] of the elements). *)
Variable py_repr : json -> string.

(** [str(x)], also what ['{}'.format(x)] and ['%s' % x] give. *)
Definition py_str (x : json) : string :=
  match x with
  | JNull => "None"
  | JBool true => "True"
  | JBool false => "False"
  | JNum n => string_of_Z n
  | JStr s => s
  | _ => py_repr x
  end.

(** [urllib.parse.unquote] on a string. *)
Variable unquote : string -> string.

(** [re.sub(r'pageToken=[^&]+', repl, s)] for a [repl] that holds a
    backslash (escapes and group references of the template). *)
Variable re_sub_escaped : string -> string -> result string.

(** [singer.utils.strptime_to_utc]: an aware datetime, as its number of
    microseconds since 0001-01-01T00:00:00 UTC. *)
Variable strptime_to_utc : json -> result Z.

(** [singer.utils.strftime] *)
Variable strftime : Z -> string.

(** [Transformer.transform(record, schema, stream_metadata)] with the
    schema and the metadata of the catalog entry of the stream. *)
Variable transform : string -> json -> result dict.

(** [transform_json(data, stream_name)] of [transform.py]. *)
Variable transform_json : json -> string -> result json.

(** [Counter._ready_to_log()] of [singer.metrics] inside
    [counter.increment()]: whether the log interval has passed since the
    counter last logged.  It reads the clock; the requests made and the
    records written so far tell the moment of the call. *)
Variable ready_to_log : world -> bool.

(** ** Pagination cursor *)

Definition CURSOR_BASED_PAGINATION_STREAMS : list string :=
  ["accounts"; "campaign_groups"; "campaigns"; "creatives"].

Definition API_HOST : string := "https://api.linkedin.com".

(** The length of the longest prefix of [s] without an ampersand. *)
Fixpoint span_not_amp (s : string) : nat :=
  match s with
  | EmptyString => O
  | String c s' => if Ascii.eqb c "&" then O else S (span_not_amp s')
  end.

(** The length of the match of [pageToken=[^&]+] at the head of [s]. *)
Definition match_page_token (s : string) : option nat :=
  if String.prefix "pageToken=" s then
    match span_not_amp (str_drop 10 s) with
    | O => None
    | S n => Some (10 + S n)%nat
    end
  else None.

(** Leftmost, non-overlapping replacement; [skip] characters of the
    current match are still to be dropped. *)
Fixpoint re_sub_from (skip : nat) (repl s : string) : string :=
  match s with
  | EmptyString => EmptyString
  | String c s' =>
      match skip with
      | S k => re_sub_from k repl s'
      | O =>
          match match_page_token s with
          | Some n => repl +:+ re_sub_from (n - 1) repl s'
          | None => String c (re_sub_from 0 repl s')
          end
      end
  end.

(** [re.sub(r'pageToken=[^&]+', repl, s)] *)
Definition re_sub_page_token (repl s : string) : outcome string :=
  if str_contains "\" repl then liftR (re_sub_escaped repl s)
  else Return (re_sub_from 0 repl s).

(** [urllib.parse.unquote(href)]; only strings have a [split]. *)
Definition unquote_href (href : json) : outcome string :=
  match href with
  | JStr s => Return (unquote s)
  | JArr _ | JObj _ =>
      has <- py_contains "%" href ;;
      Raise (if has : bool then TypeError "expected string or bytes-like object"
             else Exn "AttributeError"
                      ("'" +:+ py_type href +:+ "' object has no attribute 'split'"))
  | _ => Raise (TypeError ("argument of type '" +:+ py_type href +:+ "' is not iterable"))
  end.

(** [rel == 'next'] *)
Definition is_next (rel : json) : bool :=
  match rel with
  | JStr r => String.eqb r "next"
  | _ => false
  end.

(** The loop over [links] of the index based pagination. *)
Fixpoint scan_links (links : list json) (next_url : option string) : outcome (option string) :=
  match links with
  | [] => Return next_url
  | link :: rest =>
      rel <- py_get link "rel" JNull ;;
      if is_next rel then
        href <- py_get link "href" JNull ;;
        if py_truthy href then
          creatives <- py_contains "rest/creatives" href ;;
          verbatim <- (if creatives then Return true else py_contains "rest/posts" href) ;;
          if verbatim then Return (Some (API_HOST +:+ py_str href))
          else
            decoded <- unquote_href href ;;
            scan_links rest (Some (API_HOST +:+ decoded))
        else scan_links rest next_url
      else scan_links rest next_url
  end.

(** [get_next_url(stream_name, next_url, data)]; [None] is Python's. *)
Definition get_next_url (stream_name next_url : string) (data : json) : outcome (option string) :=
  if bool_decide (stream_name ∈ CURSOR_BASED_PAGINATION_STREAMS) then
    metadata <- py_get data "metadata" (JObj []) ;;
    next_page_token <- py_get metadata "nextPageToken" JNull ;;
    if py_truthy next_page_token then
      if str_contains "pageToken=" next_url then
        url <- re_sub_page_token ("pageToken=" +:+ py_str next_page_token) next_url ;;
        Return (Some url)
      else Return (Some (next_url +:+ "&pageToken=" +:+ py_str next_page_token))
    else Return None
  else
    paging <- py_get data "paging" (JObj []) ;;
    links <- py_get paging "links" (JArr []) ;;
    items <- py_iter links ;;
    scan_links items None.

(** ** Field chunks of an analytics request *)

(** [split_into_chunks(fields, chunk_length)], as a list. *)
Definition split_into_chunks {A} (fields : list A) (chunk_length : nat) : outcome (list (list A)) :=
  match chunk_length with
  | O => Raise (ValueError "range() arg 3 must not be zero")
  | _ => Return ((fun x => take chunk_length (drop x fields))
                   <$> py_range (length fields) chunk_length)
  end.

Definition MAX_CHUNK_LENGTH : nat := 18.

(** The loop that appends [dateRange] and [pivotValues] to one chunk. *)
Definition append_key_fields (chunk : list string) : list string :=
  fold_left (fun c field => if bool_decide (field ∈ c) then c else c ++ [field])
            ["dateRange"; "pivotValues"] chunk.

(** [chunks] of [sync_ad_analytics], after the append step. *)
Definition analytics_chunks (valid_selected_fields : list string) : outcome (list (list string)) :=
  rest <- split_into_chunks valid_selected_fields MAX_CHUNK_LENGTH ;;
  Return (append_key_fields <$> (["dateRange"; "pivotValues"] :: rest)).

(** ** Identifier resolver ([urn_resolver.py])

    [self._cache] is written and never read, and dies with the resolver
    object: it is left out. *)

Inductive resolver_kind :=
| FunctionsResolver
| TitlesResolver
| GeoResolver
| IndustriesResolver
| OrganizationsResolver
| SenioritiesResolver.

(** [URNResolverFactory.create_resolver] *)
Definition create_resolver (endpoint : string) : outcome resolver_kind :=
  if decide (endpoint = "functions") then Return FunctionsResolver
  else if decide (endpoint = "titles") then Return TitlesResolver
  else if decide (endpoint = "geo") then Return GeoResolver
  else if decide (endpoint = "industries") then Return IndustriesResolver
  else if decide (endpoint = "organizations") then Return OrganizationsResolver
  else if decide (endpoint = "seniorities") then Return SenioritiesResolver
  else Raise (ValueError ("Unsupported endpoint: " +:+ endpoint)).

(** The state of one [_batch_resolve] call: the world and [resolved]. *)
Record rstate := RState {
  rs_world : world;
  rs_resolved : gmap string json
}.

Definition resolver_get (client : Client) (r : request) : ST rstate json := fun s =>
  let '(o, w) := client_get client r (rs_world s) in
  (o, RState w (rs_resolved s)).

(** [resolved[code] = name] *)
Definition set_resolved (code : string) (name : json) : ST rstate unit :=
  modify (fun s => RState (rs_world s) (<[code := name]> (rs_resolved s))).

(** [for code in chunk: if code not in resolved: resolved[code] = code] *)
Definition fallback (chunk : list string) : ST rstate unit :=
  for_each chunk (fun code =>
    modify (fun s =>
      match rs_resolved s !! code with
      | Some _ => s
      | None => RState (rs_world s) (<[code := JStr code]> (rs_resolved s))
      end)).

Definition chunk_size : nat := 150.

(** [[list(codes)[i:i + chunk_size] for i in range(0, len(codes), chunk_size)]] *)
Definition code_chunks (codes : gset string) : list (list string) :=
  (fun i => take chunk_size (drop i (elements codes)))
    <$> py_range (length (elements codes)) chunk_size.

Definition RESTLI_HEADERS : option (list (string * string)) :=
  Some [("X-Restli-Protocol-Version", "2.0.0")].

(** Is [self.locale] set (not [None], not empty)? *)
Definition locale_set (locale : option string) : option string :=
  match locale with
  | Some l => if decide (l = "") then None else Some l
  | None => None
  end.

(** [x.get('name', {}).get('localized', {}).get('en_US', default)] *)
Definition name_localized_en_US (x dflt : json) : outcome json :=
  name <- py_get x "name" (JObj []) ;;
  localized <- py_get name "localized" (JObj []) ;;
  py_get localized "en_US" dflt.

(** The body of [for element in ...elements] of the functions and
    seniorities resolvers; [wanted] is [code in chunk] or [code in codes]. *)
Definition resolve_element (wanted : string -> bool) (element : json) : ST rstate unit :=
  match element with
  | JObj d =>
      let code := py_str (default JNull (dict_get "id" d)) in
      if wanted code then
        name <~ liftO (name_localized_en_US element (JStr code)) ;;
        set_resolved code name
      else sret tt
  | _ => sret tt
  end.

(** [FunctionsResolver]: the request of a chunk (the list of functions,
    whatever the chunk) and what is done with the response. *)
Definition functions_request (locale : option string) : request :=
  let locale_param := match locale_set locale with
                      | Some l => "?locale=" +:+ l
                      | None => ""
                      end in
  Req ("https://api.linkedin.com/v2/functions" +:+ locale_param) "functions" RESTLI_HEADERS.

Definition functions_process (chunk : list string) (response : json) : ST rstate unit :=
  if py_truthy response then
    has <~ liftO (py_contains "elements" response) ;;
    if has then
      elements <~ liftO (py_getitem response "elements") ;;
      items <~ liftO (py_iter elements) ;;
      for_each items (resolve_element (fun code => bool_decide (code ∈ chunk)))
    else sret tt
  else sret tt.

(** [response['results'].items()] *)
Definition results_items (response : json) : outcome (list (string * json)) :=
  results <- py_getitem response "results" ;;
  match results with
  | JObj d => Return d
  | _ => Raise (Exn "AttributeError"
                    ("'" +:+ py_type results +:+ "' object has no attribute 'items'"))
  end.

(** The part shared by the four resolvers that query by [ids]: the test
    of the response and the loop over its results; [name_of code result]
    is the expression that reads the name. *)
Definition results_process (name_of : string -> json -> outcome json) (response : json)
  : ST rstate unit :=
  if py_truthy response then
    has <~ liftO (py_contains "results" response) ;;
    if has then
      items <~ liftO (results_items response) ;;
      for_each items (fun item =>
        match snd item with
        | JObj _ =>
            name <~ liftO (name_of (fst item) (snd item)) ;;
            set_resolved (fst item) name
        | _ => set_resolved (fst item) (JStr (fst item))
        end)
    else sret tt
  else sret tt.

Definition locale_amp (locale : option string) : string :=
  match locale_set locale with
  | Some l => "&locale=" +:+ l
  | None => ""
  end.

(** [TitlesResolver] *)
Definition titles_request (locale : option string) (chunk : list string) : request :=
  Req ("https://api.linkedin.com/v2/titles?ids=List(" +:+ str_join "," chunk
       +:+ ")" +:+ locale_amp locale) "titles" RESTLI_HEADERS.

Definition titles_name (code : string) (result : json) : outcome json :=
  localized <- name_localized_en_US result JNull ;;
  if py_truthy localized then Return localized
  else
    name <- py_get result "name" (JObj []) ;;
    dflt <- py_get name "default" JNull ;;
    Return (py_or dflt (JStr code)).

(** [GeoResolver] *)
Definition geo_request (locale : option string) (chunk : list string) : request :=
  Req ("https://api.linkedin.com/v2/geo?ids=List(" +:+ str_join "," chunk
       +:+ ")" +:+ locale_amp locale) "geo" RESTLI_HEADERS.

Definition geo_name (code : string) (result : json) : outcome json :=
  localized <- py_get result "defaultLocalizedName" (JObj []) ;;
  py_get localized "value" (JStr code).

(** [IndustriesResolver] *)
Definition industries_request (chunk : list string) : request :=
  Req ("https://api.linkedin.com/v2/industries?ids=List(" +:+ str_join "," chunk
       +:+ ")" +:+ "&locale=(language:en,country:US)") "industries" RESTLI_HEADERS.

Definition industries_name (code : string) (result : json) : outcome json :=
  name_localized_en_US result (JStr code).

(** [OrganizationsResolver] *)
Definition organizations_request (chunk : list string) : request :=
  Req ("https://api.linkedin.com/rest/organizationsLookup?ids=List("
       +:+ str_join "," chunk +:+ ")") "organizations" RESTLI_HEADERS.

Definition organizations_name (code : string) (result : json) : outcome json :=
  localized <- name_localized_en_US result JNull ;;
  if py_truthy localized then Return localized
  else
    localizedName <- py_get result "localizedName" JNull ;;
    Return (py_or localizedName (JStr code)).

(** [SenioritiesResolver]: one request for all the codes. *)
Definition seniorities_request : request :=
  Req "https://api.linkedin.com/v2/seniorities" "seniorities" RESTLI_HEADERS.

Definition seniorities_process (codes : list string) (response : json) : ST rstate unit :=
  match response with
  | JObj (_ :: _) =>
      elements <~ liftO (py_get response "elements" (JArr [])) ;;
      items <~ liftO (py_iter elements) ;;
      for_each items (resolve_element (fun code => bool_decide (code ∈ codes)))
  | _ => sret tt
  end.

(** The request a resolver issues for the codes [chunk]. *)
Definition chunk_request (kind : resolver_kind) (locale : option string) (chunk : list string)
  : request :=
  match kind with
  | FunctionsResolver => functions_request locale
  | TitlesResolver => titles_request locale chunk
  | GeoResolver => geo_request locale chunk
  | IndustriesResolver => industries_request chunk
  | OrganizationsResolver => organizations_request chunk
  | SenioritiesResolver => seniorities_request
  end.

(** What a resolver does with the response to that request. *)
Definition process_response (kind : resolver_kind) (chunk : list string) (response : json)
  : ST rstate unit :=
  match kind with
  | FunctionsResolver => functions_process chunk response
  | TitlesResolver => results_process titles_name response
  | GeoResolver => results_process geo_name response
  | IndustriesResolver => results_process industries_name response
  | OrganizationsResolver => results_process organizations_name response
  | SenioritiesResolver => seniorities_process chunk response
  end.

(** A [try] block: the request, then the response. *)
Definition try_chunk (kind : resolver_kind) (client : Client) (locale : option string)
    (chunk : list string) : ST rstate unit :=
  response <~ resolver_get client (chunk_request kind locale chunk) ;;
  process_response kind chunk response.

(** [try: ... except Exception: (log) for code in chunk: ...] *)
Definition resolve_chunk (kind : resolver_kind) (client : Client) (locale : option string)
    (chunk : list string) : ST rstate unit :=
  try_except (try_chunk kind client locale chunk) (fun _ => fallback chunk).

(** [resolved = {}; ...; return resolved] *)
Definition returning_resolved (m : ST rstate unit) : ST world (gmap string json) := fun w =>
  let '(o, s) := m (RState w ∅) in
  (_ <- o ;; Return (rs_resolved s), rs_world s).

(** [_batch_resolve(codes)]: a [try] per chunk of 150 codes, except for
    the seniorities, where one [try] covers all the codes. *)
Definition _batch_resolve (kind : resolver_kind) (client : Client) (locale : option string)
    (codes : gset string) : ST world (gmap string json) :=
  returning_resolved
    match kind with
    | SenioritiesResolver => resolve_chunk kind client locale (elements codes)
    | _ => for_each (code_chunks codes) (resolve_chunk kind client locale)
    end.

(** [resolver.resolve(urns)] *)
Definition resolve (kind : resolver_kind) (client : Client) (locale : option string)
    (urns : gset string) : ST world (gmap string json) :=
  if decide (urns = ∅) then sret ∅
  else _batch_resolve kind client locale (set_map last_segment urns).

(** [resolve_urns(client, urns, endpoint, locale)] *)
Definition resolve_urns (client : Client) (urns : gset string) (endpoint : string)
    (locale : option string) : ST world (gmap string json) :=
  kind <~ liftO (create_resolver endpoint) ;;
  resolve kind client locale urns.

(** ** Response merger *)

(** [resolution_configs]: stream, endpoint and [config.get("locale")]
    (the [name_path] entries are passed on and ignored). *)
Definition resolution_configs : list (string * (string * option string)) :=
  [ ("ad_analytics_by_member_country_v2", ("geo", Some "(language:en,country:US)"));
    ("ad_analytics_by_member_region_v2", ("geo", Some "(language:en,country:US)"));
    ("ad_analytics_by_member_job_function", ("functions", Some "en_US"));
    ("ad_analytics_by_member_job_title", ("titles", Some "en_US"));
    ("ad_analytics_by_member_industry", ("industries", Some "(language:en,country:US)"));
    ("ad_analytics_by_member_company", ("organizations", None));
    ("ad_analytics_by_member_seniority", ("seniorities", None)) ].

(** [client and stream_name in resolution_configs], with the entry. *)
Definition resolution_of (client : option Client) (stream_name : option string)
  : option (Client * (string * option string)) :=
  match client, stream_name with
  | Some c, Some name =>
      match al_get name resolution_configs with
      | Some config => Some (c, config)
      | None => None
      end
  | _, _ => None
  end.

(** The composite key: (pivot value, "year-month-day" of the start). *)
Abbreviation primary_key := (pykey * string)%type.

(** [full_records], in insertion order, and [urns_to_resolve]. *)
Abbreviation merge_state := (list (primary_key * dict) * gset pykey)%type.

(** The body of [for element in page]. *)
Definition merge_element (pivot : json) (resolving : bool) (st : merge_state) (element : json)
  : outcome merge_state :=
  dateRange <- py_getitem element "dateRange" ;;
  temp_start <- py_getitem dateRange "start" ;;
  pivotValues <- py_getitem element "pivotValues" ;;
  temp_pivotValue <- py_first pivotValues ;;
  element <- py_setitem element "pivot" pivot ;;
  element <- py_setitem element "pivot_value" temp_pivotValue ;;
  urns <- (if resolving
           then urn <- py_hash temp_pivotValue ;; Return ({[ urn ]} ∪ snd st)
           else Return (snd st)) ;;
  year <- py_getitem temp_start "year" ;;
  month <- py_getitem temp_start "month" ;;
  day <- py_getitem temp_start "day" ;;
  let string_start := py_str year +:+ "-" +:+ py_str month +:+ "-" +:+ py_str day in
  pivot_key <- py_hash temp_pivotValue ;;
  let key : primary_key := (pivot_key, string_start) in
  fields <- (match element with
             | JObj d => Return d
             | _ => Raise (TypeError "not a dict")
             end) ;;
  match al_get key (fst st) with
  | Some existing => Return (al_set key (dict_update existing fields) (fst st), urns)
  | None => Return (al_set key fields (fst st), urns)
  end.

(** [for page in data: for element in page: ...] *)
Definition merge_pages (pivot : json) (resolving : bool) (data : list json)
  : outcome merge_state :=
  fold_outcome (fun st page =>
                  elements <- py_iter page ;;
                  fold_outcome (merge_element pivot resolving) elements st)
               data ([], ∅).

(** The strings of [urns_to_resolve]; [_extract_code] needs a [split]. *)
Definition urn_strings (urns : gset pykey) : outcome (gset string) :=
  strs <- map_outcome (fun k => match k with
                                | KStr u => Return u
                                | KInt _ => Raise (Exn "AttributeError"
                                                       "'int' object has no attribute 'split'")
                                | KNone => Raise (Exn "AttributeError"
                                                      "'NoneType' object has no attribute 'split'")
                                end) (elements urns) ;;
  Return (list_to_set strs).

(** [record["pivot_value_name"] = resolved_names.get(code, code)] with
    [code = record["pivot_value"].split(':')[-1]] *)
Definition name_record (resolved_names : gmap string json) (record : dict) : outcome dict :=
  pivot_value <- py_getitem (JObj record) "pivot_value" ;;
  match pivot_value with
  | JStr u =>
      let code := last_segment u in
      Return (dict_set "pivot_value_name" (default (JStr code) (resolved_names !! code)) record)
  | _ => Raise (Exn "AttributeError"
                    ("'" +:+ py_type pivot_value +:+ "' object has no attribute 'split'"))
  end.

(** [merge_responses(pivot, data, client, stream_name)]: the merged
    records by composite key, in insertion order. Each record of [data] is
    an object of its own, as decoded from a response. *)
Definition merge_responses (pivot : json) (data : list json) (client : option Client)
    (stream_name : option string) : ST world (list (primary_key * dict)) :=
  let resolution := resolution_of client stream_name in
  st <~ liftO (merge_pages pivot (bool_decide (is_Some resolution)) data) ;;
  match resolution with
  | Some (c, (endpoint, locale)) =>
      urns <~ liftO (urn_strings (snd st)) ;;
      resolved_names <~ resolve_urns c urns endpoint locale ;;
      liftO (map_outcome (fun kr => record <- name_record resolved_names (snd kr) ;;
                                    Return (fst kr, record)) (fst st))
  | None => sret (fst st)
  end.

(** ** Stream descriptors and the sync state *)

Record stream := Stream {
  tap_stream_id : string;
  replication_method : string;
  replication_keys : list string;
  path : string;
  data_key : string;
  parent : option string;
  params : dict;
  headers : list (string * string)
}.

(** The [state] argument: [None], or a dict with or without [bookmarks]. *)
Record tap_state := TapState { bookmarks : option (gmap string json) }.

(** [self.get_bookmark(state, default)] *)
Definition get_bookmark (self : stream) (state : option tap_state) (dflt : json) : json :=
  match state with
  | None => dflt
  | Some st =>
      match bookmarks st with
      | None => dflt
      | Some b => default dflt (b !! tap_stream_id self)
      end
  end.

(** [next(iter(self.replication_keys))] *)
Definition first_replication_key (self : stream) : outcome string :=
  match replication_keys self with
  | k :: _ => Return k
  | [] => Raise (Exn "StopIteration" "")
  end.

(** ** Record filter and emission *)

(** [max_bookmark_value] after a record whose bookmark is [value]. *)
Definition track_max (max_bookmark_value value : json) : outcome json :=
  match max_bookmark_value with
  | JNull => Return value
  | _ =>
      new <- liftR (strptime_to_utc value) ;;
      old <- liftR (strptime_to_utc max_bookmark_value) ;;
      Return (if old <? new then value else max_bookmark_value)
  end.

(** [bookmark_field and (bookmark_field in transformed_record)], with the
    value of the field. *)
Definition bookmark_of (bookmark_field : option string) (transformed_record : dict)
  : option json :=
  match bookmark_field with
  | Some field => if decide (field = "") then None else dict_get field transformed_record
  | None => None
  end.

(** The record as written: the parent id is added to a child record,
    then the record goes through the transformer. *)
Definition prepare_record (self : stream) (parent_id record : json) : outcome dict :=
  record <- (match parent self with
             | Some p =>
                 if py_truthy parent_id && negb (bool_decide (p = ""))
                 then py_setitem record (p +:+ "_id") parent_id
                 else Return record
             | None => Return record
             end) ;;
  liftR (transform (tap_stream_id self) record).

(** [counter.increment()] on a counter whose [value] is [value]: one
    more, and back to 0 when the counter logs its value. *)
Definition increment (value : nat) : ST world nat :=
  gets (fun w => if ready_to_log w then O else S value).

(** The body of [for record in records]; the state of the loop is
    [(max_bookmark_value, counter.value)]. *)
Definition process_record (self : stream) (bookmark_field : option string)
    (last_datetime parent_id : json) (acc : json * nat) (record : json)
  : ST world (json * nat) :=
  transformed_record <~ liftO (prepare_record self parent_id record) ;;
  if decide (replication_method self = "FULL_TABLE") then
    _ <~ write_record (tap_stream_id self) transformed_record ;;
    value <~ increment (snd acc) ;;
    match bookmark_of bookmark_field transformed_record with
    | Some bookmark =>
        max_bookmark_value <~ liftO (track_max (fst acc) bookmark) ;;
        sret (max_bookmark_value, value)
    | None => sret (fst acc, value)
    end
  else
    match bookmark_of bookmark_field transformed_record with
    | Some bookmark =>
        max_bookmark_value <~ liftO (track_max (fst acc) bookmark) ;;
        last_dttm <~ liftO (liftR (strptime_to_utc last_datetime)) ;;
        bookmark_dttm <~ liftO (liftR (strptime_to_utc bookmark)) ;;
        if last_dttm <=? bookmark_dttm then
          _ <~ write_record (tap_stream_id self) transformed_record ;;
          value <~ increment (snd acc) ;;
          sret (max_bookmark_value, value)
        else sret (max_bookmark_value, snd acc)
    | None =>
        _ <~ write_record (tap_stream_id self) transformed_record ;;
        value <~ increment (snd acc) ;;
        sret (fst acc, value)
    end.

(** [acc = body(acc, x)] for [x] in [xs], with side effects. *)
Fixpoint fold_st {S A B} (body : B -> A -> ST S B) (xs : list A) (acc : B) : ST S B :=
  match xs with
  | [] => sret acc
  | x :: xs' => acc' <~ body acc x ;; fold_st body xs' acc'
  end.

(** [self.process_records(catalog, records, time_extracted, bookmark_field,
    max_bookmark_value, last_datetime, parent_id)]: the new maximum and
    [counter.value], the records written since the counter last logged. *)
Definition process_records (self : stream) (records : list json)
    (bookmark_field : option string) (max_bookmark_value last_datetime parent_id : json)
  : ST world (json * nat) :=
  fold_st (process_record self bookmark_field last_datetime parent_id)
          records (max_bookmark_value, O).

(** ** Date-window sync engine (analytics streams) *)

Definition FIELDS_UNAVAILABLE_FOR_AD_ANALYTICS : list string :=
  ["campaign"; "campaignId"; "startAt"; "endAt"; "creative"; "creativeId";
   "pivot"; "pivotValue"; "pivotValueName"].

Definition MICROSECONDS_PER_DAY : Z := 86400000000.

(** [dt.date()] *)
Definition datetime_date (dt : Z) : date := dt / MICROSECONDS_PER_DAY + 1.

(** [dt - timedelta(days=n)] *)
Definition datetime_sub_days (dt n : Z) : outcome Z :=
  let r := dt - n * MICROSECONDS_PER_DAY in
  if (0 <=? r) && (r <? _MAXORDINAL * MICROSECONDS_PER_DAY) then Return r
  else Raise (OverflowError "date value out of range").

(** [{**params, 'dateRange.start.day': ..., ..., 'dateRange.end.year': ...}] *)
Definition with_date_range (params : dict) (start end_ : date) : dict :=
  dict_update params
    [ ("dateRange.start.day", JNum (date_day start));
      ("dateRange.start.month", JNum (date_month start));
      ("dateRange.start.year", JNum (date_year start));
      ("dateRange.end.day", JNum (date_day end_));
      ("dateRange.end.month", JNum (date_month end_));
      ("dateRange.end.year", JNum (date_year end_)) ].

(** [shift_sync_window(params, today, date_window_size, forced_window_size)] *)
Definition shift_sync_window (params : dict) (today : date) (date_window_size : Z)
    (forced_window_size : option Z) : outcome (date * date * dict) :=
  year <- py_getitem (JObj params) "dateRange.end.year" ;;
  month <- py_getitem (JObj params) "dateRange.end.month" ;;
  day <- py_getitem (JObj params) "dateRange.end.day" ;;
  current_end <- date_new year month day ;;
  let size := match forced_window_size with
              | Some forced => if forced =? 0 then date_window_size else forced
              | None => date_window_size
              end in
  delta <- timedelta_days size ;;
  shifted <- date_add current_end delta ;;
  let new_end := Z.min today shifted in
  Return (current_end, new_end, with_date_range params current_end new_end).

(** ['&'.join(['%s=%s' % (key, value) for (key, value) in params.items()])] *)
Definition query_string_of (params : dict) : string :=
  str_join "&" ((fun kv => fst kv +:+ "=" +:+ py_str (snd kv)) <$> params).

(** [sync_analytics_endpoint] together with the loop that consumes its
    pages: [if page.get(self.data_key): responses.append(...)]. *)
Fixpoint analytics_pages (page_fuel : nat) (client : Client) (self : stream)
    (next_url : string) (responses : list json) : ST world (list json) :=
  match page_fuel with
  | O => out_of_fuel
  | S page_fuel' =>
      data <~ client_get client (Req next_url (tap_stream_id self) None) ;;
      item <~ liftO (py_get data (data_key self) JNull) ;;
      let responses := if py_truthy item then responses ++ [item] else responses in
      next <~ liftO (get_next_url (tap_stream_id self) next_url data) ;;
      match next with
      | Some url =>
          if decide (url = "") then sret responses
          else analytics_pages page_fuel' client self url responses
      | None => sret responses
      end
  end.

(** The body of [for chunk in chunks]; the state is [static_params], the
    last [params] and [responses]. *)
Definition fetch_chunk (page_fuel : nat) (client : Client) (self : stream)
    (acc : dict * option dict * list json) (chunk : list string)
  : ST world (dict * option dict * list json) :=
  let static_params := dict_set "fields" (JStr (str_join "," chunk)) (fst (fst acc)) in
  let params := dict_update [("start", JNum 0)] static_params in
  let url := "https://api.linkedin.com/rest/" +:+ path self +:+ "?"
             +:+ query_string_of params in
  responses <~ analytics_pages page_fuel client self url (snd acc) ;;
  sret (static_params, Some params, responses).

(** One pass of the [while] loop up to the shift of the window: fetch,
    merge, transform, filter and write. Gives [static_params],
    [total_records] and [max_bookmark_value]. *)
Definition sync_window (page_fuel : nat) (client : Client) (self : stream)
    (chunks : list (list string)) (bookmark_field : string)
    (last_datetime : json) (last_datetime_dt : Z) (parent_id : json)
    (static_params : dict) (total_records : nat) (max_bookmark_value : json)
  : ST world (dict * nat * json) :=
  fetched <~ fold_st (fetch_chunk page_fuel client self) chunks (static_params, None, []) ;;
  params <~ liftO (match snd (fst fetched) with
                   | Some params => Return params
                   | None => Raise (Exn "UnboundLocalError" "params")
                   end) ;;
  let pivot := default JNull (dict_get "pivot" params) in
  raw_records <~ merge_responses pivot (snd fetched) (Some client)
                   (Some (tap_stream_id self)) ;;
  transformed <~ liftO (liftR (transform_json
                                 (JObj [(data_key self, JArr (JObj ∘ snd <$> raw_records))])
                                 (tap_stream_id self))) ;;
  transformed_data <~ liftO (py_getitem transformed (data_key self)) ;;
  if py_truthy transformed_data then
    records <~ liftO (py_iter transformed_data) ;;
    processed <~ process_records self records (Some bookmark_field) last_datetime
                   (JStr (strftime last_datetime_dt)) parent_id ;;
    sret (fst (fst fetched), (total_records + snd processed)%nat, fst processed)
  else sret (fst (fst fetched), total_records, max_bookmark_value).

(** [while window_end_date <= today: ...] *)
Fixpoint window_loop (fuel page_fuel : nat) (client : Client) (self : stream)
    (chunks : list (list string)) (bookmark_field : string)
    (last_datetime : json) (last_datetime_dt : Z) (parent_id : json)
    (today : date) (date_window_size : Z)
    (window_end_date : date) (static_params : dict)
    (total_records : nat) (max_bookmark_value : json) : ST world (nat * json) :=
  match fuel with
  | O => out_of_fuel
  | S fuel' =>
      if window_end_date <=? today then
        done <~ sync_window page_fuel client self chunks bookmark_field last_datetime
                  last_datetime_dt parent_id static_params total_records max_bookmark_value ;;
        shifted <~ liftO (shift_sync_window (fst (fst done)) today date_window_size None) ;;
        if fst (fst shifted) =? snd (fst shifted) then sret (snd (fst done), snd done)
        else window_loop fuel' page_fuel client self chunks bookmark_field last_datetime
               last_datetime_dt parent_id today date_window_size
               (snd (fst shifted)) (snd shifted) (snd (fst done)) (snd done)
      else sret (total_records, max_bookmark_value)
  end.

(** The first date window: [(start, end)] from the date of the bookmark
    less seven days, bounded by [today]. *)
Definition first_window (window_start_date : date) (date_window_size : Z) (today : date)
  : outcome (date * date) :=
  delta <- timedelta_days date_window_size ;;
  window_end_date <- date_add window_start_date delta ;;
  let window_end_date := if today <? window_end_date then today else window_end_date in
  let window_start_date := if today <? window_start_date then today else window_start_date in
  let window_start_date :=
    if window_end_date <? window_start_date then window_end_date else window_start_date in
  Return (window_start_date, window_end_date).

(** [self.sync_ad_analytics(client, catalog, last_datetime, date_window_size,
    parent_id)]; [selected] are the selected fields of the catalog entry in
    camel case and [today] is [datetime.date.today()]. *)
Definition sync_ad_analytics (fuel page_fuel : nat) (self : stream) (client : Client)
    (selected : list string) (last_datetime : json) (date_window_size : Z)
    (parent_id : json) (today : date) : ST world (nat * json) :=
  bookmark_field <~ liftO (first_replication_key self) ;;
  bookmark_dt <~ liftO (liftR (strptime_to_utc last_datetime)) ;;
  last_datetime_dt <~ liftO (datetime_sub_days bookmark_dt 7) ;;
  window <~ liftO (first_window (datetime_date last_datetime_dt) date_window_size today) ;;
  let static_params := with_date_range (params self) (fst window) (snd window) in
  let valid_selected_fields :=
    filter (fun field => field ∉ FIELDS_UNAVAILABLE_FOR_AD_ANALYTICS) selected in
  chunks <~ liftO (analytics_chunks valid_selected_fields) ;;
  window_loop fuel page_fuel client self chunks bookmark_field last_datetime
    last_datetime_dt parent_id today date_window_size
    (snd window) static_params O last_datetime.

(** ** Stream sync engine, for a stream without children

    [LinkedInAds.sync_endpoint] for a stream whose [children] is the
    empty list of the base class: the loops over the children do nothing
    and [state] is only read. *)

Definition NEW_PATH_STREAMS : list string := ["campaign_groups"; "campaigns"; "creatives"].
Definition BASE_URL : string := "https://api.linkedin.com/rest".

(** The keyword arguments of a call of [sync_endpoint] (every call passes
    them by name). *)
Record sync_kwargs := SyncKwargs {
  kw_client : Client;
  kw_state : option tap_state;
  kw_page_size : json;
  kw_start_date : json;
  kw_selected_streams : list string;
  kw_date_window_size : Z;
  kw_parent_id : json;
  kw_account_list : list json
}.

Definition endpoint_params (self : stream) (page_size : json) : dict :=
  if bool_decide (tap_stream_id self ∈ CURSOR_BASED_PAGINATION_STREAMS) then
    let page_size := if decide (tap_stream_id self = "accounts") then JNum 1000 else page_size in
    dict_update [("pageSize", page_size)] (params self)
  else
    dict_update [("start", JNum 0); ("count", page_size)] (params self).

(** [urllist]: the account and the first URL of each pagination. *)
Definition urllist (self : stream) (querystring : string) (parent_id : json)
    (account_list : list json) : list (json * string) :=
  if bool_decide (tap_stream_id self ∈ NEW_PATH_STREAMS) then
    (fun account => (account, BASE_URL +:+ "/adAccounts/" +:+ py_str account +:+ "/"
                              +:+ path self +:+ "?" +:+ querystring)) <$> account_list
  else if decide (path self = "posts") then
    [(JNull, BASE_URL +:+ "/" +:+ path self +:+ "?" +:+ querystring
             +:+ "&dscAdAccount=urn%3Ali%3AsponsoredAccount%3A" +:+ py_str parent_id)]
  else
    [(JNull, BASE_URL +:+ "/" +:+ path self +:+ "?" +:+ querystring)].

(** [while next_url: ...] for one entry of [urllist]; the state is
    [(total_records, max_bookmark_value)]. *)
Fixpoint page_loop (fuel : nat) (self : stream) (kw : sync_kwargs)
    (bookmark_field : string) (last_datetime : json)
    (next_url : string) (acc : nat * json) : ST world (nat * json) :=
  match fuel with
  | O => out_of_fuel
  | S fuel' =>
      data <~ client_get (kw_client kw) (Req next_url (tap_stream_id self) (Some (headers self))) ;;
      has_data <~ liftO (py_contains (data_key self) data) ;;
      transformed_data <~ liftO (if has_data
                                 then transformed <- liftR (transform_json data (tap_stream_id self)) ;;
                                      py_getitem transformed (data_key self)
                                 else Return (JArr [])) ;;
      if py_truthy transformed_data then
        acc <~ (if bool_decide (tap_stream_id self ∈ kw_selected_streams kw) then
                  records <~ liftO (py_iter transformed_data) ;;
                  processed <~ process_records self records (Some bookmark_field)
                                 (snd acc) last_datetime (kw_parent_id kw) ;;
                  sret ((fst acc + snd processed)%nat, fst processed)
                else sret acc) ;;
        next <~ liftO (get_next_url (tap_stream_id self) next_url data) ;;
        match next with
        | Some url =>
            if decide (url = "") then sret acc
            else page_loop fuel' self kw bookmark_field last_datetime url acc
        | None => sret acc
        end
      else sret acc
  end.

(** [LinkedInAds.sync_endpoint] called with the keywords [kw], for a stream
    without children:
    [(total_records, max_bookmark_value)]. *)
Definition sync_endpoint (fuel : nat) (self : stream) (kw : sync_kwargs)
  : ST world (nat * json) :=
  let last_datetime := get_bookmark self (kw_state kw) (kw_start_date kw) in
  bookmark_field <~ liftO (first_replication_key self) ;;
  let querystring := query_string_of (endpoint_params self (kw_page_size kw)) in
  fold_st (fun acc entry => page_loop fuel self kw bookmark_field last_datetime (snd entry) acc)
          (urllist self querystring (kw_parent_id kw) (kw_account_list kw))
          (O, last_datetime).

Definition VideoAds : stream := {|
  tap_stream_id := "video_ads";
  replication_method := "INCREMENTAL";
  replication_keys := ["last_modified_time"];
  path := "posts";
  data_key := "elements";
  parent := Some "accounts";
  params := [("q", JStr "dscAdAccount"); ("dscAdTypes", JStr "List(VIDEO)");
             ("count", JNum 100)];
  headers := [("X-Restli-Protocol-Version", "2.0.0")]
|}.

Definition PERMISSION_DENIED : string :=
  "Not enough permissions to access: partnerApiPostsExternal".

(** [VideoAds.sync_endpoint] called with the keywords [kw]. *)
Definition VideoAds_sync_endpoint (fuel : nat) (kw : sync_kwargs) : ST world (nat * json) :=
  try_except
    (sync_endpoint fuel VideoAds kw)
    (fun error =>
       if str_contains PERMISSION_DENIED (exn_str error)
       then sret (O, get_bookmark VideoAds (kw_state kw) (kw_start_date kw))
       else sraise error).

Definition AdAnalyticsByCampaign : stream := {|
  tap_stream_id := "ad_analytics_by_campaign";
  replication_method := "INCREMENTAL";
  replication_keys := ["end_at"];
  path := "adAnalytics";
  data_key := "elements";
  parent := Some "campaigns";
  params := [("q", JStr "analytics"); ("pivot", JStr "CAMPAIGN");
             ("timeGranularity", JStr "DAILY"); ("count", JNum 10000)];
  headers := []
|}.

(** The result of a library call is a value. *)
Definition is_Ok {A} (r : result A) : Prop := ∃ a, r = Ok a.

(** The instant a timestamp denotes (0 when it does not parse). *)
Definition instant (v : json) : Z :=
  match strptime_to_utc v with
  | Ok z => z
  | Failed _ => 0
  end.

(** The rule of emission in the words of the specification: everything on
    a full-refresh stream; on an incremental stream a record with a
    bookmark when the bookmark is not before the last one, and every record
    without a bookmark. *)
Definition emitted (full_table : bool) (bookmark : option json) (last_datetime : json) : bool :=
  full_table ||
  match bookmark with
  | Some value => instant last_datetime <=? instant value
  | None => true
  end.

(** The composite key of a raw record: the first pivot value and the
    "year-month-day" of the start date inside it. *)
Definition composite_key (element : json) : outcome primary_key :=
  dateRange <- py_getitem element "dateRange" ;;
  temp_start <- py_getitem dateRange "start" ;;
  pivotValues <- py_getitem element "pivotValues" ;;
  temp_pivotValue <- py_first pivotValues ;;
  year <- py_getitem temp_start "year" ;;
  month <- py_getitem temp_start "month" ;;
  day <- py_getitem temp_start "day" ;;
  pivot_key <- py_hash temp_pivotValue ;;
  Return (pivot_key, py_str year +:+ "-" +:+ py_str month +:+ "-" +:+ py_str day).

(** The fields of a raw record once [pivot] and [pivot_value] are set. *)
Definition decorated (pivot : json) (element : json) : outcome dict :=
  pivotValues <- py_getitem element "pivotValues" ;;
  temp_pivotValue <- py_first pivotValues ;;
  match element with
  | JObj d => Return (dict_set "pivot_value" temp_pivotValue (dict_set "pivot" pivot d))
  | _ => Raise (TypeError "not a dict")
  end.

(** The value of field [f] in the latest of the records [es] (each with
    its key) that has the key [K] and the field [f]. *)
Fixpoint latest_value (f : string) (K : primary_key) (es : list (primary_key * dict))
  : option json :=
  match es with
  | [] => None
  | (K', d) :: rest =>
      match latest_value f K rest with
      | Some v => Some v
      | None => if decide (K' = K) then dict_get f d else None
      end
  end.

(** [full_records] after the records [es], from [full_records = fr]. *)
Definition merge_spec (es : list (primary_key * dict)) (fr : list (primary_key * dict))
  : list (primary_key * dict) :=
  fold_left (fun fr kd =>
               al_set (fst kd) (match al_get (fst kd) fr with
                                | Some existing => dict_update existing (snd kd)
                                | None => snd kd
                                end) fr) es fr.

(** Field [f] of the record stored under [K]. *)
Definition field_at (f : string) (K : primary_key) (fr : list (primary_key * dict))
  : option json :=
  match al_get K fr with
  | Some r => dict_get f r
  | None => None
  end.

(** Every key of [m] is a key of [m']. *)
Definition extends (m m' : gmap string json) : Prop :=
  ∀ k, is_Some (m !! k) -> is_Some (m' !! k).

(** A step of a resolver that ends, leaves the world alone and only adds
    to, or overwrites in, [resolved]. *)
Definition well_behaved (m : ST rstate unit) : Prop :=
  ∀ s, fst (m s) ≠ Timeout
       ∧ rs_world (snd (m s)) = rs_world s
       ∧ extends (rs_resolved s) (rs_resolved (snd (m s))).

(** The requests of the first [i] chunks. *)
Definition requests_before (kind : resolver_kind) (locale : option string)
    (chunks : list (list string)) (i : nat) : list request :=
  chunk_request kind locale <$> take i chunks.

(** The chunks of codes a resolver works through. *)
Definition chunks_of (kind : resolver_kind) (codes : gset string) : list (list string) :=
  match kind with
  | SenioritiesResolver => [elements codes]
  | _ => code_chunks codes
  end.

(** A response that carries every code of the chunk, each with its name
    under the name path of the resolver when [names] has one. *)
Definition name_entry (kind : resolver_kind) (name : option string) : dict :=
  match name with
  | None => []
  | Some n =>
      match kind with
      | GeoResolver => [("defaultLocalizedName", JObj [("value", JStr n)])]
      | _ => [("name", JObj [("localized", JObj [("en_US", JStr n)])])]
      end
  end.

Definition good_response (kind : resolver_kind) (chunk : list string)
    (names : string -> option string) : json :=
  match kind with
  | FunctionsResolver | SenioritiesResolver =>
      JObj [("elements",
             JArr ((fun c => JObj (("id", JStr c) :: name_entry kind (names c))) <$> chunk))]
  | _ =>
      JObj [("results",
             JObj ((fun c => (c, JObj (name_entry kind (names c)))) <$> chunk))]
  end.

(** The fetched name of a code, the code itself when there is none. *)
Definition named (names : string -> option string) (code : string) : json :=
  JStr (default code (names code)).

(** The merged records with the resolved name of each pivot value. *)
Definition with_names (resolved : gmap string json) (records : list (primary_key * dict))
  : list (primary_key * dict) :=
  (fun kr => (fst kr,
              match dict_get "pivot_value" (snd kr) with
              | Some (JStr u) =>
                  dict_set "pivot_value_name"
                    (default (JStr (last_segment u)) (resolved !! last_segment u)) (snd kr)
              | _ => snd kr
              end)) <$> records.

(** What the merger knows of a record with key [K] and fields [d]: its
    pivot values, the first of them under [pivot_value] and as the first
    part of the key, and [pivot]. *)
Definition pivot_fields (pivot : json) (K : primary_key) (d : dict) : Prop :=
  ∃ pivotValues temp_pivotValue,
    dict_get "pivotValues" d = Some pivotValues
    ∧ py_first pivotValues = Return temp_pivotValue
    ∧ dict_get "pivot_value" d = Some temp_pivotValue
    ∧ dict_get "pivot" d = Some pivot
    ∧ py_hash temp_pivotValue = Return (fst K).

(** A [links] entry that is not a link to the next page. *)
Definition not_next (item : json) : Prop :=
  ∃ d, item = JObj d ∧ is_next (default JNull (dict_get "rel" d)) = false.

(** The six date fields of [params] hold the window [(start, end)]. *)
Definition params_window (params : dict) (start end_ : date) : Prop :=
  dict_get "dateRange.start.day" params = Some (JNum (date_day start))
  ∧ dict_get "dateRange.start.month" params = Some (JNum (date_month start))
  ∧ dict_get "dateRange.start.year" params = Some (JNum (date_year start))
  ∧ dict_get "dateRange.end.day" params = Some (JNum (date_day end_))
  ∧ dict_get "dateRange.end.month" params = Some (JNum (date_month end_))
  ∧ dict_get "dateRange.end.year" params = Some (JNum (date_year end_)).

(** Does the [n]-th day of a year get its month and day right? *)
Definition month_day_ok (leap : bool) (n : Z) : bool :=
  let '(m, d) := month_day leap n in
  (1 <=? m) && (m <=? 12) && (1 <=? d)
  && (d <=? (if (m =? 2) && leap then 29 else _DAYS_IN_MONTH m))
  && (_DAYS_BEFORE_MONTH m + (if (2 <? m) && leap then 1 else 0) + d =? n + 1).

(** ** Names used in the further properties *)

(** The six parameters that hold the date window. *)
Definition DATE_RANGE_KEYS : list string :=
  [ "dateRange.start.day"; "dateRange.start.month"; "dateRange.start.year";
    "dateRange.end.day"; "dateRange.end.month"; "dateRange.end.year" ].

(** From [w] to [w'], [n] records were written, all to the stream
    [stream_name], after those already there. *)
Definition written (stream_name : string) (w w' : world) (n : nat) : Prop :=
  ∃ out, sink w' = sink w ++ out
         ∧ length out = n
         ∧ Forall (fun entry => fst entry = stream_name) out.

(** The record counter went from [before] to [after] while [n] records
    were written: it shows no more than all of them, and all of them when
    the counter never logs. *)
Definition counted (before after n : nat) : Prop :=
  (after <= before + n)%nat
  ∧ ((∀ w, ready_to_log w = false) -> after = (before + n)%nat).

(** A step of a resolver keeps the property [I] of its state, however it
    ends. *)
Definition keeps {A} (I : rstate -> Prop) (m : ST rstate A) : Prop :=
  ∀ s, I s -> I (snd (m s)).

(** Every key of [resolved] is one of [codes]. *)
Definition keys_in (codes : gset string) (s : rstate) : Prop :=
  ∀ code, is_Some (rs_resolved s !! code) -> code ∈ codes.

(** ** Bookmarks in the state

    [write_bookmark(state, value, stream_name)]: the state object is
    updated in place and written out as a STATE message. The store is the
    state object and the messages written so far; [None] has no
    [bookmarks] to look for. *)
Definition write_bookmark (value : json) (stream_name : string)
  : ST (option tap_state * list tap_state) unit := fun s =>
  match fst s with
  | None => (Raise (TypeError "argument of type 'NoneType' is not iterable"), s)
  | Some state =>
      let bookmarks := default ∅ (bookmarks state) in
      let state := TapState (Some (<[stream_name := value]> bookmarks)) in
      (Return tt, (Some state, snd s ++ [state]))
  end.

(** ** Stream classes and the sync of a stream with its children

    The part of [LinkedInAds.sync_endpoint] that deals with [children]:
    the schema and the first bookmark of each selected child, the sync of
    every selected child for every record of a page, and the bookmarks of
    the children written at the end. *)

Definition ANALYTICS_STREAMS : list string :=
  [ "ad_analytics_by_campaign"; "ad_analytics_by_creative";
    "ad_analytics_by_member_company_size"; "ad_analytics_by_member_industry";
    "ad_analytics_by_member_seniority"; "ad_analytics_by_member_job_title";
    "ad_analytics_by_member_job_function"; "ad_analytics_by_member_country_v2";
    "ad_analytics_by_member_region_v2"; "ad_analytics_by_member_company";
    "ad_analytics_by_placement_name" ].

(** A stream class: the attributes of [stream], its [children] and its
    [foreign_key]. *)
Record stream_class := StreamClass {
  cls_stream : stream;
  cls_children : list string;
  cls_foreign_key : option string
}.

Definition Accounts : stream_class := {|
  cls_stream := {|
    tap_stream_id := "accounts";
    replication_method := "FULL_TABLE";
    replication_keys := ["last_modified_time"];
    path := "adAccounts";
    data_key := "elements";
    parent := None;
    params := [("q", JStr "search")];
    headers := [("X-Restli-Protocol-Version", "2.0.0")]
  |};
  cls_children := ["video_ads"];
  cls_foreign_key := None
|}.

Definition AccountUsers : stream_class := {|
  cls_stream := {|
    tap_stream_id := "account_users";
    replication_method := "FULL_TABLE";
    replication_keys := ["last_modified_time"];
    path := "adAccountUsers";
    data_key := "elements";
    parent := None;
    params := [("q", JStr "accounts")];
    headers := []
  |};
  cls_children := [];
  cls_foreign_key := None
|}.

Definition CampaignGroups : stream_class := {|
  cls_stream := {|
    tap_stream_id := "campaign_groups";
    replication_method := "FULL_TABLE";
    replication_keys := ["last_modified_time"];
    path := "adCampaignGroups";
    data_key := "elements";
    parent := None;
    params := [("q", JStr "search")];
    headers := []
  |};
  cls_children := [];
  cls_foreign_key := None
|}.

Definition Campaigns : stream_class := {|
  cls_stream := {|
    tap_stream_id := "campaigns";
    replication_method := "FULL_TABLE";
    replication_keys := ["last_modified_time"];
    path := "adCampaigns";
    data_key := "elements";
    parent := None;
    params := [ ("q", JStr "search");
                ("search.status.values[0]", JStr "ACTIVE");
                ("search.status.values[1]", JStr "PAUSED");
                ("search.status.values[2]", JStr "ARCHIVED");
                ("search.status.values[3]", JStr "COMPLETED");
                ("search.status.values[4]", JStr "CANCELED");
                ("search.status.values[5]", JStr "DRAFT");
                ("search.status.values[6]", JStr "PENDING_DELETION");
                ("search.status.values[7]", JStr "REMOVED") ];
    headers := []
  |};
  cls_children := "creatives" :: ANALYTICS_STREAMS;
  cls_foreign_key := None
|}.

Definition Creatives : stream_class := {|
  cls_stream := {|
    tap_stream_id := "creatives";
    replication_method := "FULL_TABLE";
    replication_keys := ["last_modified_at"];
    path := "creatives";
    data_key := "elements";
    parent := Some "campaigns";
    params := [ ("q", JStr "criteria");
                ("campaigns", JStr "List(urn%3Ali%3AsponsoredCampaign%3A{})");
                ("sortOrder", JStr "ASCENDING") ];
    headers := [("X-Restli-Protocol-Version", "2.0.0"); ("X-RestLi-Method", "FINDER")]
  |};
  cls_children := [];
  cls_foreign_key := Some "id"
|}.

(** The analytics classes differ in their name, pivot and granularity. *)
Definition analytics_class (name pivot granularity : string) : stream_class := {|
  cls_stream := {|
    tap_stream_id := name;
    replication_method := "INCREMENTAL";
    replication_keys := ["end_at"];
    path := "adAnalytics";
    data_key := "elements";
    parent := Some "campaigns";
    params := [ ("q", JStr "analytics"); ("pivot", JStr pivot);
                ("timeGranularity", JStr granularity); ("count", JNum 10000) ];
    headers := []
  |};
  cls_children := [];
  cls_foreign_key := Some "id"
|}.

(** [STREAMS] *)
Definition STREAMS : list (string * stream_class) :=
  [ ("accounts", Accounts);
    ("video_ads", StreamClass VideoAds [] (Some "id"));
    ("account_users", AccountUsers);
    ("campaign_groups", CampaignGroups);
    ("campaigns", Campaigns);
    ("creatives", Creatives);
    ("ad_analytics_by_campaign", StreamClass AdAnalyticsByCampaign [] (Some "id"));
    ("ad_analytics_by_creative",
     analytics_class "ad_analytics_by_creative" "CREATIVE" "DAILY");
    ("ad_analytics_by_member_company_size",
     analytics_class "ad_analytics_by_member_company_size" "MEMBER_COMPANY_SIZE" "MONTHLY");
    ("ad_analytics_by_member_industry",
     analytics_class "ad_analytics_by_member_industry" "MEMBER_INDUSTRY" "MONTHLY");
    ("ad_analytics_by_member_seniority",
     analytics_class "ad_analytics_by_member_seniority" "MEMBER_SENIORITY" "MONTHLY");
    ("ad_analytics_by_member_job_title",
     analytics_class "ad_analytics_by_member_job_title" "MEMBER_JOB_TITLE" "MONTHLY");
    ("ad_analytics_by_member_job_function",
     analytics_class "ad_analytics_by_member_job_function" "MEMBER_JOB_FUNCTION" "MONTHLY");
    ("ad_analytics_by_member_country_v2",
     analytics_class "ad_analytics_by_member_country_v2" "MEMBER_COUNTRY_V2" "MONTHLY");
    ("ad_analytics_by_member_region_v2",
     analytics_class "ad_analytics_by_member_region_v2" "MEMBER_REGION_V2" "MONTHLY");
    ("ad_analytics_by_member_company",
     analytics_class "ad_analytics_by_member_company" "MEMBER_COMPANY" "MONTHLY");
    ("ad_analytics_by_placement_name",
     analytics_class "ad_analytics_by_placement_name" "PLACEMENT_NAME" "MONTHLY") ].

(** [STREAMS[name]()] *)
Definition stream_object (name : string) : outcome stream_class :=
  match al_get name STREAMS with
  | Some cls => Return cls
  | None => Raise (KeyError name)
  end.

(** What a sync works on: the requests and records, the state object and
    the STATE messages written, the streams whose schema was written, and
    the [params] dictionary of each class that was changed (the dictionary
    is an attribute of the class: every object of the class reads and
    writes the same one). *)
Record engine := Engine {
  eng_world : world;
  eng_state : option tap_state;
  eng_states : list tap_state;
  eng_schemas : list string;
  eng_params : gmap string dict
}.

(** A step on the requests and records alone. *)
Definition on_world {A} (m : ST world A) : ST engine A := fun e =>
  let '(o, w) := m (eng_world e) in
  (o, Engine w (eng_state e) (eng_states e) (eng_schemas e) (eng_params e)).

(** A step on the state object and its messages alone. *)
Definition on_state {A} (m : ST (option tap_state * list tap_state) A) : ST engine A :=
  fun e =>
    let '(o, s) := m (eng_state e, eng_states e) in
    (o, Engine (eng_world e) (fst s) (snd s) (eng_schemas e) (eng_params e)).

(** [self.params] of an object of the class. *)
Definition class_params (cls : stream_class) (e : engine) : dict :=
  default (params (cls_stream cls)) (eng_params e !! tap_stream_id (cls_stream cls)).

(** The attributes of an object of the class, as they are now. *)
Definition instance (cls : stream_class) (e : engine) : stream :=
  let s := cls_stream cls in
  Stream (tap_stream_id s) (replication_method s) (replication_keys s) (path s)
         (data_key s) (parent s) (class_params cls e) (headers s).

(** [child_stream_params[key] = value] on the dictionary of the class. *)
Definition set_class_param (cls : stream_class) (key : string) (value : json)
  : ST engine unit :=
  modify (fun e =>
    Engine (eng_world e) (eng_state e) (eng_states e) (eng_schemas e)
           (<[tap_stream_id (cls_stream cls) := dict_set key value (class_params cls e)]>
              (eng_params e))).

(** [child_obj.write_schema(catalog)]; the catalog has the stream, and
    writing is taken to succeed. *)
Definition write_schema (cls : stream_class) : ST engine unit :=
  modify (fun e =>
    Engine (eng_world e) (eng_state e) (eng_states e)
           (eng_schemas e ++ [tap_stream_id (cls_stream cls)]) (eng_params e)).

(** The arguments of [sync_endpoint] other than [catalog] and [state]. *)
Record sync_args := SyncArgs {
  a_client : Client;
  a_page_size : json;
  a_start_date : json;
  a_selected_streams : list string;
  a_date_window_size : Z;
  a_parent_id : json;
  a_account_list : list json
}.

(** The keywords of a call, with the state object as it is now. *)
Definition kwargs (a : sync_args) (e : engine) : sync_kwargs :=
  SyncKwargs (a_client a) (eng_state e) (a_page_size a) (a_start_date a)
             (a_selected_streams a) (a_date_window_size a) (a_parent_id a)
             (a_account_list a).

(** The first loop over the children: schema and first bookmark of each
    selected child; the state of the loop is [child_max_bookmarks]. *)
Definition init_child (a : sync_args) (child_max_bookmarks : dict)
    (child_stream_name : string) : ST engine dict :=
  if bool_decide (child_stream_name ∈ a_selected_streams a) then
    child_obj <~ liftO (stream_object child_stream_name) ;;
    _ <~ write_schema child_obj ;;
    match replication_keys (cls_stream child_obj) with
    | [] => sret child_max_bookmarks
    | _ :: _ =>
        child <~ gets (instance child_obj) ;;
        state <~ gets eng_state ;;
        sret (dict_set child_stream_name (get_bookmark child state (a_start_date a))
                child_max_bookmarks)
    end
  else sret child_max_bookmarks.

(** [page_size] after [if self.tap_stream_id == "accounts": page_size = 1000]. *)
Definition effective_page_size (self : stream) (page_size : json) : json :=
  if bool_decide (tap_stream_id self ∈ CURSOR_BASED_PAGINATION_STREAMS)
     && bool_decide (tap_stream_id self = "accounts")
  then JNum 1000 else page_size.

(** [record.get(child_obj.foreign_key)] *)
Definition foreign_key_of (child_obj : stream_class) (record : json) : outcome json :=
  match cls_foreign_key child_obj with
  | Some key => py_get record key JNull
  | None => match record with
            | JObj _ => Return JNull
            | _ => Raise (AttributeError (py_type record))
            end
  end.

(** The filter parameters of the child, from the parent id. *)
Definition set_child_filter (self : stream) (child_obj : stream_class) (parent_id : json)
  : ST engine unit :=
  let child_stream_name := tap_stream_id (cls_stream child_obj) in
  if decide (tap_stream_id self = "accounts") then sret tt
  else if decide (tap_stream_id self = "campaigns") then
    if decide (child_stream_name = "creatives") then
      set_class_param child_obj "campaigns"
        (JStr ("List(urn%3Ali%3AsponsoredCampaign%3A" +:+ py_str parent_id +:+ ")"))
    else if bool_decide (child_stream_name ∈ ANALYTICS_STREAMS) then
      set_class_param child_obj "campaigns[0]"
        (JStr ("urn:li:sponsoredCampaign:" +:+ py_str parent_id))
    else sret tt
  else sret tt.

Section Children.

(** The catalog, as far as the sync of a child reads it: the selected
    fields of a stream in camel case; today's date; and the sync of a
    stream object by its own [sync_endpoint]. *)
Variable selected_of : string -> list string.
Variable today : date.
Variable fuel page_fuel : nat.
Variable child_sync : stream_class -> sync_args -> ST engine (nat * json).

(** The body of [for record in pre_singer_transformed_data] for one
    child; the state of the loop is [parent_id] and
    [child_max_bookmarks]. *)
Definition sync_child (self : stream) (a : sync_args) (acct_id : json)
    (child_obj : stream_class) (acc : json * dict) (record : json)
  : ST engine (json * dict) :=
  let child_stream_name := tap_stream_id (cls_stream child_obj) in
  parent_id <~ liftO (foreign_key_of child_obj record) ;;
  _ <~ set_child_filter self child_obj parent_id ;;
  result <~ (if bool_decide (child_stream_name ∈ ANALYTICS_STREAMS) then
               child <~ gets (instance child_obj) ;;
               state <~ gets eng_state ;;
               on_world (sync_ad_analytics fuel page_fuel child (a_client a)
                           (selected_of child_stream_name)
                           (get_bookmark child state (a_start_date a))
                           (a_date_window_size a) parent_id today)
             else
               child_sync child_obj
                 (SyncArgs (a_client a) (effective_page_size self (a_page_size a))
                           (a_start_date a) (a_selected_streams a)
                           (a_date_window_size a) parent_id [acct_id])) ;;
  child_batch_bookmark_dttm <~ liftO (liftR (strptime_to_utc (snd result))) ;;
  let child_max_bookmark := default JNull (dict_get child_stream_name (snd acc)) in
  child_max_bookmark_dttm <~ liftO (liftR (strptime_to_utc child_max_bookmark)) ;;
  sret (parent_id,
        if child_max_bookmark_dttm <? child_batch_bookmark_dttm
        then dict_set child_stream_name (JStr (strftime child_batch_bookmark_dttm)) (snd acc)
        else snd acc).

(** The body of [for child_stream_name in children] on one page. *)
Definition sync_children_of_page (self : stream) (a : sync_args) (acct_id : json)
    (pre_singer_transformed_data : json) (acc : json * dict) (child_stream_name : string)
  : ST engine (json * dict) :=
  if bool_decide (child_stream_name ∈ a_selected_streams a) then
    child_obj <~ liftO (stream_object child_stream_name) ;;
    records <~ liftO (py_iter pre_singer_transformed_data) ;;
    fold_st (sync_child self a acct_id child_obj) records acc
  else sret acc.

(** [while next_url: ...] for one entry of [urllist]; the state is
    [total_records], [max_bookmark_value], [parent_id] and
    [child_max_bookmarks]. *)
Fixpoint page_loop_with_children (n : nat) (self : stream) (children : list string)
    (a : sync_args) (bookmark_field : string) (last_datetime : json)
    (acct_id : json) (next_url : string) (acc : nat * json * (json * dict))
  : ST engine (nat * json * (json * dict)) :=
  match n with
  | O => out_of_fuel
  | S n' =>
      data <~ on_world (client_get (a_client a)
                          (Req next_url (tap_stream_id self) (Some (headers self)))) ;;
      has_data <~ liftO (py_contains (data_key self) data) ;;
      transformed_data <~ liftO (if has_data
                                 then transformed <- liftR (transform_json data (tap_stream_id self)) ;;
                                      py_getitem transformed (data_key self)
                                 else Return (JArr [])) ;;
      if py_truthy transformed_data then
        counted <~ (if bool_decide (tap_stream_id self ∈ a_selected_streams a) then
                      records <~ liftO (py_iter transformed_data) ;;
                      processed <~ on_world (process_records self records (Some bookmark_field)
                                               (snd (fst acc)) last_datetime (fst (snd acc))) ;;
                      sret ((fst (fst acc) + snd processed)%nat, fst processed)
                    else sret (fst acc)) ;;
        families <~ fold_st (sync_children_of_page self a acct_id transformed_data)
                      children (snd acc) ;;
        next <~ liftO (get_next_url (tap_stream_id self) next_url data) ;;
        match next with
        | Some url =>
            if decide (url = "") then sret (counted, families)
            else page_loop_with_children n' self children a bookmark_field last_datetime
                   acct_id url (counted, families)
        | None => sret (counted, families)
        end
      else sret acc
  end.

(** [LinkedInAds.sync_endpoint] of an object of the class [cls]. *)
Definition sync_endpoint_of_class (cls : stream_class) (a : sync_args)
  : ST engine (nat * json) :=
  self <~ gets (instance cls) ;;
  state <~ gets eng_state ;;
  let last_datetime := get_bookmark self state (a_start_date a) in
  bookmark_field <~ liftO (first_replication_key self) ;;
  child_max_bookmarks <~ fold_st (init_child a) (cls_children cls) [] ;;
  let querystring := query_string_of (endpoint_params self (a_page_size a)) in
  synced <~ fold_st (fun acc entry =>
                       page_loop_with_children fuel self (cls_children cls) a bookmark_field
                         last_datetime (fst entry) (snd entry) acc)
              (urllist self querystring (a_parent_id a) (a_account_list a))
              (O, last_datetime, (a_parent_id a, child_max_bookmarks)) ;;
  _ <~ for_each (snd (snd synced))
         (fun bookmark => on_state (write_bookmark (snd bookmark) (fst bookmark))) ;;
  sret (fst synced).

End Children.

(** The [sync_endpoint] that an object of the class answers to: the one
    of [LinkedInAds], inside the [try] of [VideoAds] for the video ads.
    [depth] bounds the nesting of children. *)
Fixpoint sync_stream (selected_of : string -> list string) (today : date)
    (depth fuel page_fuel : nat) (cls : stream_class) (a : sync_args)
  : ST engine (nat * json) :=
  match depth with
  | O => out_of_fuel
  | S depth' =>
      let base :=
        sync_endpoint_of_class selected_of today fuel page_fuel
          (sync_stream selected_of today depth' fuel page_fuel) cls a in
      if decide (tap_stream_id (cls_stream cls) = "video_ads") then
        try_except base
          (fun error =>
             if str_contains PERMISSION_DENIED (exn_str error)
             then state <~ gets eng_state ;;
                  child <~ gets (instance cls) ;;
                  sret (O, get_bookmark child state (a_start_date a))
             else sraise error)
      else base
  end.


(** The bookmark [v'] is [v] or parses to a later instant than [v]. *)
Definition same_or_later (v v' : json) : Prop :=
  v' = v ∨ ∃ d d', strptime_to_utc v = Ok d ∧ strptime_to_utc v' = Ok d' ∧ d < d'.

(** [child_max_bookmarks] keeps its streams, each with the same or a
    later bookmark, and stays a dictionary. *)
Definition not_before (child_max_bookmarks child_max_bookmarks' : dict) : Prop :=
  (NoDup child_max_bookmarks.*1 -> NoDup child_max_bookmarks'.*1)
  ∧ ∀ name v, dict_get name child_max_bookmarks = Some v ->
      ∃ v', dict_get name child_max_bookmarks' = Some v' ∧ same_or_later v v'.

(** From [e] to [e'] the state object, the STATE messages and the schemas
    are the same, and so are the parameters of every class but the
    [touched] ones. *)
Definition frame (touched : string -> Prop) (e e' : engine) : Prop :=
  eng_state e' = eng_state e ∧ eng_states e' = eng_states e
  ∧ eng_schemas e' = eng_schemas e
  ∧ ∀ k, ¬ touched k -> eng_params e' !! k = eng_params e !! k.
(** ** Sample inputs

    Stand-ins for the library functions, and the data of the examples that
    close the development. *)

(** A [repr] that hides the contents of containers. *)
Definition sample_repr (v : json) : string :=
  match v with
  | JArr _ => "[...]"
  | JObj _ => "{...}"
  | _ => ""
  end.

(** [unquote] on strings without percent escapes. *)
Definition sample_unquote (s : string) : string := s.

(** A template with a backslash is taken to be a bad escape. *)
Definition sample_re_sub (repl s : string) : result string :=
  Failed (Exn "re.error" "bad escape").

(** Three midnights around the new year of 2024, in microseconds. *)
Definition sample_instants : list (string * Z) :=
  [ ("2023-12-31T00:00:00Z", 738884 * MICROSECONDS_PER_DAY);
    ("2024-01-01T00:00:00Z", 738885 * MICROSECONDS_PER_DAY);
    ("2024-01-02T00:00:00Z", 738886 * MICROSECONDS_PER_DAY) ].

Definition sample_strptime (v : json) : result Z :=
  match v with
  | JStr s =>
      match al_get s sample_instants with
      | Some dt => Ok dt
      | None => Failed (ValueError "Unknown string format")
      end
  | _ => Failed (TypeError "Parser must be a string")
  end.

Definition sample_strftime (dt : Z) : string := string_of_Z dt.

(** A transformer that keeps a record as it is. *)
Definition sample_transform (stream_name : string) (record : json) : result dict :=
  match record with
  | JObj d => Ok d
  | _ => Failed (TypeError "record is not a dict")
  end.

Definition sample_transform_json (data : json) (stream_name : string) : result json := Ok data.

(** Records after, before and on the bookmark, and one without the field. *)
Definition sample_records : list dict :=
  [ [("id", JNum 1); ("last_modified_time", JStr "2024-01-02T00:00:00Z")];
    [("id", JNum 2); ("last_modified_time", JStr "2023-12-31T00:00:00Z")];
    [("id", JNum 3); ("last_modified_time", JStr "2024-01-01T00:00:00Z")];
    [("id", JNum 4)] ].

(** A client whose every page is empty. *)
Definition empty_pages : Client := fun _ _ => Ok (JObj [("elements", JArr [])]).

(** A client whose every request fails. *)
Definition failing : Client := fun _ _ => Failed (Exn "Exception" "HTTP-error-code: 429").

(** A client that answers every lookup with no result at all. *)
Definition no_entries : Client := fun _ _ => Ok (JObj [("results", JObj [])]).

(** The 200 URNs [prefix1 .. prefix200]. *)
Definition sample_urns (prefix : string) : gset string :=
  list_to_set ((fun i => prefix +:+ string_of_Z i) <$> seqZ 1 200).

Definition sample_name (code : string) : string := "name " +:+ code.

(** A client that answers its first request with the names of the first
    150 codes and fails afterwards. *)
Definition first_answered (kind : resolver_kind) (codes : gset string) : Client :=
  fun history _ =>
    match history with
    | [] => Ok (good_response kind (take 150 (elements codes))
                  (fun c => Some (sample_name c)))
    | _ => Failed (Exn "Exception" "HTTP-error-code: 500")
    end.

(** An analytics record of 2024-01-05 for the pivot value [urn]. *)
Definition sample_element (urn : string) (fields : dict) : json :=
  JObj ([ ("dateRange", JObj [("start", JObj [("year", JNum 2024); ("month", JNum 1);
                                               ("day", JNum 5)])]);
          ("pivotValues", JArr [JStr urn]) ] ++ fields).

Definition campaign11 : string := "urn:li:sponsoredCampaign:11".

Definition industry47 : string := "urn:li:industry:47".

(** A client that knows the industry 47. *)
Definition industries : Client := fun _ _ =>
  Ok (good_response IndustriesResolver ["47"] (fun _ => Some "Accounting")).

Definition token_page : json :=
  JObj [("metadata", JObj [("nextPageToken", JStr "DgGerr1iVQreCJVjZDOW")])].

Definition link_page (href : string) : json :=
  JObj [("paging",
         JObj [("links", JArr [JObj [("rel", JStr "prev"); ("href", JStr "/rest/x")];
                               JObj [("rel", JStr "next"); ("href", JStr href)]])])].

Definition denied_message : string :=
  "HTTP-error-code: 403, Error: Not enough permissions to access: partnerApiPostsExternal.FINDER-dscAdAccount.20230101".

(** A client without the permission for the posts API. *)
Definition denied : Client := fun _ _ =>
  Failed (Exn "LinkedInForbiddenError" denied_message).

Definition sample_kwargs : sync_kwargs := {|
  kw_client := denied;
  kw_state := Some (TapState (Some {[ "video_ads" := JStr "2024-01-01T00:00:00Z" ]}));
  kw_page_size := JNum 100;
  kw_start_date := JStr "2023-01-01T00:00:00Z";
  kw_selected_streams := ["video_ads"];
  kw_date_window_size := 30;
  kw_parent_id := JNum 1;
  kw_account_list := [JNum 1]
|}.

(** A record counter that never logs: the sync is over before the log
    interval has passed. *)
Definition never_logs : world -> bool := fun _ => false.

(** A record counter that logs once, at the second record written. *)
Definition logs_at_second : world -> bool := fun w =>
  bool_decide (length (sink w) = 2%nat).

(** A client whose every page holds one record and no link. *)
Definition one_record (record : json) : Client := fun _ _ =>
  Ok (JObj [("elements", JArr [record])]).

(** The keywords of a sync of a child of account 1. *)
Definition kwargs_of (client : Client) (selected : list string) : sync_kwargs := {|
  kw_client := client;
  kw_state := Some (TapState (Some {[ "video_ads" := JStr "2024-01-01T00:00:00Z" ]}));
  kw_page_size := JNum 100;
  kw_start_date := JStr "2023-01-01T00:00:00Z";
  kw_selected_streams := selected;
  kw_date_window_size := 30;
  kw_parent_id := JNum 1;
  kw_account_list := [JNum 1]
|}.

(** A list of functions that holds the function 1 and another one. *)
Definition two_functions : Client := fun _ _ =>
  Ok (JObj [("elements",
             JArr [JObj [("id", JNum 1);
                         ("name", JObj [("localized", JObj [("en_US", JStr "Accounting")])])];
                   JObj [("id", JNum 99);
                         ("name", JObj [("localized", JObj [("en_US", JStr "Other")])])]])]).


(** The timestamp of a sample instant. *)
Definition sample_isoformat (dt : Z) : string :=
  default "" (fst <$> list_find (fun entry => bool_decide (snd entry = dt)) sample_instants
              ≫= fun found => Some (snd found)).

(** A client that knows two campaigns; each has the creative 5 and one
    day of analytics. *)
Definition by_endpoint : Client := fun _ r =>
  if decide (req_endpoint r = "campaigns") then
    Ok (JObj [("elements", JArr [JObj [("id", JNum 11)]; JObj [("id", JNum 12)]])])
  else if decide (req_endpoint r = "creatives") then
    Ok (JObj [("elements",
               JArr [JObj [("id", JNum 5);
                           ("last_modified_at", JStr "2024-01-02T00:00:00Z")]])])
  else if decide (req_endpoint r = "ad_analytics_by_campaign") then
    Ok (JObj [("elements", JArr [sample_element campaign11 [("clicks", JNum 3)]])])
  else Failed (Exn "Exception" "404").

(** The arguments of a sync of the account 1 from the new year of 2024. *)
Definition sample_args (client : Client) (selected : list string) : sync_args :=
  SyncArgs client (JNum 100) (JStr "2024-01-01T00:00:00Z") selected 30 JNull [JNum 1].

(** Before the first request, with a state that holds no bookmark. *)
Definition fresh : engine := Engine (World [] []) (Some (TapState None)) [] [] ∅.
(** * Properties *)

(** Drops the library functions the goal does not speak of. *)
Ltac forget_externals :=
  try clear py_repr; try clear unquote; try clear re_sub_escaped;
  try clear strftime; try clear transform_json; try clear transform;
  try clear strptime_to_utc; try clear ready_to_log.

(** ** Dictionaries *)

Lemma al_get_set {K V} `{EqDecision K} (k k' : K) (v : V) (d : list (K * V)) :
  al_get k (al_set k' v d) = if decide (k = k') then Some v else al_get k d.
Proof.
  induction d as [|[k0 v0] d IH]; simpl.
  - destruct (decide (k = k')); reflexivity.
  - destruct (decide (k' = k0)) as [->|Hne]; simpl.
    + destruct (decide (k = k0)); reflexivity.
    + destruct (decide (k = k0)) as [->|Hne'].
      * destruct (decide (k0 = k')); [congruence|reflexivity].
      * exact IH.
Qed.

Lemma dict_get_set (k k' : string) (v : json) (d : dict) :
  dict_get k (dict_set k' v d) = if decide (k = k') then Some v else dict_get k d.
Proof. apply al_get_set. Qed.

Lemma dict_get_set_eq (k : string) (v : json) (d : dict) :
  dict_get k (dict_set k v d) = Some v.
Proof. rewrite dict_get_set. destruct (decide (k = k)); congruence. Qed.

Lemma dict_get_set_ne (k k' : string) (v : json) (d : dict) :
  k ≠ k' -> dict_get k (dict_set k' v d) = dict_get k d.
Proof. intros Hne. rewrite dict_get_set. destruct (decide (k = k')); congruence. Qed.

Lemma dict_get_cons (k k0 : string) (v0 : json) (d : dict) :
  dict_get k ((k0, v0) :: d) = if decide (k = k0) then Some v0 else dict_get k d.
Proof. reflexivity. Qed.

Lemma dict_get_None_keys (k : string) (d : dict) :
  k ∉ d.*1 -> dict_get k d = None.
Proof.
  induction d as [|[k0 v0] d IH]; [reflexivity|].
  rewrite fmap_cons, dict_get_cons. intros Hnot.
  destruct (decide (k = k0)) as [->|Hne].
  - exfalso. apply Hnot. left.
  - apply IH. intros Hin. apply Hnot. by right.
Qed.

Lemma dict_update_cons (d e : dict) (k0 : string) (v0 : json) :
  dict_update d ((k0, v0) :: e) = dict_update (dict_set k0 v0 d) e.
Proof. reflexivity. Qed.

(** [d.update(e)]: the fields of [e] win, the other fields of [d] stay. *)
Lemma dict_get_update (k : string) (d e : dict) :
  NoDup e.*1 ->
  dict_get k (dict_update d e) =
    match dict_get k e with
    | Some v => Some v
    | None => dict_get k d
    end.
Proof.
  revert d.
  induction e as [|[k0 v0] e IH]; intros d Hnd; [reflexivity|].
  rewrite fmap_cons in Hnd. apply NoDup_cons in Hnd as [Hk0 Hnd].
  rewrite dict_update_cons, IH, dict_get_cons by exact Hnd.
  destruct (decide (k = k0)) as [->|Hne].
  - rewrite (dict_get_None_keys k0 e Hk0). apply dict_get_set_eq.
  - destruct (dict_get k e); [reflexivity|]. by apply dict_get_set_ne.
Qed.

Lemma al_get_None {K V} `{EqDecision K} (k : K) (d : list (K * V)) :
  al_get k d = None ↔ k ∉ d.*1.
Proof.
  induction d as [|[k0 v0] d IH]; cbn [al_get].
  - split; [intros _; apply not_elem_of_nil|done].
  - rewrite fmap_cons, not_elem_of_cons. cbn [fst].
    destruct (decide (k = k0)) as [->|Hne]; [split; [done|tauto]|].
    rewrite IH. tauto.
Qed.

Lemma al_get_Some_keys {K V} `{EqDecision K} (k : K) (v : V) (d : list (K * V)) :
  al_get k d = Some v -> k ∈ d.*1.
Proof.
  intros Hget. destruct (decide (k ∈ d.*1)) as [|Hnot]; [done|].
  apply al_get_None in Hnot. congruence.
Qed.

Lemma al_set_keys {K V} `{EqDecision K} (k : K) (v : V) (d : list (K * V)) :
  (al_set k v d).*1 = if decide (k ∈ d.*1) then d.*1 else d.*1 ++ [k].
Proof.
  induction d as [|[k0 v0] d IH]; cbn [al_set].
  - destruct (decide (k ∈ [])) as [Hin|]; [by apply elem_of_nil in Hin|done].
  - rewrite !fmap_cons. cbn [fst].
    destruct (decide (k = k0)) as [->|Hne].
    + rewrite decide_True by left. done.
    + rewrite fmap_cons, IH. cbn [fst].
      destruct (decide (k ∈ d.*1)) as [Hin|Hnin].
      * rewrite decide_True by (by right). done.
      * rewrite decide_False; [done|]. rewrite elem_of_cons. tauto.
Qed.

Lemma al_set_NoDup {K V} `{EqDecision K} (k : K) (v : V) (d : list (K * V)) :
  NoDup d.*1 -> NoDup (al_set k v d).*1.
Proof.
  intros Hnd. rewrite al_set_keys. destruct (decide (k ∈ d.*1)); [done|].
  apply NoDup_app. split; [done|]. split; [|apply NoDup_singleton].
  intros x Hx Hx'. apply list_elem_of_singleton in Hx'. by subst.
Qed.

Lemma al_set_elem_of_keys {K V} `{EqDecision K} (k k' : K) (v : V) (d : list (K * V)) :
  k ∈ (al_set k' v d).*1 ↔ k = k' ∨ k ∈ d.*1.
Proof.
  rewrite al_set_keys. destruct (decide (k' ∈ d.*1)) as [Hin|Hnin].
  - split; [tauto|]. intros [->|]; done.
  - rewrite elem_of_app, list_elem_of_singleton. tauto.
Qed.

(** ** Calendar *)

Lemma month_day_table :
  (forallb (fun i => month_day_ok false (Z.of_nat i)) (seq 0 365)
   && forallb (fun i => month_day_ok true (Z.of_nat i)) (seq 0 366))%bool = true.
Proof. vm_compute. reflexivity. Qed.

Lemma month_day_spec (leap : bool) (n : Z) :
  0 <= n < 365 + (if leap then 1 else 0) ->
  month_day_ok leap n = true.
Proof.
  intros Hn.
  pose proof month_day_table as H. apply andb_prop in H as [H0 H1].
  rewrite forallb_forall in H0, H1.
  rewrite <- (Z2Nat.id n) by lia.
  destruct leap.
  - apply H1. apply in_seq. lia.
  - apply H0. apply in_seq. lia.
Qed.

Lemma DAYS_IN_MONTH_le (m : Z) : _DAYS_IN_MONTH m <= 31.
Proof.
  destruct m as [|p|p]; simpl; try lia.
  do 5 (try destruct p as [p|p|]); simpl; lia.
Qed.

(** The year, month and day of a date are a valid date, the same one. *)
Lemma ord2ymd_roundtrip (n : Z) :
  date_valid n ->
  1 <= date_year n <= 9999
  ∧ 1 <= date_month n <= 12
  ∧ 1 <= date_day n <= _days_in_month (date_year n) (date_month n)
  ∧ _ymd2ord (date_year n) (date_month n) (date_day n) = n.
Proof.
  forget_externals.
  unfold date_valid, date_year, date_month, date_day. intros Hn. unfold _ord2ymd.
  set (n0 := n - 1).
  set (a := n0 / _DI400Y). set (r1 := n0 mod _DI400Y).
  set (b := r1 / _DI100Y). set (r2 := r1 mod _DI100Y).
  set (c := r2 / _DI4Y). set (r3 := r2 mod _DI4Y).
  set (d := r3 / 365). set (r4 := r3 mod 365).
  assert (Ha : n0 = _DI400Y * a + r1 ∧ 0 <= r1 < _DI400Y).
  { split; [apply Z.div_mod; discriminate | apply Z.mod_pos_bound; reflexivity]. }
  assert (Hb : r1 = _DI100Y * b + r2 ∧ 0 <= r2 < _DI100Y).
  { split; [apply Z.div_mod; discriminate | apply Z.mod_pos_bound; reflexivity]. }
  assert (Hc : r2 = _DI4Y * c + r3 ∧ 0 <= r3 < _DI4Y).
  { split; [apply Z.div_mod; discriminate | apply Z.mod_pos_bound; reflexivity]. }
  assert (Hd : r3 = 365 * d + r4 ∧ 0 <= r4 < 365).
  { split; [apply Z.div_mod; discriminate | apply Z.mod_pos_bound; reflexivity]. }
  assert (Hn0 : n0 = n - 1) by reflexivity.
  unfold _DI400Y, _DI100Y, _DI4Y, _MAXORDINAL in Ha, Hb, Hc, Hd, Hn.
  clearbody a r1 b r2 c r3 d r4 n0.
  assert (Hbounds : 0 <= a <= 24 ∧ 0 <= b <= 4 ∧ 0 <= c <= 24 ∧ 0 <= d <= 4) by lia.
  destruct ((d =? 4) || (b =? 4)) eqn:Hlast; cbn [fst snd].
  - (* the last day of a leap year *)
    assert (Hlast' : d = 4 ∨ b = 4).
    { apply orb_prop in Hlast as [H4|H4]; apply Z.eqb_eq in H4; auto. }
    assert (Hr4 : r4 = 0) by lia.
    replace (a * 400 + 1 + (b * 100 + c * 4 + d) - 1)
      with (400 * a + 100 * b + 4 * c + d) by lia.
    set (y := 400 * a + 100 * b + 4 * c + d).
    assert (Hleap : _is_leap y = true).
    { unfold _is_leap.
      destruct (Z.eqb_spec (y mod 4) 0), (Z.eqb_spec (y mod 100) 0),
        (Z.eqb_spec (y mod 400) 0); simpl; try reflexivity; exfalso;
        subst y; Z.div_mod_to_equations; lia. }
    unfold _ymd2ord, _days_in_month, _days_before_month, _days_before_year.
    rewrite Hleap. cbn [_DAYS_IN_MONTH _DAYS_BEFORE_MONTH Z.eqb Z.ltb Z.compare
                        Pos.compare Pos.compare_cont Pos.eqb andb].
    repeat split; try lia; unfold y; try lia.
    Z.div_mod_to_equations. lia.
  - apply orb_false_elim in Hlast as [Hd4 Hb4].
    apply Z.eqb_neq in Hd4, Hb4.
    set (leap := (d =? 3) && (negb (c =? 24) || (b =? 3))).
    replace (a * 400 + 1 + (b * 100 + c * 4 + d))
      with (400 * a + 100 * b + 4 * c + d + 1) by lia.
    set (y := 400 * a + 100 * b + 4 * c + d + 1).
    assert (Hleap : _is_leap y = leap).
    { unfold _is_leap, leap.
      destruct (Z.eqb_spec (y mod 4) 0), (Z.eqb_spec (y mod 100) 0),
        (Z.eqb_spec (y mod 400) 0), (Z.eqb_spec d 3), (Z.eqb_spec c 24),
        (Z.eqb_spec b 3); simpl; try reflexivity; exfalso;
        subst y; Z.div_mod_to_equations; lia. }
    assert (Hr4 : 0 <= r4 < 365 + (if leap then 1 else 0)).
    { destruct leap; lia. }
    pose proof (month_day_spec leap r4 Hr4) as Hmd.
    unfold month_day_ok in Hmd.
    destruct (month_day leap r4) as [m dd]. cbn [fst snd].
    repeat (apply andb_prop in Hmd as [Hmd ?]).
    unfold _ymd2ord, _days_in_month, _days_before_month. rewrite Hleap.
    assert (Hdby : _days_before_year y = n0 - r4).
    { unfold _days_before_year, y. Z.div_mod_to_equations. lia. }
    rewrite Hdby.
    repeat split; try lia.
    all: unfold y; lia.
Qed.

(** [datetime.date] built from the year, month and day of a date. *)
Lemma date_new_of_date (d : date) :
  date_valid d ->
  date_new (JNum (date_year d)) (JNum (date_month d)) (JNum (date_day d)) = Return d.
Proof.
  intros Hd. destruct (ord2ymd_roundtrip d Hd) as (Hy & Hm & Hday & Hord).
  assert (Hdim : _days_in_month (date_year d) (date_month d) <= 31).
  { unfold _days_in_month.
    destruct ((date_month d =? 2) && _is_leap (date_year d)); [lia|].
    apply DAYS_IN_MONTH_le. }
  unfold date_new, c_int, py_index; simpl.
  repeat match goal with
  | |- context [?a <=? ?b] =>
      match b with
      | 2147483647 => replace (a <=? b) with true by (symmetry; apply Z.leb_le; lia)
      end
  | |- context [-2147483648 <=? ?b] =>
      replace (-2147483648 <=? b) with true by (symmetry; apply Z.leb_le; lia)
  end.
  simpl.
  replace (1 <=? date_year d) with true by (symmetry; apply Z.leb_le; lia).
  replace (date_year d <=? 9999) with true by (symmetry; apply Z.leb_le; lia).
  replace (1 <=? date_month d) with true by (symmetry; apply Z.leb_le; lia).
  replace (date_month d <=? 12) with true by (symmetry; apply Z.leb_le; lia).
  replace (1 <=? date_day d) with true by (symmetry; apply Z.leb_le; lia).
  replace (date_day d <=? _days_in_month (date_year d) (date_month d)) with true
    by (symmetry; apply Z.leb_le; lia).
  simpl. by rewrite Hord.
Qed.

(** ** Date windows *)

Ltac dict_get_set :=
  repeat first
    [ rewrite dict_get_set_eq
    | rewrite dict_get_set_ne by (intros ?; congruence) ].

Lemma with_date_range_window (params : dict) (start end_ : date) :
  params_window (with_date_range params start end_) start end_.
Proof.
  unfold params_window, with_date_range.
  repeat rewrite dict_update_cons. change (dict_update ?d []) with d.
  repeat split; dict_get_set; reflexivity.
Qed.

(** What [shift_sync_window] returns when the end of the window in
    [params] is the date [end_] and the shifted date is representable. *)
Lemma shift_sync_window_eq (params : dict) (end_ today : date)
    (date_window_size : Z) (forced_window_size : option Z) (size : Z) :
  dict_get "dateRange.end.day" params = Some (JNum (date_day end_)) ->
  dict_get "dateRange.end.month" params = Some (JNum (date_month end_)) ->
  dict_get "dateRange.end.year" params = Some (JNum (date_year end_)) ->
  date_valid end_ ->
  size = match forced_window_size with
         | Some forced => if forced =? 0 then date_window_size else forced
         | None => date_window_size
         end ->
  0 <= size -> end_ + size <= _MAXORDINAL ->
  shift_sync_window params today date_window_size forced_window_size
  = Return (end_, Z.min today (end_ + size),
            with_date_range params end_ (Z.min today (end_ + size))).
Proof.
  intros Hday Hmonth Hyear Hvalid Hsize Hpos Hmax.
  unfold shift_sync_window, py_getitem.
  rewrite Hyear, Hmonth, Hday. cbn [obind].
  rewrite (date_new_of_date end_ Hvalid). cbn [obind].
  rewrite <- Hsize.
  unfold date_valid, _MAXORDINAL in *.
  unfold timedelta_days.
  replace (Z.abs size <=? 999999999) with true by (symmetry; apply Z.leb_le; lia).
  cbn [obind]. unfold date_add, _MAXORDINAL.
  replace (0 <? end_ + size) with true by (symmetry; apply Z.ltb_lt; lia).
  replace (end_ + size <=? 3652059) with true by (symmetry; apply Z.leb_le; lia).
  reflexivity.
Qed.

(** ** Sequencing *)

Lemma sbind_Return {S A B} (m : ST S A) (k : A -> ST S B) (s s' : S) (b : B) :
  sbind m k s = (Return b, s') ->
  ∃ a s1, m s = (Return a, s1) ∧ k a s1 = (Return b, s').
Proof.
  unfold sbind. destruct (m s) as [[a|e|] s1]; intros H; try discriminate.
  by exists a, s1.
Qed.

Lemma sbind_ext {S A B} (m : ST S A) (k k' : A -> ST S B) (s : S) :
  (∀ a s1, m s = (Return a, s1) -> k a s1 = k' a s1) ->
  sbind m k s = sbind m k' s.
Proof.
  intros H. unfold sbind. destruct (m s) as [[a|e|] s1]; try reflexivity.
  by apply H.
Qed.

Lemma sbind_liftO_Return {S A B} (a : A) (k : A -> ST S B) (s : S) :
  sbind (liftO (Return a)) k s = k a s.
Proof. reflexivity. Qed.

(** The chunk loop writes only the [fields] entry of [static_params]. *)
Lemma fetch_chunks_params (page_fuel : nat) (client : Client) (self : stream)
    (chunks : list (list string)) (acc r : dict * option dict * list json) (w w' : world)
    (k : string) :
  fold_st (fetch_chunk page_fuel client self) chunks acc w = (Return r, w') ->
  k ≠ "fields" ->
  dict_get k (fst (fst r)) = dict_get k (fst (fst acc)).
Proof.
  intros Hrun Hk. revert acc w Hrun.
  induction chunks as [|chunk chunks IH]; intros acc w Hrun.
  - by injection Hrun as <- _.
  - cbn [fold_st] in Hrun.
    apply sbind_Return in Hrun as (acc1 & w1 & Hchunk & Hrest).
    rewrite (IH _ _ Hrest).
    unfold fetch_chunk in Hchunk.
    apply sbind_Return in Hchunk as (responses & w2 & _ & Heq).
    injection Heq as <- _. cbn [fst snd].
    by apply dict_get_set_ne.
Qed.

Lemma sync_window_params (page_fuel : nat) (client : Client) (self : stream)
    (chunks : list (list string)) (bookmark_field : string)
    (last_datetime : json) (last_datetime_dt : Z) (parent_id : json)
    (static_params : dict) (total_records : nat) (max_bookmark_value : json)
    (r : dict * nat * json) (w w' : world) (k : string) :
  sync_window page_fuel client self chunks bookmark_field last_datetime last_datetime_dt
    parent_id static_params total_records max_bookmark_value w = (Return r, w') ->
  k ≠ "fields" ->
  dict_get k (fst (fst r)) = dict_get k static_params.
Proof.
  intros Hrun Hk. unfold sync_window in Hrun.
  apply sbind_Return in Hrun as (fetched & w1 & Hfetch & Hrun).
  pose proof (fetch_chunks_params _ _ _ _ _ _ _ _ k Hfetch Hk) as Hkeep.
  cbn [fst snd] in Hkeep. rewrite <- Hkeep.
  apply sbind_Return in Hrun as (params' & w2 & _ & Hrun).
  apply sbind_Return in Hrun as (raw & w3 & _ & Hrun).
  apply sbind_Return in Hrun as (transformed & w4 & _ & Hrun).
  apply sbind_Return in Hrun as (data & w5 & _ & Hrun).
  destruct (py_truthy data).
  - apply sbind_Return in Hrun as (records & w6 & _ & Hrun).
    apply sbind_Return in Hrun as (processed & w7 & _ & Hrun).
    by injection Hrun as <- _.
  - by injection Hrun as <- _.
Qed.

(** ** Record filter and emission *)

Lemma track_max_ok (max_bookmark_value value : json) :
  max_bookmark_value = JNull ∨ is_Ok (strptime_to_utc max_bookmark_value) ->
  is_Ok (strptime_to_utc value) ->
  ∃ new_max, track_max max_bookmark_value value = Return new_max
             ∧ is_Ok (strptime_to_utc new_max).
Proof.
  intros Hmax [new Hnew]. unfold track_max.
  destruct Hmax as [->|[old Hold]]; [exists value; split; [done|by exists new]|].
  destruct max_bookmark_value; try (rewrite Hnew, Hold; cbn [liftR obind];
    destruct (old <? new); eexists; (split; [reflexivity|]); by eexists).
  exists value. split; [done|by exists new].
Qed.

Lemma process_record_emits (self : stream) (bookmark_field : option string)
    (last_datetime parent_id max_bookmark_value : json) (count : nat)
    (record : json) (transformed_record : dict) (w : world) :
  prepare_record self parent_id record = Return transformed_record ->
  (∀ value, bookmark_of bookmark_field transformed_record = Some value ->
            is_Ok (strptime_to_utc value)) ->
  is_Ok (strptime_to_utc last_datetime) ->
  max_bookmark_value = JNull ∨ is_Ok (strptime_to_utc max_bookmark_value) ->
  let written := emitted (bool_decide (replication_method self = "FULL_TABLE"))
                         (bookmark_of bookmark_field transformed_record) last_datetime in
  let w' := World (requests w)
              (sink w ++ (if written then [(tap_stream_id self, transformed_record)]
                          else [])) in
  ∃ new_max,
    (new_max = JNull ∨ is_Ok (strptime_to_utc new_max))
    ∧ process_record self bookmark_field last_datetime parent_id
        (max_bookmark_value, count) record w
      = (Return (new_max, if written then (if ready_to_log w' then O else S count)
                          else count), w').
Proof.
  intros Hprep Hvalue [last Hlast] Hmax written w'. subst w'.
  unfold process_record. rewrite Hprep, sbind_liftO_Return.
  unfold written, emitted.
  destruct (decide (replication_method self = "FULL_TABLE")) as [Hfull|Hinc].
  - rewrite bool_decide_eq_true_2 by done. cbn [orb].
    unfold sbind at 1. unfold write_record, modify. cbn [fst snd].
    unfold sbind at 1. unfold increment, gets.
    destruct (bookmark_of bookmark_field transformed_record) as [value|] eqn:Hb.
    + destruct (track_max_ok max_bookmark_value value Hmax (Hvalue value eq_refl))
        as (new_max & Htrack & Hok).
      exists new_max. split; [by right|].
      by rewrite Htrack, sbind_liftO_Return.
    + exists max_bookmark_value. by split.
  - rewrite bool_decide_eq_false_2 by done. cbn [orb fst snd].
    destruct (bookmark_of bookmark_field transformed_record) as [value|] eqn:Hb.
    + destruct (track_max_ok max_bookmark_value value Hmax (Hvalue value eq_refl))
        as (new_max & Htrack & Hok).
      destruct (Hvalue value eq_refl) as [bookmark Hbookmark].
      exists new_max. split; [by right|].
      rewrite Htrack, sbind_liftO_Return, Hlast. cbn [liftR].
      rewrite sbind_liftO_Return, Hbookmark. cbn [liftR].
      rewrite sbind_liftO_Return.
      unfold instant. rewrite Hlast, Hbookmark.
      destruct (last <=? bookmark).
      * reflexivity.
      * unfold sret. rewrite app_nil_r. by destruct w.
    + exists max_bookmark_value. by split.
Qed.

(** ** Response merger *)

Lemma fold_outcome_app {A S} (f : S -> A -> outcome S) (xs ys : list A) (acc : S) :
  fold_outcome f (xs ++ ys) acc = (acc' <- fold_outcome f xs acc ;; fold_outcome f ys acc').
Proof.
  revert acc. induction xs as [|x xs IH]; intros acc; [reflexivity|].
  cbn [app fold_outcome]. destruct (f acc x); cbn [obind]; [apply IH|done|done].
Qed.

(** The loop over the pages is the loop over all their records. *)
Lemma fold_pages_concat {S} (f : S -> json -> outcome S) (data : list json)
    (pages : list (list json)) (acc : S) :
  Forall2 (fun page elements => py_iter page = Return elements) data pages ->
  fold_outcome (fun st page => elements <- py_iter page ;; fold_outcome f elements st) data acc
  = fold_outcome f (concat pages) acc.
Proof.
  intros Hpages. revert acc.
  induction Hpages as [|page elements data pages Hpage _ IH]; intros acc; [reflexivity|].
  cbn [fold_outcome concat]. rewrite Hpage, fold_outcome_app. cbn [obind].
  destruct (fold_outcome f elements acc); cbn [obind]; [apply IH|done|done].
Qed.

Ltac obind_in H :=
  repeat match type of H with
  | obind ?m _ = Return _ =>
      let E := fresh "E" in
      destruct m eqn:E; cbn [obind] in H; [|discriminate H|discriminate H]
  end.

Ltac obind_rewrite :=
  repeat match goal with
  | E : ?m = Return _ |- context [obind ?m _] => rewrite E; cbn [obind]
  end.

(** One record enters [full_records] under its composite key: it is
    stored, or it updates the record already there. *)
Lemma merge_element_eq (pivot : json) (resolving : bool) (st : merge_state)
    (element : json) (K : primary_key) (fields : dict) :
  composite_key element = Return K ->
  decorated pivot element = Return fields ->
  merge_element pivot resolving st element
  = Return (al_set K (match al_get K (fst st) with
                      | Some existing => dict_update existing fields
                      | None => fields
                      end) (fst st),
            if resolving then {[ fst K ]} ∪ snd st else snd st).
Proof.
  forget_externals.
  intros Hkey Hdec. unfold composite_key in Hkey. unfold decorated in Hdec.
  unfold merge_element.
  destruct element as [| | | | |d]; try discriminate Hkey.
  obind_in Hkey. obind_in Hdec. simplify_eq.
  match goal with
  | E1 : py_first ?v = Return ?x, E2 : py_first ?v = Return ?y |- _ =>
      assert (x = y) by congruence; subst x
  end.
  cbn [py_setitem obind].
  obind_rewrite.
  destruct resolving; cbn [obind fst snd]; obind_rewrite;
    by destruct (al_get _ (fst st)).
Qed.

Lemma merge_elements_eq (pivot : json) (resolving : bool) (raw : list json)
    (es : list (primary_key * dict)) (st : merge_state) :
  Forall2 (fun element kd => composite_key element = Return (fst kd)
                             ∧ decorated pivot element = Return (snd kd)) raw es ->
  fold_outcome (merge_element pivot resolving) raw st
  = Return (merge_spec es (fst st),
            if resolving then list_to_set (fst ∘ fst <$> es) ∪ snd st else snd st).
Proof.
  forget_externals.
  intros Hes. revert st.
  induction Hes as [|element [K fields] raw es [Hkey Hdec] _ IH]; intros st.
  - cbn. destruct resolving; [|by destruct st].
    destruct st as [fr urns]. cbn. f_equal. f_equal. set_solver.
  - cbn [fold_outcome]. rewrite (merge_element_eq _ _ _ _ K fields Hkey Hdec).
    cbn [obind]. rewrite IH. cbn [fst snd merge_spec fold_left fmap list_fmap].
    f_equal. f_equal. destruct resolving; [|done].
    cbn [list_to_set compose fst]. set_solver.
Qed.

Lemma merge_spec_cons (K : primary_key) (fields : dict) (es fr : list (primary_key * dict)) :
  merge_spec ((K, fields) :: es) fr
  = merge_spec es (al_set K (match al_get K fr with
                            | Some existing => dict_update existing fields
                            | None => fields
                            end) fr).
Proof. reflexivity. Qed.

(** Union on disjoint fields, the later record on shared fields. *)
Lemma merge_spec_field (f : string) (K : primary_key) (es fr : list (primary_key * dict)) :
  Forall (fun kd => NoDup (snd kd).*1) es ->
  field_at f K (merge_spec es fr)
  = match latest_value f K es with
    | Some v => Some v
    | None => field_at f K fr
    end.
Proof.
  forget_externals.
  intros Hnd. revert fr.
  induction Hnd as [|[K0 fields] es Hfields _ IH]; intros fr; [reflexivity|].
  rewrite merge_spec_cons, IH. cbn [latest_value].
  destruct (latest_value f K es); [reflexivity|].
  unfold field_at. rewrite al_get_set.
  destruct (decide (K = K0)) as [->|Hne].
  - rewrite decide_True by done.
    destruct (al_get K0 fr) as [existing|]; [|by destruct (dict_get f fields)].
    apply dict_get_update, Hfields.
  - rewrite decide_False by done. reflexivity.
Qed.

Lemma merge_spec_keys (K : primary_key) (es fr : list (primary_key * dict)) :
  K ∈ (merge_spec es fr).*1 ↔ K ∈ es.*1 ∨ K ∈ fr.*1.
Proof.
  forget_externals.
  revert fr. induction es as [|[K0 fields] es IH]; intros fr.
  - cbn. rewrite elem_of_nil. tauto.
  - rewrite merge_spec_cons, IH, al_set_elem_of_keys, fmap_cons, elem_of_cons. cbn. tauto.
Qed.

Lemma merge_spec_NoDup (es fr : list (primary_key * dict)) :
  NoDup fr.*1 -> NoDup (merge_spec es fr).*1.
Proof.
  forget_externals.
  revert fr. induction es as [|[K0 fields] es IH]; intros fr Hnd; [done|].
  rewrite merge_spec_cons. by apply IH, al_set_NoDup.
Qed.

(** [pivot] and [pivot_value] of a record, and its first pivot value. *)
Lemma decorated_fields (pivot element : json) (K : primary_key) (fields : dict) :
  composite_key element = Return K ->
  decorated pivot element = Return fields ->
  pivot_fields pivot K fields.
Proof.
  forget_externals.
  unfold decorated, composite_key. intros Hkey Hdec.
  destruct element as [| | | | |d]; try discriminate Hdec.
  obind_in Hkey. obind_in Hdec. simplify_eq.
  match goal with
  | E1 : py_first ?v = Return ?x, E2 : py_first ?v = Return ?y |- _ =>
      assert (x = y) by congruence; subst x
  end.
  match goal with
  | E : py_getitem (JObj d) "pivotValues" = Return ?pvs,
    E' : py_first ?pvs = Return ?pv |- _ =>
      exists pvs, pv; unfold py_getitem in E;
      destruct (dict_get "pivotValues" d) as [pvs'|] eqn:Hpvs; [|discriminate E];
      injection E as ->
  end.
  dict_get_set. done.
Qed.

Lemma decorated_NoDup (pivot element : json) (fields : dict) :
  decorated pivot element = Return fields ->
  (∀ d, element = JObj d -> NoDup d.*1) ->
  NoDup fields.*1.
Proof.
  forget_externals.
  unfold decorated. intros Hdec Hnd.
  destruct element as [| | | | |d]; try discriminate Hdec.
  obind_in Hdec. injection Hdec as <-.
  unfold dict_set. apply al_set_NoDup, al_set_NoDup, Hnd. reflexivity.
Qed.

(** ** Identifier resolver: it never raises *)

Lemma obind_no_timeout {A B} (m : outcome A) (k : A -> outcome B) :
  m ≠ Timeout -> (∀ a, k a ≠ Timeout) -> obind m k ≠ Timeout.
Proof. intros Hm Hk. destruct m; cbn; [apply Hk|done|done]. Qed.

Lemma py_get_no_timeout (x : json) (k : string) (dflt : json) : py_get x k dflt ≠ Timeout.
Proof. by destruct x. Qed.

Lemma py_getitem_no_timeout (x : json) (k : string) : py_getitem x k ≠ Timeout.
Proof. destruct x; cbn; try done. by destruct (dict_get k d). Qed.

Lemma py_contains_no_timeout (k : string) (x : json) : py_contains k x ≠ Timeout.
Proof. by destruct x. Qed.

Lemma py_iter_no_timeout (x : json) : py_iter x ≠ Timeout.
Proof. by destruct x. Qed.

Lemma results_items_no_timeout (response : json) : results_items response ≠ Timeout.
Proof.
  unfold results_items. apply obind_no_timeout; [apply py_getitem_no_timeout|].
  by intros [].
Qed.

Lemma name_localized_en_US_no_timeout (x dflt : json) :
  name_localized_en_US x dflt ≠ Timeout.
Proof.
  unfold name_localized_en_US.
  repeat (apply obind_no_timeout; [apply py_get_no_timeout|intros ?]).
  apply py_get_no_timeout.
Qed.

Lemma titles_name_no_timeout (code : string) (result : json) :
  titles_name code result ≠ Timeout.
Proof.
  unfold titles_name.
  apply obind_no_timeout; [apply name_localized_en_US_no_timeout|intros localized].
  destruct (py_truthy localized); [done|].
  repeat (apply obind_no_timeout; [apply py_get_no_timeout|intros ?]). done.
Qed.

Lemma geo_name_no_timeout (code : string) (result : json) :
  geo_name code result ≠ Timeout.
Proof.
  unfold geo_name.
  apply obind_no_timeout; [apply py_get_no_timeout|intros ?]. apply py_get_no_timeout.
Qed.

Lemma organizations_name_no_timeout (code : string) (result : json) :
  organizations_name code result ≠ Timeout.
Proof.
  unfold organizations_name.
  apply obind_no_timeout; [apply name_localized_en_US_no_timeout|intros localized].
  destruct (py_truthy localized); [done|].
  repeat (apply obind_no_timeout; [apply py_get_no_timeout|intros ?]). done.
Qed.

Create HintDb resolver discriminated.

#[local] Hint Resolve py_get_no_timeout py_getitem_no_timeout py_contains_no_timeout
  py_iter_no_timeout results_items_no_timeout name_localized_en_US_no_timeout
  titles_name_no_timeout geo_name_no_timeout organizations_name_no_timeout : resolver.

Lemma extends_refl (m : gmap string json) : extends m m.
Proof. by intros k. Qed.

Lemma extends_trans (m1 m2 m3 : gmap string json) :
  extends m1 m2 -> extends m2 m3 -> extends m1 m3.
Proof. intros H12 H23 k Hk. by apply H23, H12. Qed.

Lemma extends_insert (m : gmap string json) (k : string) (v : json) :
  extends m (<[k := v]> m).
Proof.
  intros k' Hk'. destruct (decide (k = k')) as [->|Hne].
  - rewrite lookup_insert_eq. by eexists.
  - by rewrite lookup_insert_ne.
Qed.

Lemma well_behaved_sret : well_behaved (sret tt).
Proof. intros s. cbn. split; [done|]. split; [done|apply extends_refl]. Qed.

Lemma well_behaved_sbind {A} (o : outcome A) (k : A -> ST rstate unit) :
  o ≠ Timeout -> (∀ a, well_behaved (k a)) -> well_behaved (sbind (liftO o) k).
Proof.
  intros Ho Hk s. unfold sbind, liftO. destruct o as [a|e|]; [apply Hk| |done].
  cbn. split; [done|]. split; [done|apply extends_refl].
Qed.

Lemma well_behaved_set_resolved (code : string) (name : json) :
  well_behaved (set_resolved code name).
Proof. intros s. cbn. split; [done|]. split; [done|apply extends_insert]. Qed.

Lemma well_behaved_for_each {A} (xs : list A) (body : A -> ST rstate unit) :
  (∀ x, well_behaved (body x)) -> well_behaved (for_each xs body).
Proof.
  intros Hbody. induction xs as [|x xs IH]; [apply well_behaved_sret|].
  intros s. cbn [for_each]. unfold sbind.
  destruct (Hbody x s) as (Hend & Hworld & Hext).
  destruct (body x s) as [[[]|e|] s1]; cbn [fst snd] in *; [|done|done].
  destruct (IH s1) as (Hend' & Hworld' & Hext').
  split; [done|]. split; [congruence|by eapply extends_trans].
Qed.

Lemma well_behaved_resolve_element (wanted : string -> bool) (element : json) :
  well_behaved (resolve_element wanted element).
Proof.
  destruct element; try apply well_behaved_sret. cbn [resolve_element].
  destruct (wanted _); [|apply well_behaved_sret].
  apply well_behaved_sbind; [auto with resolver|].
  intros name. apply well_behaved_set_resolved.
Qed.

Lemma well_behaved_results_process (name_of : string -> json -> outcome json)
    (response : json) :
  (∀ code result, name_of code result ≠ Timeout) ->
  well_behaved (results_process name_of response).
Proof.
  intros Hname. unfold results_process.
  destruct (py_truthy response); [|apply well_behaved_sret].
  apply well_behaved_sbind; [auto with resolver|]. intros [|]; [|apply well_behaved_sret].
  apply well_behaved_sbind; [auto with resolver|]. intros items.
  apply well_behaved_for_each. intros [code result]. cbn [fst snd].
  destruct result; try apply well_behaved_set_resolved.
  apply well_behaved_sbind; [apply Hname|]. intros name. apply well_behaved_set_resolved.
Qed.

Lemma well_behaved_process_response (kind : resolver_kind) (chunk : list string)
    (response : json) :
  well_behaved (process_response kind chunk response).
Proof.
  destruct kind; cbn [process_response];
    try (apply well_behaved_results_process; intros; auto with resolver).
  - unfold functions_process.
    destruct (py_truthy response); [|apply well_behaved_sret].
    apply well_behaved_sbind; [auto with resolver|]. intros [|]; [|apply well_behaved_sret].
    apply well_behaved_sbind; [auto with resolver|]. intros elements.
    apply well_behaved_sbind; [auto with resolver|]. intros items.
    apply well_behaved_for_each. intros x. apply well_behaved_resolve_element.
  - unfold industries_name. auto with resolver.
  - unfold seniorities_process.
    destruct response as [| | | | |[|]]; try apply well_behaved_sret.
    apply well_behaved_sbind; [auto with resolver|]. intros elements.
    apply well_behaved_sbind; [auto with resolver|]. intros items.
    apply well_behaved_for_each. intros x. apply well_behaved_resolve_element.
Qed.

(** The loop of the [except] block: the codes of the chunk that have no
    entry get themselves; nothing else changes. *)
Lemma fallback_spec (chunk : list string) (s : rstate) :
  ∃ m', fallback chunk s = (Return tt, RState (rs_world s) m')
        ∧ (∀ code, code ∈ chunk -> rs_resolved s !! code = None ->
                   m' !! code = Some (JStr code))
        ∧ (∀ code v, rs_resolved s !! code = Some v -> m' !! code = Some v)
        ∧ (∀ code, code ∉ chunk -> m' !! code = rs_resolved s !! code).
Proof.
  forget_externals.
  unfold fallback. revert s.
  induction chunk as [|c chunk IH]; intros s.
  - exists (rs_resolved s). split; [by destruct s|]. split; [|done].
    intros code Hin. by apply elem_of_nil in Hin.
  - cbn [for_each]. unfold sbind, modify at 1.
    set (s1 := match rs_resolved s !! c with
               | Some _ => s
               | None => RState (rs_world s) (<[c := JStr c]> (rs_resolved s))
               end).
    destruct (IH s1) as (m' & Hrun & Hnew & Hold & Hout).
    assert (Hw : rs_world s1 = rs_world s) by (unfold s1; by destruct (_ !! c)).
    assert (Hc : rs_resolved s1 !! c = Some (default (JStr c) (rs_resolved s !! c))).
    { unfold s1. destruct (rs_resolved s !! c) eqn:E; cbn; [done|apply lookup_insert_eq]. }
    assert (Hne : ∀ code, code ≠ c -> rs_resolved s1 !! code = rs_resolved s !! code).
    { intros code Hcode. unfold s1. destruct (rs_resolved s !! c); [done|].
      cbn. by apply lookup_insert_ne. }
    exists m'. rewrite Hrun, Hw. split; [done|]. split; [|split].
    + intros code Hin Hnone. destruct (decide (code = c)) as [->|Hcode].
      * apply Hold. by rewrite Hc, Hnone.
      * apply Hnew; [|by rewrite Hne]. apply elem_of_cons in Hin as [|]; done.
    + intros code v Hv. destruct (decide (code = c)) as [->|Hcode].
      * apply Hold. by rewrite Hc, Hv.
      * apply Hold. by rewrite Hne.
    + intros code Hnot. apply not_elem_of_cons in Hnot as [Hcode Hnot].
      by rewrite Hout, Hne.
Qed.

(** One chunk: exactly one request is logged, the step returns, and when
    the request failed [resolved] is what the fallback makes of it. *)
Lemma resolve_chunk_spec (kind : resolver_kind) (client : Client) (locale : option string)
    (chunk : list string) (s : rstate) :
  ∃ m', resolve_chunk kind client locale chunk s
        = (Return tt,
           RState (World (requests (rs_world s) ++ [chunk_request kind locale chunk])
                         (sink (rs_world s))) m')
        ∧ extends (rs_resolved s) m'
        ∧ (∀ e, client (requests (rs_world s)) (chunk_request kind locale chunk) = Failed e ->
             (∀ code, code ∈ chunk -> rs_resolved s !! code = None ->
                      m' !! code = Some (JStr code))
             ∧ (∀ code v, rs_resolved s !! code = Some v -> m' !! code = Some v)
             ∧ (∀ code, code ∉ chunk -> m' !! code = rs_resolved s !! code)).
Proof.
  forget_externals.
  unfold resolve_chunk, try_except, try_chunk, sbind, resolver_get, client_get.
  set (w1 := World (requests (rs_world s) ++ [chunk_request kind locale chunk])
                   (sink (rs_world s))).
  destruct (client (requests (rs_world s)) (chunk_request kind locale chunk))
    as [response|e]; cbn [liftR].
  - destruct (well_behaved_process_response kind chunk response (RState w1 (rs_resolved s)))
      as (Hend & Hworld & Hext).
    destruct (process_response kind chunk response (RState w1 (rs_resolved s)))
      as [[[]|e|] s1]; cbn [fst snd rs_world rs_resolved] in *; [| |done].
    + exists (rs_resolved s1). split; [destruct s1; cbn in *; by subst|].
      split; [done|]. intros e He. discriminate He.
    + destruct (fallback_spec chunk s1) as (m' & Hrun & Hnew & Hold & Hout).
      exists m'. rewrite Hrun, Hworld. split; [done|]. split; [|intros e' He'; discriminate He'].
      intros k Hk. destruct (Hext k Hk) as [v Hv]. exists v. by apply Hold.
  - destruct (fallback_spec chunk (RState w1 (rs_resolved s)))
      as (m' & Hrun & Hnew & Hold & Hout).
    exists m'. rewrite Hrun. cbn [rs_world rs_resolved] in *.
    split; [done|]. split; [|by intros _ _].
    intros k [v Hv]. exists v. by apply Hold.
Qed.

(** The loop over the chunks: one request per chunk, and the codes of a
    chunk whose request failed all have an entry in the end. *)
Lemma resolve_chunks_spec (kind : resolver_kind) (client : Client) (locale : option string)
    (chunks : list (list string)) (s : rstate) :
  ∃ m', for_each chunks (resolve_chunk kind client locale) s
        = (Return tt,
           RState (World (requests (rs_world s) ++ (chunk_request kind locale <$> chunks))
                         (sink (rs_world s))) m')
        ∧ extends (rs_resolved s) m'
        ∧ (∀ i chunk e, chunks !! i = Some chunk ->
             client (requests (rs_world s) ++ requests_before kind locale chunks i)
                    (chunk_request kind locale chunk) = Failed e ->
             ∀ code, code ∈ chunk -> is_Some (m' !! code)).
Proof.
  forget_externals.
  revert s. induction chunks as [|chunk chunks IH]; intros s.
  - exists (rs_resolved s). cbn. rewrite app_nil_r.
    split; [by destruct s as [[] ?]|]. split; [apply extends_refl|].
    intros i chunk e Hi. by rewrite lookup_nil in Hi.
  - cbn [for_each]. unfold sbind.
    destruct (resolve_chunk_spec kind client locale chunk s) as (m1 & Hrun & Hext & Hfail).
    rewrite Hrun.
    destruct (IH (RState (World (requests (rs_world s) ++ [chunk_request kind locale chunk])
                                (sink (rs_world s))) m1))
      as (m' & Hrest & Hext' & Hfail').
    cbn [rs_world rs_resolved requests sink] in *.
    exists m'. rewrite Hrest, <- app_assoc. split; [done|].
    split; [by eapply extends_trans|].
    intros i chunk' e Hi Hreq code Hcode.
    destruct i as [|i].
    + cbn in Hi. injection Hi as <-.
      unfold requests_before in Hreq. cbn in Hreq. rewrite app_nil_r in Hreq.
      destruct (Hfail e Hreq) as (Hnew & Hold & _).
      apply Hext'. destruct (rs_resolved s !! code) as [v|] eqn:Hv.
      * exists v. by apply Hold.
      * exists (JStr code). by apply Hnew.
    + cbn in Hi. eapply (Hfail' i chunk' e Hi); [|exact Hcode].
      unfold requests_before in *. cbn [take fmap list_fmap] in Hreq.
      by rewrite <- app_assoc.
Qed.

Lemma elem_of_code_chunks (codes : gset string) (chunk : list string) (code : string) :
  chunk ∈ code_chunks codes -> code ∈ chunk -> code ∈ codes.
Proof.
  forget_externals.
  unfold code_chunks. intros Hchunk Hcode.
  apply list_elem_of_fmap in Hchunk as (i & -> & _).
  apply elem_of_elements.
  eapply (subseteq_drop i), subseteq_take, Hcode.
Qed.

(** ** Identifier resolver: responses that carry the codes *)

Lemma fold_insert_lookup (f : string -> json) (l : list string) (m : gmap string json)
    (k : string) :
  fold_left (fun m c => <[c := f c]> m) l m !! k
  = if decide (k ∈ l) then Some (f k) else m !! k.
Proof.
  forget_externals.
  revert m. induction l as [|c l IH]; intros m; cbn [fold_left].
  - rewrite decide_False; [done|apply not_elem_of_nil].
  - rewrite IH. destruct (decide (k ∈ l)) as [Hin|Hnin].
    + rewrite decide_True; [done|by right].
    + destruct (decide (k = c)) as [->|Hne].
      * rewrite decide_True by left. apply lookup_insert_eq.
      * rewrite decide_False by (rewrite elem_of_cons; tauto).
        by apply lookup_insert_ne.
Qed.

Lemma for_each_inserts {A} (g : A -> string) (f : string -> json) (xs : list A)
    (body : A -> ST rstate unit) (s : rstate) :
  (∀ x s', x ∈ xs ->
     body x s' = (Return tt, RState (rs_world s') (<[g x := f (g x)]> (rs_resolved s')))) ->
  for_each xs body s
  = (Return tt, RState (rs_world s)
                       (fold_left (fun m c => <[c := f c]> m) (g <$> xs) (rs_resolved s))).
Proof.
  forget_externals.
  revert s. induction xs as [|x xs IH]; intros s Hbody; [by destruct s|].
  cbn [for_each]. unfold sbind. rewrite Hbody by left.
  rewrite IH; [done|]. intros y s' Hy. apply Hbody. by right.
Qed.

(** The name read from the entry of a code, per resolver. *)
Lemma results_name_good (kind : resolver_kind) (names : string -> option string)
    (code : string) :
  (∀ c n, names c = Some n -> n ≠ "") ->
  match kind with
  | TitlesResolver => titles_name code (JObj (name_entry kind (names code)))
  | GeoResolver => geo_name code (JObj (name_entry kind (names code)))
  | IndustriesResolver => industries_name code (JObj (name_entry kind (names code)))
  | OrganizationsResolver => organizations_name code (JObj (name_entry kind (names code)))
  | _ => Return (named names code)
  end = Return (named names code).
Proof.
  forget_externals.
  intros Hnames. unfold named.
  destruct kind; try reflexivity;
    destruct (names code) as [[|a n]|] eqn:Hn;
    try (exfalso; by eapply Hnames); vm_compute; reflexivity.
Qed.

Lemma resolve_element_good (kind : resolver_kind) (wanted : list string)
    (names : string -> option string) (c : string) (s : rstate) :
  kind ≠ GeoResolver ->
  c ∈ wanted ->
  resolve_element (fun code => bool_decide (code ∈ wanted))
                  (JObj (("id", JStr c) :: name_entry kind (names c))) s
  = (Return tt, RState (rs_world s) (<[c := named names c]> (rs_resolved s))).
Proof.
  intros Hkind Hc. unfold resolve_element.
  rewrite dict_get_cons, decide_True by done.
  change (py_str (default JNull (Some (JStr c)))) with c.
  rewrite bool_decide_eq_true_2 by done.
  assert (Hname : name_localized_en_US (JObj (("id", JStr c) :: name_entry kind (names c)))
                                       (JStr c) = Return (named names c)).
  { unfold named. destruct kind, (names c); try done; vm_compute; reflexivity. }
  rewrite Hname. reflexivity.
Qed.

(** A response that carries the codes [chunk] puts the name of each of
    them in [resolved]. *)
Lemma process_good (kind : resolver_kind) (chunk wanted : list string)
    (names : string -> option string) (s : rstate) :
  (∀ c n, names c = Some n -> n ≠ "") ->
  (∀ c, c ∈ chunk -> c ∈ wanted) ->
  process_response kind wanted (good_response kind chunk names) s
  = (Return tt, RState (rs_world s)
                       (fold_left (fun m c => <[c := named names c]> m) chunk (rs_resolved s))).
Proof.
  intros Hnames Hwanted.
  assert (Helements : ∀ k, k = FunctionsResolver ∨ k = SenioritiesResolver ->
    for_each ((fun c => JObj (("id", JStr c) :: name_entry k (names c))) <$> chunk)
             (resolve_element (fun code => bool_decide (code ∈ wanted))) s
    = (Return tt, RState (rs_world s)
                         (fold_left (fun m c => <[c := named names c]> m) chunk
                                    (rs_resolved s)))).
  { intros k Hk.
    rewrite (for_each_inserts
               (fun x => match x with
                         | JObj ((_, JStr c) :: _) => c
                         | _ => ""
                         end) (named names)).
    - rewrite <- list_fmap_compose. by rewrite list_fmap_id.
    - intros x s' Hx. apply list_elem_of_fmap in Hx as (c & -> & Hc).
      apply resolve_element_good; [by destruct Hk as [->| ->]|apply Hwanted, Hc]. }
  assert (Hresults : ∀ k (name_of : string -> json -> outcome json),
    (∀ code, name_of code (JObj (name_entry k (names code))) = Return (named names code)) ->
    for_each ((fun c => (c, JObj (name_entry k (names c)))) <$> chunk)
             (fun item => match snd item with
                          | JObj _ => name <~ liftO (name_of (fst item) (snd item)) ;;
                                      set_resolved (fst item) name
                          | _ => set_resolved (fst item) (JStr (fst item))
                          end) s
    = (Return tt, RState (rs_world s)
                         (fold_left (fun m c => <[c := named names c]> m) chunk
                                    (rs_resolved s)))).
  { intros k name_of Hname.
    rewrite (for_each_inserts fst (named names)).
    - rewrite <- list_fmap_compose. by rewrite list_fmap_id.
    - intros x s' Hx. apply list_elem_of_fmap in Hx as (c & -> & Hc).
      cbn [fst snd]. rewrite Hname. reflexivity. }
  destruct kind; cbn [process_response good_response].
  - unfold functions_process. cbn -[for_each]. by apply Helements; left.
  - unfold results_process. cbn -[for_each].
    apply (Hresults TitlesResolver). intros code.
    apply (results_name_good TitlesResolver names), Hnames.
  - unfold results_process. cbn -[for_each].
    apply (Hresults GeoResolver). intros code.
    apply (results_name_good GeoResolver names), Hnames.
  - unfold results_process. cbn -[for_each].
    apply (Hresults IndustriesResolver). intros code.
    apply (results_name_good IndustriesResolver names), Hnames.
  - unfold results_process. cbn -[for_each].
    apply (Hresults OrganizationsResolver). intros code.
    apply (results_name_good OrganizationsResolver names), Hnames.
  - unfold seniorities_process. cbn -[for_each]. by apply Helements; right.
Qed.

Lemma resolve_chunk_good (kind : resolver_kind) (client : Client) (locale : option string)
    (chunk : list string) (names : string -> option string) (s : rstate) :
  (∀ c n, names c = Some n -> n ≠ "") ->
  client (requests (rs_world s)) (chunk_request kind locale chunk)
    = Ok (good_response kind chunk names) ->
  resolve_chunk kind client locale chunk s
  = (Return tt,
     RState (World (requests (rs_world s) ++ [chunk_request kind locale chunk])
                   (sink (rs_world s)))
            (fold_left (fun m c => <[c := named names c]> m) chunk (rs_resolved s))).
Proof.
  intros Hnames Hreply.
  unfold resolve_chunk, try_except, try_chunk, sbind, resolver_get, client_get.
  rewrite Hreply. cbn [liftR].
  by rewrite (process_good kind chunk chunk names _ Hnames).
Qed.

(** When every request is answered with the names of its codes, every
    code gets its name. *)
Lemma resolve_chunks_good (kind : resolver_kind) (client : Client) (locale : option string)
    (chunks : list (list string)) (names : string -> option string) (s : rstate) :
  (∀ c n, names c = Some n -> n ≠ "") ->
  (∀ i chunk, chunks !! i = Some chunk ->
     client (requests (rs_world s) ++ requests_before kind locale chunks i)
            (chunk_request kind locale chunk) = Ok (good_response kind chunk names)) ->
  for_each chunks (resolve_chunk kind client locale) s
  = (Return tt,
     RState (World (requests (rs_world s) ++ (chunk_request kind locale <$> chunks))
                   (sink (rs_world s)))
            (fold_left (fun m c => <[c := named names c]> m) (concat chunks)
                       (rs_resolved s))).
Proof.
  intros Hnames. revert s.
  induction chunks as [|chunk chunks IH]; intros s Hgood.
  - cbn. rewrite app_nil_r. by destruct s as [[] ?].
  - cbn [for_each]. unfold sbind.
    rewrite (resolve_chunk_good kind client locale chunk names s Hnames).
    + rewrite IH.
      * cbn [rs_world rs_resolved requests sink concat fmap list_fmap].
        by rewrite <- app_assoc, fold_left_app.
      * intros i chunk' Hi. cbn [rs_world requests]. rewrite <- app_assoc.
        apply (Hgood (S i) chunk' Hi).
    + specialize (Hgood O chunk eq_refl). unfold requests_before in Hgood.
      cbn in Hgood. by rewrite app_nil_r in Hgood.
Qed.

Lemma elem_of_concat {A} (x : A) (l : list A) (ls : list (list A)) :
  x ∈ l -> l ∈ ls -> x ∈ concat ls.
Proof.
  forget_externals.
  intros Hx Hl. induction ls as [|l0 ls IH]; [by apply elem_of_nil in Hl|].
  cbn. apply elem_of_app. apply elem_of_cons in Hl as [<-|Hl]; [by left|right; auto].
Qed.

(** Cutting a list into chunks loses nothing. *)
Lemma concat_chunks {A} (n k : nat) (l : list A) :
  (0 < n)%nat -> (length l <= k * n)%nat ->
  concat ((fun i => take n (drop (i * n) l)) <$> seq 0 k) = l.
Proof.
  forget_externals.
  intros Hn. revert l. induction k as [|k IH]; intros l Hlen.
  - destruct l; [done|]. cbn in Hlen. lia.
  - cbn [seq fmap list_fmap concat]. rewrite <- seq_shift, <- list_fmap_compose.
    cbn [Nat.mul drop].
    transitivity (take n l ++ drop n l); [|apply take_drop]. f_equal.
    rewrite <- (IH (drop n l)) by (rewrite length_drop; lia).
    f_equal. apply list_fmap_ext. intros i x _. cbn.
    by rewrite drop_drop.
Qed.

Lemma concat_code_chunks (codes : gset string) :
  concat (code_chunks codes) = elements codes.
Proof.
  forget_externals.
  unfold code_chunks, py_range, chunk_size. rewrite <- list_fmap_compose.
  apply (concat_chunks 150); [lia|].
  set (len := length (elements codes)).
  pose proof (Nat.div_mod_eq (len + 150 - 1) 150) as Hdiv.
  pose proof (Nat.mod_upper_bound (len + 150 - 1) 150) as Hmod. lia.
Qed.

Lemma concat_chunks_of (kind : resolver_kind) (codes : gset string) :
  concat (chunks_of kind codes) = elements codes.
Proof.
  destruct kind; try apply concat_code_chunks. cbn. apply app_nil_r.
Qed.

(** [_batch_resolve]: it returns; one request per chunk; the codes of a
    chunk whose request failed have an entry; when every response
    carries its codes, every code has its name. *)
Lemma batch_resolve_spec (kind : resolver_kind) (client : Client) (locale : option string)
    (codes : gset string) (w : world) :
  let chunks := chunks_of kind codes in
  ∃ resolved,
    _batch_resolve kind client locale codes w
    = (Return resolved,
       World (requests w ++ (chunk_request kind locale <$> chunks)) (sink w))
    ∧ (∀ i chunk e, chunks !! i = Some chunk ->
         client (requests w ++ requests_before kind locale chunks i)
                (chunk_request kind locale chunk) = Failed e ->
         ∀ code, code ∈ chunk -> is_Some (resolved !! code))
    ∧ (∀ names, (∀ c n, names c = Some n -> n ≠ "") ->
         (∀ i chunk, chunks !! i = Some chunk ->
            client (requests w ++ requests_before kind locale chunks i)
                   (chunk_request kind locale chunk) = Ok (good_response kind chunk names)) ->
         ∀ code, code ∈ codes -> resolved !! code = Some (named names code)).
Proof.
  intros chunks.
  assert (Hloop : _batch_resolve kind client locale codes w
                  = returning_resolved (for_each chunks (resolve_chunk kind client locale)) w).
  { unfold _batch_resolve, returning_resolved, chunks.
    destruct kind; try reflexivity.
    cbn [chunks_of for_each]. unfold sbind.
    destruct (resolve_chunk_spec SenioritiesResolver client locale (elements codes)
                (RState w ∅)) as (m & -> & _). reflexivity. }
  rewrite Hloop. unfold returning_resolved.
  destruct (resolve_chunks_spec kind client locale chunks (RState w ∅))
    as (resolved & Hrun & _ & Hfailed).
  exists resolved. rewrite Hrun. cbn [obind rs_world rs_resolved requests sink] in *.
  split; [done|]. split; [exact Hfailed|].
  intros names Hnames Hgood code Hcode.
  rewrite (resolve_chunks_good kind client locale chunks names (RState w ∅) Hnames Hgood)
    in Hrun.
  injection Hrun as <-.
  rewrite fold_insert_lookup, decide_True; [done|].
  unfold chunks. rewrite concat_chunks_of. by apply elem_of_elements.
Qed.

Lemma code_chunks_200 (codes : gset string) :
  size codes = 200%nat ->
  code_chunks codes = [take 150 (elements codes); drop 150 (elements codes)]
  ∧ length (take 150 (elements codes)) = 150%nat
  ∧ length (drop 150 (elements codes)) = 50%nat
  ∧ (∀ code, code ∈ drop 150 (elements codes) -> code ∉ take 150 (elements codes)).
Proof.
  forget_externals.
  intros Hsize. assert (Hlen : length (elements codes) = 200%nat) by exact Hsize.
  split; [|split; [|split]].
  - unfold code_chunks, py_range, chunk_size. rewrite Hlen.
    cbn [Nat.div Nat.add Nat.sub Nat.divmod fst seq fmap list_fmap Nat.mul drop].
    f_equal. f_equal. apply take_ge. rewrite length_drop. lia.
  - rewrite length_take. lia.
  - rewrite length_drop. lia.
  - intros code Hdrop Htake.
    pose proof (NoDup_elements codes) as Hnd.
    rewrite <- (take_drop 150 (elements codes)) in Hnd.
    apply NoDup_app in Hnd as (_ & Hdisjoint & _). by apply (Hdisjoint code).
Qed.

(** ** Response merger with resolution *)

Lemma latest_value_None (f : string) (K : primary_key) (es : list (primary_key * dict)) :
  K ∉ es.*1 -> latest_value f K es = None.
Proof.
  forget_externals.
  induction es as [|[K0 d0] es IH]; [done|].
  rewrite fmap_cons, not_elem_of_cons. cbn [fst latest_value]. intros [Hne Hnot].
  rewrite IH by done. by rewrite decide_False.
Qed.

(** The fields that every record has come, in the merged record, from the
    last record with the key. *)
Lemma latest_value_last (K : primary_key) (es : list (primary_key * dict)) :
  K ∈ es.*1 ->
  ∃ d, (K, d) ∈ es
       ∧ ∀ f, is_Some (dict_get f d) -> latest_value f K es = dict_get f d.
Proof.
  forget_externals.
  induction es as [|[K0 d0] es IH]; [intros Hin; by apply elem_of_nil in Hin|].
  intros Hin. destruct (decide (K ∈ es.*1)) as [Hrest|Hrest].
  - destruct (IH Hrest) as (d & Hd & Hlast).
    exists d. split; [by right|]. intros f Hf. cbn [latest_value].
    rewrite (Hlast f Hf). by destruct Hf as [v ->].
  - rewrite fmap_cons in Hin. apply elem_of_cons in Hin as [->|]; [|done].
    exists d0. split; [left|]. intros f Hf. cbn [latest_value fst].
    rewrite latest_value_None, decide_True by done. done.
Qed.

Lemma map_outcome_Return {A B} (f : A -> outcome B) (g : A -> B) (xs : list A) :
  (∀ x, x ∈ xs -> f x = Return (g x)) ->
  map_outcome f xs = Return (g <$> xs).
Proof.
  forget_externals.
  induction xs as [|x xs IH]; intros Hf; [done|].
  cbn [map_outcome]. rewrite Hf by left. cbn [obind].
  rewrite IH by (intros y Hy; apply Hf; by right). done.
Qed.

Lemma urn_strings_Return (urns : gset pykey) :
  (∀ k, k ∈ urns -> ∃ u, k = KStr u) ->
  ∃ strs, urn_strings urns = Return strs ∧ ∀ u, u ∈ strs ↔ KStr u ∈ urns.
Proof.
  forget_externals.
  intros Hstr. unfold urn_strings.
  set (g := fun k => match k with KStr u => u | _ => "" end).
  rewrite (map_outcome_Return _ g).
  - eexists. split; [reflexivity|]. intros u.
    rewrite elem_of_list_to_set, list_elem_of_fmap. split.
    + intros (k & -> & Hk). apply elem_of_elements in Hk.
      by destruct (Hstr k Hk) as [u' ->].
    + intros Hu. exists (KStr u). split; [done|by apply elem_of_elements].
  - intros k Hk. apply elem_of_elements in Hk. by destruct (Hstr k Hk) as [u ->].
Qed.

(** The endpoints of [resolution_configs] all have a resolver. *)
Lemma resolution_of_resolver (client : option Client) (stream_name : option string)
    (c : Client) (endpoint : string) (locale : option string) :
  resolution_of client stream_name = Some (c, (endpoint, locale)) ->
  client = Some c ∧ ∃ kind, create_resolver endpoint = Return kind.
Proof.
  forget_externals.
  unfold resolution_of. destruct client as [c'|]; [|done].
  destruct stream_name as [name|]; [|done].
  unfold resolution_configs. cbn [al_get].
  repeat (destruct (decide (name = _)); [intros [= <- <- <-]; split; [done|by eexists]|]).
  done.
Qed.

Lemma resolve_urns_returns (client : Client) (urns : gset string) (endpoint : string)
    (locale : option string) (kind : resolver_kind) (w : world) :
  create_resolver endpoint = Return kind ->
  ∃ resolved w', resolve_urns client urns endpoint locale w = (Return resolved, w').
Proof.
  intros Hkind. unfold resolve_urns. rewrite Hkind, sbind_liftO_Return.
  unfold resolve. destruct (decide (urns = ∅)); [by eexists _, _|].
  destruct (batch_resolve_spec kind client locale (set_map last_segment urns) w)
    as (resolved & Hrun & _).
  by eexists _, _.
Qed.

Lemma with_names_keys (resolved : gmap string json) (records : list (primary_key * dict)) :
  (with_names resolved records).*1 = records.*1.
Proof.
  forget_externals.
  unfold with_names. rewrite <- list_fmap_compose. by apply list_fmap_ext.
Qed.

Lemma with_names_get (resolved : gmap string json) (records : list (primary_key * dict))
    (K : primary_key) :
  al_get K (with_names resolved records)
  = (fun r => match dict_get "pivot_value" r with
              | Some (JStr u) =>
                  dict_set "pivot_value_name"
                    (default (JStr (last_segment u)) (resolved !! last_segment u)) r
              | _ => r
              end) <$> al_get K records.
Proof.
  forget_externals.
  induction records as [|[K0 r0] records IH]; [done|].
  cbn [with_names fmap list_fmap al_get fst snd].
  destruct (decide (K = K0)); [done|]. apply IH.
Qed.

(** The pivot fields of a merged record are those of the last record
    with its key. *)
Lemma merge_spec_pivot_fields (pivot : json) (es : list (primary_key * dict))
    (K : primary_key) (r : dict) :
  Forall (fun kd => NoDup (snd kd).*1) es ->
  Forall (fun kd => pivot_fields pivot (fst kd) (snd kd)) es ->
  al_get K (merge_spec es []) = Some r ->
  pivot_fields pivot K r.
Proof.
  forget_externals.
  intros Hnd Hfields Hr.
  assert (Hin : K ∈ es.*1).
  { assert (Hin : K ∈ (merge_spec es []).*1) by (by eapply al_get_Some_keys).
    apply merge_spec_keys in Hin as [Hin|Hnil]; [done|by apply elem_of_nil in Hnil]. }
  destruct (latest_value_last K es Hin) as (d & Hd & Hlast).
  rewrite Forall_forall in Hfields.
  destruct (Hfields (K, d) Hd) as (pvs & pv & Hpvs & Hfirst & Hpv & Hpivot & Hhash).
  cbn [fst snd] in *.
  assert (Hfield : ∀ f v, dict_get f d = Some v -> dict_get f r = Some v).
  { intros f v Hv.
    pose proof (merge_spec_field f K es [] Hnd) as Hmerged.
    unfold field_at in Hmerged. rewrite Hr, Hlast, Hv in Hmerged by (by rewrite Hv).
    exact Hmerged. }
  exists pvs, pv. auto 10.
Qed.

(** [merge_responses] on records that all have a composite key: without
    a resolution it returns the merged records; with one, the merged
    records with the names the resolver returned for the pivot values. *)
Lemma merge_responses_spec (pivot : json) (data : list json) (pages : list (list json))
    (es : list (primary_key * dict)) (client : option Client)
    (stream_name : option string) (w : world) :
  Forall2 (fun page elements => py_iter page = Return elements) data pages ->
  Forall2 (fun element kd => composite_key element = Return (fst kd)
                             ∧ decorated pivot element = Return (snd kd))
          (concat pages) es ->
  Forall (fun kd => NoDup (snd kd).*1) es ->
  (is_Some (resolution_of client stream_name) ->
   Forall (fun kd => ∃ u, fst (fst kd) = KStr u) es) ->
  match resolution_of client stream_name with
  | None =>
      merge_responses pivot data client stream_name w = (Return (merge_spec es []), w)
  | Some (c, (endpoint, locale)) =>
      ∃ urns resolved w',
        (∀ u, u ∈ urns ↔ KStr u ∈ (fst ∘ fst <$> es))
        ∧ resolve_urns c urns endpoint locale w = (Return resolved, w')
        ∧ merge_responses pivot data client stream_name w
          = (Return (with_names resolved (merge_spec es [])), w')
  end.
Proof.
  intros Hpages Hes Hnd Hstr.
  assert (Hfields : Forall (fun kd => pivot_fields pivot (fst kd) (snd kd)) es).
  { clear -Hes. induction Hes as [|e kd raw es [Hk Hd] _ IH]; constructor; [|exact IH].
    by eapply decorated_fields. }
  unfold merge_responses, merge_pages.
  rewrite (fold_pages_concat _ data pages _ Hpages).
  rewrite (merge_elements_eq pivot _ (concat pages) es _ Hes).
  rewrite sbind_liftO_Return. cbn [fst snd].
  destruct (resolution_of client stream_name) as [[c [endpoint locale]]|] eqn:Hres;
    [|reflexivity].
  rewrite bool_decide_eq_true_2 by (by eexists).
  specialize (Hstr (ltac:(by eexists))).
  destruct (urn_strings_Return (list_to_set (fst ∘ fst <$> es) ∪ ∅)) as (urns & Hurns & Hmem).
  { intros k Hk. apply elem_of_union in Hk as [Hk|Hk]; [|by apply elem_of_empty in Hk].
    apply elem_of_list_to_set, list_elem_of_fmap in Hk as (kd & -> & Hkd).
    rewrite Forall_forall in Hstr. exact (Hstr kd Hkd). }
  destruct (resolution_of_resolver _ _ _ _ _ Hres) as (_ & kind & Hkind).
  destruct (resolve_urns_returns c urns endpoint locale kind w Hkind)
    as (resolved & w' & Hresolve).
  exists urns, resolved, w'. split; [|split; [exact Hresolve|]].
  - intros u. rewrite Hmem, elem_of_union, elem_of_list_to_set.
    split; [intros [|Hu]; [done|by apply elem_of_empty in Hu]|by left].
  - rewrite Hurns, sbind_liftO_Return. unfold sbind at 1. rewrite Hresolve.
    unfold liftO. f_equal. unfold with_names.
    apply map_outcome_Return. intros [K r] Hr. cbn [fst snd].
    assert (Hget : al_get K (merge_spec es []) = Some r).
    { pose proof (merge_spec_NoDup es [] (NoDup_nil_2)) as Hkeys.
      clear -Hr Hkeys. induction (merge_spec es []) as [|[K0 r0] l IH];
        [by apply elem_of_nil in Hr|].
      rewrite fmap_cons in Hkeys. apply NoDup_cons in Hkeys as [Hnot Hkeys].
      cbn [al_get fst]. apply elem_of_cons in Hr as [[= <- <-]|Hr].
      - by rewrite decide_True.
      - rewrite decide_False; [by apply IH|]. intros ->. apply Hnot.
        apply list_elem_of_fmap. by exists (K0, r). }
    destruct (merge_spec_pivot_fields pivot es K r Hnd Hfields Hget)
      as (pvs & pv & _ & _ & Hpv & _ & Hhash).
    rewrite Forall_forall in Hstr.
    assert (HK : ∃ u, fst K = KStr u).
    { assert (Hin : K ∈ (merge_spec es []).*1) by (by eapply al_get_Some_keys).
      apply merge_spec_keys in Hin as [Hin|Hnil]; [|by apply elem_of_nil in Hnil].
      apply list_elem_of_fmap in Hin as ([K' d] & -> & Hin). exact (Hstr _ Hin). }
    destruct HK as [u Hu]. rewrite Hu in Hhash.
    assert (pv = JStr u) as -> by (destruct pv as [| [|] | | | |]; by simplify_eq/=).
    unfold name_record, py_getitem. rewrite Hpv. reflexivity.
Qed.

Lemma decorated_all_NoDup (pivot : json) (raw : list json) (es : list (primary_key * dict)) :
  Forall2 (fun element kd => composite_key element = Return (fst kd)
                             ∧ decorated pivot element = Return (snd kd)) raw es ->
  Forall (fun element => ∀ d, element = JObj d -> NoDup d.*1) raw ->
  Forall (fun kd => NoDup (snd kd).*1) es.
Proof.
  forget_externals.
  intros Hes. induction Hes as [|e kd raw es [_ Hd] _ IH]; intros Hnd; [constructor|].
  apply Forall_cons in Hnd as [He Hnd]. constructor; [|by apply IH].
  by eapply decorated_NoDup.
Qed.

Lemma decorated_all_fields (pivot : json) (raw : list json) (es : list (primary_key * dict)) :
  Forall2 (fun element kd => composite_key element = Return (fst kd)
                             ∧ decorated pivot element = Return (snd kd)) raw es ->
  Forall (fun kd => pivot_fields pivot (fst kd) (snd kd)) es.
Proof.
  forget_externals.
  intros Hes. induction Hes as [|e kd raw es [Hk Hd] _ IH]; constructor; [|exact IH].
  by eapply decorated_fields.
Qed.

(** A merged record once named: the name is set, the rest is kept. *)
Lemma with_names_record (pivot : json) (resolved : gmap string json)
    (es : list (primary_key * dict)) (K : primary_key) (r : dict) :
  Forall (fun kd => NoDup (snd kd).*1) es ->
  Forall (fun kd => pivot_fields pivot (fst kd) (snd kd)) es ->
  Forall (fun kd => ∃ u, fst (fst kd) = KStr u) es ->
  al_get K (with_names resolved (merge_spec es [])) = Some r ->
  ∃ r0 u, al_get K (merge_spec es []) = Some r0
          ∧ pivot_fields pivot K r0
          ∧ dict_get "pivot_value" r0 = Some (JStr u)
          ∧ r = dict_set "pivot_value_name"
                  (default (JStr (last_segment u)) (resolved !! last_segment u)) r0.
Proof.
  forget_externals.
  intros Hnd Hfields Hstr Hr. rewrite with_names_get in Hr.
  destruct (al_get K (merge_spec es [])) as [r0|] eqn:Hr0; [|discriminate Hr].
  pose proof (merge_spec_pivot_fields pivot es K r0 Hnd Hfields Hr0) as Hpf.
  destruct Hpf as (pvs & pv & Hpvs & Hfirst & Hpv & Hpivot & Hhash).
  assert (HK : ∃ u, fst K = KStr u).
  { assert (Hin : K ∈ (merge_spec es []).*1) by (by eapply al_get_Some_keys).
    apply merge_spec_keys in Hin as [Hin|Hnil]; [|by apply elem_of_nil in Hnil].
    apply list_elem_of_fmap in Hin as ([K' d] & -> & Hin).
    rewrite Forall_forall in Hstr. exact (Hstr _ Hin). }
  destruct HK as [u Hu]. rewrite Hu in Hhash.
  assert (pv = JStr u) as -> by (destruct pv as [| [|] | | | |]; by simplify_eq/=).
  exists r0, u. cbn in Hr. rewrite Hpv in Hr. injection Hr as <-.
  split; [done|]. split; [|done]. exists pvs, (JStr u). by rewrite Hu.
Qed.

(** ** Pagination cursor *)

Lemma str_app_cons (x : ascii) (a b : string) : String x a +:+ b = String x (a +:+ b).
Proof. reflexivity. Qed.

Lemma str_app_nil_l (b : string) : "" +:+ b = b.
Proof. reflexivity. Qed.

Lemma str_length_app (a b : string) :
  String.length (a +:+ b) = (String.length a + String.length b)%nat.
Proof.
  induction a as [|x a IH]; [done|]. rewrite str_app_cons. cbn [String.length].
  by rewrite IH.
Qed.

Lemma str_app_assoc (a b c : string) : (a +:+ b) +:+ c = a +:+ (b +:+ c).
Proof. induction a as [|x a IH]; [done|]. by rewrite !str_app_cons, IH. Qed.

Lemma str_app_nil_r (a : string) : a +:+ "" = a.
Proof. induction a as [|x a IH]; [done|]. by rewrite str_app_cons, IH. Qed.

Lemma match_page_token_None (s : string) :
  String.prefix "pageToken=" s = false -> match_page_token s = None.
Proof. unfold match_page_token. by intros ->. Qed.

(** A string without [pageToken=] is left as it is. *)
Lemma re_sub_from_id (repl s : string) :
  str_contains "pageToken=" s = false -> re_sub_from 0 repl s = s.
Proof.
  induction s as [|c s IH]; [done|].
  cbn [str_contains]. intros Hno. apply orb_false_elim in Hno as [Hhere Hrest].
  cbn [re_sub_from]. rewrite (match_page_token_None _ Hhere). by rewrite IH.
Qed.

(** The characters of a match are dropped. *)
Lemma re_sub_from_skip (repl a b : string) :
  re_sub_from (String.length a) repl (a +:+ b) = re_sub_from 0 repl b.
Proof.
  induction a as [|x a IH]; [done|]. rewrite str_app_cons. exact IH.
Qed.

Lemma span_not_amp_value (old rest : string) :
  str_contains "&" old = false ->
  rest = "" ∨ (∃ rest', rest = String "&" rest') ->
  span_not_amp (old +:+ rest) = String.length old.
Proof.
  intros Hold Hrest. induction old as [|c old IH].
  - rewrite str_app_nil_l. by destruct Hrest as [->|[rest' ->]].
  - cbn [str_contains String.prefix] in Hold. rewrite str_app_cons.
    cbn [span_not_amp String.length].
    destruct (ascii_dec "&" c) as [Heq|Hne].
    + by destruct old.
    + destruct (Ascii.eqb_spec c "&") as [->|Hc]; [done|]. by rewrite IH.
Qed.

(** [pageToken=] does not overlap itself: it cannot start inside a string
    that does not hold it and run into a [pageToken=] that follows. *)
Lemma prefix_page_token_app (x tail : string) :
  x ≠ "" ->
  String.prefix "pageToken=" x = false ->
  String.prefix "pageToken=" (x +:+ "pageToken=" +:+ tail) = false.
Proof.
  intros Hx Hprefix.
  do 10 (destruct x as [|? x];
         [first [done
                |rewrite ?str_app_cons, ?str_app_nil_l; cbn [String.prefix];
                 repeat (destruct (ascii_dec _ _) as [<-|]; [|reflexivity]);
                 vm_compute; reflexivity]|]).
  rewrite ?str_app_cons. cbn [String.prefix] in *.
  repeat (destruct (ascii_dec _ _); [|done]).
  by destruct x.
Qed.

Lemma re_sub_from_before (repl pre tail : string) :
  str_contains "pageToken=" pre = false ->
  re_sub_from 0 repl (pre +:+ "pageToken=" +:+ tail)
  = pre +:+ re_sub_from 0 repl ("pageToken=" +:+ tail).
Proof.
  induction pre as [|c pre IH]; [done|].
  intros Hno. cbn [str_contains] in Hno. apply orb_false_elim in Hno as [Hhere Hrest].
  rewrite str_app_cons. cbn [re_sub_from].
  rewrite (match_page_token_None (String c (pre +:+ "pageToken=" +:+ tail))).
  - by rewrite IH.
  - by apply (prefix_page_token_app (String c pre) tail).
Qed.

(** The value of one [pageToken] parameter is replaced. *)
Lemma re_sub_page_token_replaces (repl pre old rest : string) :
  str_contains "\" repl = false ->
  str_contains "pageToken=" pre = false ->
  old ≠ "" ->
  str_contains "&" old = false ->
  rest = "" ∨ (∃ rest', rest = String "&" rest') ->
  str_contains "pageToken=" rest = false ->
  re_sub_page_token repl (pre +:+ "pageToken=" +:+ old +:+ rest)
  = Return (pre +:+ repl +:+ rest).
Proof.
  intros Hrepl Hpre Hold Hamp Hrest Hno.
  unfold re_sub_page_token. rewrite Hrepl. f_equal.
  rewrite re_sub_from_before by done. f_equal.
  destruct old as [|c old]; [done|].
  assert (Hmatch : match_page_token ("pageToken=" +:+ String c old +:+ rest)
                   = Some (10 + String.length (String c old))%nat).
  { unfold match_page_token.
    change (String.prefix "pageToken=" ("pageToken=" +:+ String c old +:+ rest)) with true.
    change (str_drop 10 ("pageToken=" +:+ String c old +:+ rest))
      with (String c old +:+ rest).
    by rewrite span_not_amp_value. }
  change ("pageToken=" +:+ String c old +:+ rest)
    with (String "p" ("ageToken=" +:+ String c old +:+ rest)) at 1.
  cbn [re_sub_from].
  change (String "p" ("ageToken=" +:+ String c old +:+ rest))
    with ("pageToken=" +:+ String c old +:+ rest).
  rewrite Hmatch. f_equal.
  replace ("ageToken=" +:+ String c old +:+ rest)
    with (("ageToken=" +:+ String c old) +:+ rest) by apply str_app_assoc.
  replace (10 + String.length (String c old) - 1)%nat
    with (String.length ("ageToken=" +:+ String c old))
    by (rewrite str_length_app; cbn [String.length]; lia).
  rewrite re_sub_from_skip. by apply re_sub_from_id.
Qed.

Lemma prefix_app (a b : string) : String.prefix a (a +:+ b) = true.
Proof.
  induction a as [|x a IH]; [by destruct b|].
  rewrite str_app_cons. cbn [String.prefix]. by destruct (ascii_dec x x).
Qed.

Lemma str_contains_app (pre p tail : string) :
  str_contains p (pre +:+ p +:+ tail) = true.
Proof.
  induction pre as [|c pre IH].
  - rewrite str_app_nil_l. destruct (p +:+ tail) eqn:E; cbn [str_contains];
      rewrite <- E, prefix_app; reflexivity.
  - rewrite str_app_cons. cbn [str_contains]. rewrite IH. apply orb_true_r.
Qed.

Lemma scan_links_not_next (before rest : list json) (next_url : option string) :
  Forall not_next before ->
  scan_links (before ++ rest) next_url = scan_links rest next_url.
Proof.
  induction 1 as [|item before (d & -> & Hrel) _ IH]; [done|].
  cbn [app scan_links py_get obind]. by rewrite Hrel.
Qed.

(** ** Field chunking *)

Lemma append_key_fields_prefix chunk : chunk `prefix_of` append_key_fields chunk.
Proof.
  unfold append_key_fields; simpl.
  repeat case_bool_decide; try reflexivity.
  - by apply prefix_app_r.
  - by apply prefix_app_r.
  - rewrite <- app_assoc. by apply prefix_app_r.
Qed.

Lemma append_key_fields_has chunk :
  "dateRange" ∈ append_key_fields chunk ∧ "pivotValues" ∈ append_key_fields chunk.
Proof.
  unfold append_key_fields; simpl.
  repeat case_bool_decide; set_solver.
Qed.

(** C3: 40 selected fields and the cap of 18 give, after the mandatory
    leading chunk [dateRange, pivotValues], exactly three chunks of 18, 18
    and 4 fields taken in order from the field list; after the append step
    every chunk holds both [dateRange] and [pivotValues]. *)
Theorem chunking_40_fields (fields : list string) :
  length fields = 40%nat ->
  ∃ c1 c2 c3 : list string,
    split_into_chunks fields MAX_CHUNK_LENGTH = Return [c1; c2; c3]
    ∧ length c1 = 18%nat ∧ length c2 = 18%nat ∧ length c3 = 4%nat
    ∧ fields = c1 ++ c2 ++ c3
    ∧ analytics_chunks fields =
        Return [ ["dateRange"; "pivotValues"];
                 append_key_fields c1; append_key_fields c2; append_key_fields c3 ]
    ∧ c1 `prefix_of` append_key_fields c1
    ∧ c2 `prefix_of` append_key_fields c2
    ∧ c3 `prefix_of` append_key_fields c3
    ∧ ∀ chunks, analytics_chunks fields = Return chunks ->
        Forall (fun c => "dateRange" ∈ c ∧ "pivotValues" ∈ c) chunks.
Proof.
  intros Hlen.
  assert (Hsplit : split_into_chunks fields MAX_CHUNK_LENGTH =
                   Return [take 18 fields; take 18 (drop 18 fields); take 18 (drop 36 fields)]).
  { unfold split_into_chunks, MAX_CHUNK_LENGTH, py_range. rewrite Hlen. reflexivity. }
  exists (take 18 fields), (take 18 (drop 18 fields)), (take 18 (drop 36 fields)).
  assert (Hchunks : analytics_chunks fields =
      Return [ ["dateRange"; "pivotValues"];
               append_key_fields (take 18 fields);
               append_key_fields (take 18 (drop 18 fields));
               append_key_fields (take 18 (drop 36 fields)) ]).
  { unfold analytics_chunks. rewrite Hsplit. reflexivity. }
  split; [exact Hsplit|].
  split; [rewrite length_take; lia|].
  split; [rewrite length_take, length_drop; lia|].
  split; [rewrite length_take, length_drop; lia|].
  split.
  { rewrite <- (take_drop 18 fields) at 1. f_equal.
    rewrite <- (take_drop 18 (drop 18 fields)) at 1. f_equal.
    rewrite drop_drop. simpl.
    symmetry. apply take_ge. rewrite length_drop. lia. }
  split; [exact Hchunks|].
  repeat (split; [apply append_key_fields_prefix|]).
  intros chunks Heq. rewrite Hchunks in Heq. injection Heq as Heq. subst chunks.
  repeat constructor; try apply append_key_fields_has; set_solver.
Qed.

(** C4: for a window [start <= end <= today] held by [params] and a
    positive window size (the forced size, when one is given, in its
    place), [shift_sync_window] gives [new_start = old_end] and
    [new_end = min(today, old_end + size)], stores that window in the new
    parameters, and keeps [start <= end <= today]. The shifted date
    [old_end + size] has to be a date of the calendar (up to 9999-12-31). *)
Theorem shift_sync_window_advance (params : dict) (start end_ today : date)
    (date_window_size : Z) (forced_window_size : option Z) :
  params_window params start end_ ->
  date_valid start -> date_valid end_ -> date_valid today ->
  start <= end_ <= today ->
  0 < date_window_size ->
  (∀ forced, forced_window_size = Some forced -> 0 < forced) ->
  let size := default date_window_size forced_window_size in
  end_ + size <= _MAXORDINAL ->
  let new_start := end_ in
  let new_end := Z.min today (end_ + size) in
  ∃ new_params,
    shift_sync_window params today date_window_size forced_window_size
      = Return (new_start, new_end, new_params)
    ∧ params_window new_params new_start new_end
    ∧ new_start <= new_end <= today
    ∧ date_valid new_start ∧ date_valid new_end.
Proof.
  intros (_ & _ & _ & Hday & Hmonth & Hyear) Hs He Ht Hle Hpos Hforced size Hmax
         new_start new_end.
  exists (with_date_range params end_ new_end).
  assert (Hsize : 0 < size).
  { unfold size. destruct forced_window_size as [f|]; simpl; [by apply Hforced|done]. }
  split.
  - apply shift_sync_window_eq; try assumption; try lia.
    unfold size. destruct forced_window_size as [f|]; simpl; [|done].
    specialize (Hforced f eq_refl).
    replace (f =? 0) with false by (symmetry; apply Z.eqb_neq; lia). done.
  - split; [apply with_date_range_window|].
    unfold date_valid in *. unfold new_start, new_end. lia.
Qed.

(** C5: with the bookmark on 2024-01-01, a window size of 30 and today
    2024-02-01, [sync_ad_analytics] is the sync of the window
    [2023-12-25, 2024-01-24] followed by the sync of the window
    [2024-01-24, 2024-02-01], and nothing more: the loop ends after the
    second window, whatever fuel it has beyond two passes. *)
Theorem analytics_two_windows (self : stream) (client : Client) (selected : list string)
    (last_datetime parent_id : json) (bookmark_dt : Z) (fuel page_fuel : nat) (w : world) :
  replication_keys self ≠ [] ->
  strptime_to_utc last_datetime = Ok bookmark_dt ->
  datetime_date bookmark_dt = _ymd2ord 2024 1 1 ->
  (2 <= fuel)%nat ->
  let today := _ymd2ord 2024 2 1 in
  let d1 := _ymd2ord 2023 12 25 in
  let d2 := _ymd2ord 2024 1 24 in
  ∃ chunks bookmark_field last_datetime_dt,
    let sync := sync_window page_fuel client self chunks bookmark_field
                  last_datetime last_datetime_dt parent_id in
    params_window (with_date_range (params self) d1 d2) d1 d2
    ∧ (∀ static_params, params_window (with_date_range static_params d2 today) d2 today)
    ∧ sync_ad_analytics fuel page_fuel self client selected last_datetime 30 parent_id today w
      = (first <~ sync (with_date_range (params self) d1 d2) O last_datetime ;;
         second <~ sync (with_date_range (fst (fst first)) d2 today)
                     (snd (fst first)) (snd first) ;;
         sret (snd (fst second), snd second)) w.
Proof.
  intros Hkeys Hparse Hdate Hfuel today d1 d2.
  destruct (replication_keys self) as [|key keys] eqn:Hrk; [done|].
  destruct fuel as [|[|fuel]]; [lia|lia|].
  set (valid := filter (fun field => field ∉ FIELDS_UNAVAILABLE_FOR_AD_ANALYTICS) selected).
  destruct (analytics_chunks valid) as [chunks| |] eqn:Hchunks;
    [|discriminate Hchunks|discriminate Hchunks].
  set (dt := bookmark_dt - 7 * MICROSECONDS_PER_DAY).
  exists chunks, key, dt.
  split; [apply with_date_range_window|].
  split; [intros; apply with_date_range_window|].
  assert (Hd : datetime_date bookmark_dt = 738886) by (rewrite Hdate; reflexivity).
  assert (Hsub : datetime_sub_days bookmark_dt 7 = Return dt).
  { unfold datetime_sub_days. fold dt.
    unfold datetime_date, MICROSECONDS_PER_DAY in Hd.
    replace ((0 <=? dt) && (dt <? _MAXORDINAL * MICROSECONDS_PER_DAY)) with true; [done|].
    symmetry. apply andb_true_intro. unfold dt, _MAXORDINAL, MICROSECONDS_PER_DAY.
    split; [apply Z.leb_le|apply Z.ltb_lt]; Z.div_mod_to_equations; lia. }
  assert (Hstart : datetime_date dt = 738879).
  { unfold datetime_date, MICROSECONDS_PER_DAY in Hd |- *.
    unfold dt, MICROSECONDS_PER_DAY. Z.div_mod_to_equations; lia. }
  unfold sync_ad_analytics, first_replication_key.
  rewrite Hrk, sbind_liftO_Return, Hparse.
  cbn [liftR]. rewrite sbind_liftO_Return, Hsub, sbind_liftO_Return, Hstart.
  change (first_window 738879 30 today) with (Return (A := date * date) (738879, 738909)).
  rewrite sbind_liftO_Return. cbn [fst snd]. fold valid.
  rewrite Hchunks, sbind_liftO_Return.
  change d1 with 738879. change d2 with 738909. change today with 738917.
  set (sync := sync_window page_fuel client self chunks key last_datetime dt parent_id).
  cbn [window_loop]. fold sync.
  change (738909 <=? 738917) with true. cbv iota.
  apply sbind_ext. intros first w1 Hfirst.
  assert (Hshift1 : shift_sync_window (fst (fst first)) 738917 30 None
                    = Return (738909, 738917, with_date_range (fst (fst first)) 738909 738917)).
  { destruct (with_date_range_window (params self) 738879 738909)
      as (_ & _ & _ & Hday & Hmonth & Hyear).
    apply (shift_sync_window_eq _ 738909 738917 30 None 30);
      try rewrite (sync_window_params _ _ _ _ _ _ _ _ _ _ _ _ _ _ _ Hfirst) by done;
      try done. }
  rewrite Hshift1, sbind_liftO_Return. cbn [fst snd].
  change (738909 =? 738917) with false. cbv iota.
  change (738917 <=? 738917) with true. cbv iota.
  apply sbind_ext. intros second w2 Hsecond.
  assert (Hshift2 : shift_sync_window (fst (fst second)) 738917 30 None
                    = Return (738917, 738917, with_date_range (fst (fst second)) 738917 738917)).
  { destruct (with_date_range_window (fst (fst first)) 738909 738917)
      as (_ & _ & _ & Hday & Hmonth & Hyear).
    apply (shift_sync_window_eq _ 738917 738917 30 None 30);
      try rewrite (sync_window_params _ _ _ _ _ _ _ _ _ _ _ _ _ _ _ Hsecond) by done;
      try done. }
  rewrite Hshift2, sbind_liftO_Return. reflexivity.
Qed.

(** C1: [process_records] writes every record of a full-refresh stream;
    on an incremental stream it writes a record whose bookmark field is
    present exactly when its bookmark is at or after the last bookmark
    (compared as instants), and every record whose bookmark field is
    absent. Records are written in order; the count that comes with the
    new maximum is the value of the record counter, which is at most the
    number of records written. *)
Theorem process_records_emits (self : stream) (records : list json) (transformed : list dict)
    (bookmark_field : option string) (max_bookmark_value last_datetime parent_id : json)
    (w : world) :
  Forall2 (fun record written => prepare_record self parent_id record = Return written)
          records transformed ->
  (∀ written value, written ∈ transformed ->
     bookmark_of bookmark_field written = Some value -> is_Ok (strptime_to_utc value)) ->
  is_Ok (strptime_to_utc last_datetime) ->
  max_bookmark_value = JNull ∨ is_Ok (strptime_to_utc max_bookmark_value) ->
  let full_table := bool_decide (replication_method self = "FULL_TABLE") in
  let out := List.filter (fun written =>
               emitted full_table (bookmark_of bookmark_field written) last_datetime)
               transformed in
  (∃ new_max count,
     process_records self records bookmark_field max_bookmark_value last_datetime parent_id w
     = (Return (new_max, count),
        World (requests w) (sink w ++ (pair (tap_stream_id self) <$> out)))
     ∧ (count <= length out)%nat)
  ∧ (replication_method self = "FULL_TABLE" -> out = transformed)
  ∧ (replication_method self ≠ "FULL_TABLE" ->
     ∀ written, written ∈ transformed ->
       (written ∈ out ↔
          match bookmark_of bookmark_field written with
          | Some value => instant last_datetime <= instant value
          | None => True
          end)).
Proof.
  forget_externals.
  intros Hprep Hvalues Hlast Hmax full_table out.
  split; [|split].
  - unfold process_records.
    assert (Hgen : ∀ count, ∃ new_max count',
      fold_st (process_record self bookmark_field last_datetime parent_id) records
              (max_bookmark_value, count) w
      = (Return (new_max, count'),
         World (requests w) (sink w ++ (pair (tap_stream_id self) <$> out)))
      ∧ (count' <= count + length out)%nat);
      [|exact (Hgen O)].
    subst out. revert max_bookmark_value w Hmax.
    induction Hprep as [|record written records transformed Hrec Hrest IH];
      intros max_bookmark_value w Hmax count.
    + exists max_bookmark_value, count. cbn. rewrite app_nil_r.
      split; [by destruct w|lia].
    + destruct (process_record_emits self bookmark_field last_datetime parent_id
                  max_bookmark_value count record written w Hrec
                  (fun value => Hvalues written value (list_elem_of_here _ _)) Hlast Hmax)
        as (max1 & Hmax1 & Hstep).
      cbn [fold_st]. unfold sbind at 1. rewrite Hstep.
      edestruct (IH (fun wr v Hin => Hvalues wr v (list_elem_of_further _ _ _ Hin)) max1)
        as (new_max & count' & Hfold & Hcount); [exact Hmax1|].
      rewrite Hfold. exists new_max, count'. cbn [requests sink List.filter].
      fold full_table. fold full_table in Hcount.
      destruct (emitted full_table (bookmark_of bookmark_field written) last_datetime).
      * cbn [length fmap list_fmap]. rewrite <- app_assoc.
        split; [done|]. revert Hcount. clear.
        generalize (ready_to_log (World (requests w)
                                    (sink w ++ [(tap_stream_id self, written)]))).
        intros [|]; lia.
      * rewrite app_nil_r. by split.
  - intros Hfull. subst out full_table. rewrite bool_decide_eq_true_2 by done.
    clear Hprep Hvalues. induction transformed as [|x xs IH]; [done|].
    cbn [List.filter]. unfold emitted at 1. cbn [orb]. by rewrite IH.
  - intros Hinc written Hin. subst out full_table.
    rewrite bool_decide_eq_false_2 by done.
    rewrite list_elem_of_In, filter_In, <- list_elem_of_In. unfold emitted. cbn [orb].
    destruct (bookmark_of bookmark_field written).
    + rewrite Z.leb_le. tauto.
    + tauto.
Qed.

(** C6, as the code has it: for every set of requested URNs and every
    resolver, [resolve] returns a mapping and raises nothing, after one
    request per chunk of codes; every code of a chunk whose request failed
    has an entry; and when every response carries the codes asked for,
    every requested code maps to its fetched name, or to the code itself
    where the response holds no name for it. (A code that a successful
    response does not carry gets no entry.) *)
Theorem resolve_never_raises (kind : resolver_kind) (client : Client)
    (locale : option string) (urns : gset string) (w : world) :
  let codes : gset string := set_map last_segment urns in
  let chunks := if decide (urns = ∅) then [] else chunks_of kind codes in
  ∃ resolved,
    resolve kind client locale urns w
    = (Return resolved,
       World (requests w ++ (chunk_request kind locale <$> chunks)) (sink w))
    ∧ (∀ i chunk e, chunks !! i = Some chunk ->
         client (requests w ++ requests_before kind locale chunks i)
                (chunk_request kind locale chunk) = Failed e ->
         ∀ code, code ∈ chunk -> code ∈ codes ∧ is_Some (resolved !! code))
    ∧ (∀ names, (∀ c n, names c = Some n -> n ≠ "") ->
         (∀ i chunk, chunks !! i = Some chunk ->
            client (requests w ++ requests_before kind locale chunks i)
                   (chunk_request kind locale chunk) = Ok (good_response kind chunk names)) ->
         ∀ code, code ∈ codes -> resolved !! code = Some (named names code)).
Proof.
  intros codes chunks. unfold resolve. subst chunks.
  destruct (decide (urns = ∅)) as [->|Hne].
  - exists ∅. cbn. rewrite app_nil_r. split; [by destruct w|].
    split; [intros i chunk e Hi; by rewrite lookup_nil in Hi|].
    intros names _ _ code Hcode. subst codes. set_solver.
  - destruct (batch_resolve_spec kind client locale codes w)
      as (resolved & Hrun & Hfailed & Hgood).
    exists resolved. split; [exact Hrun|]. split; [|exact Hgood].
    intros i chunk e Hi Hreq code Hcode. split; [|by eapply Hfailed].
    apply elem_of_elements. rewrite <- (concat_chunks_of kind codes).
    apply (elem_of_concat code chunk); [done|].
    by eapply list_elem_of_lookup_2.
Qed.

(** C7, for the resolvers that work in batches (all but the seniorities
    one): with 200 distinct codes and the cap of 150 there are exactly two
    requests, for the first 150 codes and for the other 50; when the first
    is answered with the names and the second fails, the 150 codes map to
    their fetched names and the 50 codes to themselves. *)
Theorem two_batches_second_fails (kind : resolver_kind) (client : Client)
    (locale : option string) (urns : gset string) (w : world)
    (name : string -> string) (e : exn) :
  kind ≠ SenioritiesResolver ->
  let codes : gset string := set_map last_segment urns in
  size codes = 200%nat ->
  let batch1 := take 150 (elements codes) in
  let batch2 := drop 150 (elements codes) in
  (∀ c, name c ≠ "") ->
  client (requests w) (chunk_request kind locale batch1)
    = Ok (good_response kind batch1 (fun c => Some (name c))) ->
  client (requests w ++ [chunk_request kind locale batch1])
         (chunk_request kind locale batch2) = Failed e ->
  ∃ resolved,
    resolve kind client locale urns w
    = (Return resolved,
       World (requests w ++ [chunk_request kind locale batch1;
                             chunk_request kind locale batch2]) (sink w))
    ∧ length batch1 = 150%nat ∧ length batch2 = 50%nat
    ∧ (∀ code, code ∈ codes ↔ code ∈ batch1 ∨ code ∈ batch2)
    ∧ (∀ code, code ∈ batch1 -> resolved !! code = Some (JStr (name code)))
    ∧ (∀ code, code ∈ batch2 -> resolved !! code = Some (JStr code)).
Proof.
  intros Hkind codes Hsize batch1 batch2 Hname Hfirst Hsecond.
  destruct (code_chunks_200 codes Hsize) as (Hchunks & Hlen1 & Hlen2 & Hdisjoint).
  fold batch1 batch2 in Hchunks, Hlen1, Hlen2, Hdisjoint.
  assert (Hurns : urns ≠ ∅).
  { intros ->. subst codes. rewrite set_map_empty, size_empty in Hsize. lia. }
  assert (Hnames : ∀ c n, (fun c => Some (name c)) c = Some n -> n ≠ "").
  { intros c n [= <-]. apply Hname. }
  set (s0 := RState w ∅).
  pose proof (resolve_chunk_good kind client locale batch1 _ s0 Hnames Hfirst) as Hstep1.
  set (m1 := fold_left (fun (m : gmap string json) c =>
                          <[c := named (fun c => Some (name c)) c]> m) batch1 ∅).
  cbn [rs_world rs_resolved s0] in Hstep1. fold m1 in Hstep1.
  set (s1 := RState (World (requests w ++ [chunk_request kind locale batch1]) (sink w)) m1).
  destruct (resolve_chunk_spec kind client locale batch2 s1)
    as (resolved & Hstep2 & _ & Hfailed).
  destruct (Hfailed e Hsecond) as (Hnew & Hold & _).
  cbn [rs_world rs_resolved s1 requests sink] in Hstep2, Hnew, Hold.
  exists resolved. split; [|split; [done|split; [done|split; [|split]]]].
  - unfold resolve. rewrite decide_False by done.
    unfold _batch_resolve, returning_resolved. fold codes.
    assert (Hloop : for_each (code_chunks codes) (resolve_chunk kind client locale) s0
                    = (Return tt,
                       RState (World (requests w ++ [chunk_request kind locale batch1;
                                                     chunk_request kind locale batch2])
                                     (sink w)) resolved)).
    { rewrite Hchunks. cbn [for_each]. unfold sbind at 1. rewrite Hstep1.
      fold s1. unfold sbind. rewrite Hstep2. unfold sret. by rewrite <- app_assoc. }
    destruct kind; try done; fold s0; by rewrite Hloop.
  - intros code. rewrite <- elem_of_elements, <- (take_drop 150 (elements codes)).
    apply elem_of_app.
  - intros code Hcode. apply Hold. unfold m1.
    rewrite fold_insert_lookup, decide_True by done. reflexivity.
  - intros code Hcode. apply Hnew; [done|]. unfold m1.
    rewrite fold_insert_lookup, decide_False; [done|]. by apply Hdisjoint.
Qed.

(** C2: [merge_responses] on pages of records that each have a
    composite key (first pivot value, "year-month-day" of the start date)
    returns one record per key; a field of that record is there when some
    record with the key has it, and its value is that of the last such
    record: union on disjoint fields, the later record on shared ones.
    ([pivot_value_name] is the resolver's when a resolution applies.) *)
Theorem merge_responses_union (pivot : json) (data : list json) (pages : list (list json))
    (es : list (primary_key * dict)) (client : option Client)
    (stream_name : option string) (w : world) :
  Forall2 (fun page elements => py_iter page = Return elements) data pages ->
  Forall2 (fun element kd => composite_key element = Return (fst kd)
                             ∧ decorated pivot element = Return (snd kd))
          (concat pages) es ->
  Forall (fun element => ∀ d, element = JObj d -> NoDup d.*1) (concat pages) ->
  (is_Some (resolution_of client stream_name) ->
   Forall (fun kd => ∃ u, fst (fst kd) = KStr u) es) ->
  ∃ records w',
    merge_responses pivot data client stream_name w = (Return records, w')
    ∧ NoDup records.*1
    ∧ (∀ K, K ∈ records.*1 ↔ K ∈ es.*1)
    ∧ (∀ K f, f ≠ "pivot_value_name" ∨ resolution_of client stream_name = None ->
              field_at f K records = latest_value f K es).
Proof.
  intros Hpages Hes Hraw Hstr.
  pose proof (decorated_all_NoDup pivot _ _ Hes Hraw) as Hnd.
  pose proof (decorated_all_fields pivot _ _ Hes) as Hfields.
  pose proof (merge_responses_spec pivot data pages es client stream_name w
                Hpages Hes Hnd Hstr) as Hspec.
  assert (Hkeys : ∀ K, K ∈ (merge_spec es []).*1 ↔ K ∈ es.*1).
  { intros K. rewrite merge_spec_keys. split; [|by left].
    intros [|Hnil]; [done|by apply elem_of_nil in Hnil]. }
  assert (Hmerged : ∀ K f, field_at f K (merge_spec es []) = latest_value f K es).
  { intros K f. rewrite (merge_spec_field f K es [] Hnd).
    by destruct (latest_value f K es). }
  destruct (resolution_of client stream_name) as [[c [endpoint locale]]|] eqn:Hres.
  - destruct Hspec as (urns & resolved & w' & _ & _ & Hrun).
    exists (with_names resolved (merge_spec es [])), w'.
    split; [exact Hrun|]. rewrite with_names_keys.
    split; [apply merge_spec_NoDup, NoDup_nil_2|]. split; [exact Hkeys|].
    intros K f [Hf|Hnone]; [|discriminate Hnone].
    rewrite <- Hmerged. unfold field_at.
    destruct (al_get K (with_names resolved (merge_spec es []))) as [r|] eqn:Hr.
    + destruct (with_names_record pivot resolved es K r Hnd Hfields
                  (Hstr ltac:(by eexists)) Hr) as (r0 & u & -> & _ & _ & ->).
      by apply dict_get_set_ne.
    + rewrite with_names_get in Hr. by destruct (al_get K (merge_spec es [])).
  - exists (merge_spec es []), w.
    split; [exact Hspec|]. split; [apply merge_spec_NoDup, NoDup_nil_2|].
    split; [exact Hkeys|]. intros K f _. apply Hmerged.
Qed.

(** C10, as the code has it: every record that [merge_responses] returns
    carries [pivot], equal to the argument, and [pivot_value], equal to the
    first element of its [pivotValues]; when a client is given and the
    stream has a resolution configuration, every record also carries
    [pivot_value_name]: the name the resolver returned for the last
    segment of its pivot value, or that segment itself when it returned
    none. *)
Theorem merge_responses_pivot (pivot : json) (data : list json) (pages : list (list json))
    (es : list (primary_key * dict)) (client : option Client)
    (stream_name : option string) (w : world) :
  Forall2 (fun page elements => py_iter page = Return elements) data pages ->
  Forall2 (fun element kd => composite_key element = Return (fst kd)
                             ∧ decorated pivot element = Return (snd kd))
          (concat pages) es ->
  Forall (fun element => ∀ d, element = JObj d -> NoDup d.*1) (concat pages) ->
  (is_Some (resolution_of client stream_name) ->
   Forall (fun kd => ∃ u, fst (fst kd) = KStr u) es) ->
  ∃ records w',
    merge_responses pivot data client stream_name w = (Return records, w')
    ∧ (∀ K r, al_get K records = Some r ->
         dict_get "pivot" r = Some pivot
         ∧ ∃ pivotValues pivot_value,
             dict_get "pivotValues" r = Some pivotValues
             ∧ py_first pivotValues = Return pivot_value
             ∧ dict_get "pivot_value" r = Some pivot_value)
    ∧ (∀ c endpoint locale,
         resolution_of client stream_name = Some (c, (endpoint, locale)) ->
         ∃ urns resolved,
           (∀ u, u ∈ urns ↔ KStr u ∈ (fst ∘ fst <$> es))
           ∧ resolve_urns c urns endpoint locale w = (Return resolved, w')
           ∧ ∀ K r, al_get K records = Some r ->
               ∃ u, dict_get "pivot_value" r = Some (JStr u)
                    ∧ dict_get "pivot_value_name" r
                      = Some (default (JStr (last_segment u))
                                      (resolved !! last_segment u))).
Proof.
  intros Hpages Hes Hraw Hstr.
  pose proof (decorated_all_NoDup pivot _ _ Hes Hraw) as Hnd.
  pose proof (decorated_all_fields pivot _ _ Hes) as Hfields.
  pose proof (merge_responses_spec pivot data pages es client stream_name w
                Hpages Hes Hnd Hstr) as Hspec.
  destruct (resolution_of client stream_name) as [[c [endpoint locale]]|] eqn:Hres.
  - destruct Hspec as (urns & resolved & w' & Hurns & Hresolve & Hrun).
    specialize (Hstr ltac:(by eexists)).
    exists (with_names resolved (merge_spec es [])), w'.
    split; [exact Hrun|]. split.
    + intros K r Hr.
      destruct (with_names_record pivot resolved es K r Hnd Hfields Hstr Hr)
        as (r0 & u & _ & (pvs & pv & Hpvs & Hfirst & Hpv & Hpivot & _) & _ & ->).
      dict_get_set. split; [done|]. by exists pvs, pv.
    + intros c' endpoint' locale' [= <- <- <-].
      exists urns, resolved. split; [exact Hurns|]. split; [exact Hresolve|].
      intros K r Hr.
      destruct (with_names_record pivot resolved es K r Hnd Hfields Hstr Hr)
        as (r0 & u & _ & _ & Hpv & ->).
      exists u. dict_get_set. done.
  - exists (merge_spec es []), w. split; [exact Hspec|]. split; [|done].
    intros K r Hr.
    destruct (merge_spec_pivot_fields pivot es K r Hnd Hfields Hr)
      as (pvs & pv & Hpvs & Hfirst & Hpv & Hpivot & _).
    split; [done|]. by exists pvs, pv.
Qed.

(** C8: the next URL. For a stream of the token list: no token in the
    metadata ends the pagination; a token is appended as [pageToken] when
    the URL has no such parameter, and replaces the value of the
    [pageToken] parameter when it has one. For the other streams: without
    a [next] link the pagination ends; the href of the [next] link is put
    after the API host as it is when it holds [rest/creatives] or
    [rest/posts], and percent-decoded otherwise. *)
Theorem get_next_url_cursor (stream_name next_url : string) (data : json) :
  (stream_name ∈ CURSOR_BASED_PAGINATION_STREAMS ->
   ∀ metadata token,
     py_get data "metadata" (JObj []) = Return metadata ->
     py_get metadata "nextPageToken" JNull = Return token ->
     (py_truthy token = false -> get_next_url stream_name next_url data = Return None)
     ∧ (py_truthy token = true -> str_contains "\" (py_str token) = false ->
        (str_contains "pageToken=" next_url = false ->
         get_next_url stream_name next_url data
         = Return (Some (next_url +:+ "&pageToken=" +:+ py_str token)))
        ∧ (∀ pre old rest,
             next_url = pre +:+ "pageToken=" +:+ old +:+ rest ->
             str_contains "pageToken=" pre = false ->
             old ≠ "" -> str_contains "&" old = false ->
             (rest = "" ∨ ∃ rest', rest = String "&" rest') ->
             str_contains "pageToken=" rest = false ->
             get_next_url stream_name next_url data
             = Return (Some (pre +:+ "pageToken=" +:+ py_str token +:+ rest)))))
  ∧ (stream_name ∉ CURSOR_BASED_PAGINATION_STREAMS ->
     ∀ paging links items,
       py_get data "paging" (JObj []) = Return paging ->
       py_get paging "links" (JArr []) = Return links ->
       py_iter links = Return items ->
       (Forall not_next items -> get_next_url stream_name next_url data = Return None)
       ∧ (∀ before link after href,
            items = before ++ JObj link :: after ->
            Forall not_next before -> Forall not_next after ->
            dict_get "rel" link = Some (JStr "next") ->
            dict_get "href" link = Some (JStr href) -> href ≠ "" ->
            get_next_url stream_name next_url data
            = Return (Some (API_HOST +:+
                            (if str_contains "rest/creatives" href
                                || str_contains "rest/posts" href
                             then href else unquote href))))).
Proof.
  split.
  - intros Hstream metadata token Hmeta Htoken. unfold get_next_url.
    rewrite bool_decide_eq_true_2, Hmeta by done. cbn [obind]. rewrite Htoken. cbn [obind].
    split; [by intros ->|]. intros -> Hescape. split.
    + by intros ->.
    + intros pre old rest -> Hpre Hold Hamp Hrest Hno.
      rewrite str_contains_app.
      by rewrite (re_sub_page_token_replaces _ pre old rest).
  - intros Hstream paging links items Hpaging Hlinks Hitems. unfold get_next_url.
    rewrite bool_decide_eq_false_2, Hpaging by done. cbn [obind].
    rewrite Hlinks. cbn [obind]. rewrite Hitems. cbn [obind]. split.
    + intros Hnone. rewrite <- (app_nil_r items). by rewrite scan_links_not_next.
    + intros before link after href -> Hbefore Hafter Hrel Hhref Hne.
      rewrite scan_links_not_next by done.
      cbn [scan_links py_get obind]. rewrite Hrel, Hhref. cbn [default id is_next].
      change (String.eqb "next" "next") with true. cbv iota.
      assert (Htruthy : py_truthy (JStr href) = true).
      { cbn. by destruct (String.eqb_spec href ""). }
      rewrite Htruthy. cbn [py_contains obind].
      destruct (str_contains "rest/creatives" href); cbn [obind orb py_str]; [done|].
      destruct (str_contains "rest/posts" href); cbn [obind unquote_href]; [done|].
      rewrite <- (app_nil_r after). by rewrite scan_links_not_next.
Qed.

(** C9: when the sync of [video_ads] raises an error whose message holds
    the permission text, [VideoAds.sync_endpoint] returns the count 0 and
    the bookmark of the stream as it is stored in the state (the start date
    when none is stored); an error without that text is raised again
    unchanged, and a sync that returns is passed through. *)
Theorem video_ads_permission_error (fuel : nat) (kw : sync_kwargs) (w : world) :
  (∀ error w',
     sync_endpoint fuel VideoAds kw w = (Raise error, w') ->
     (str_contains PERMISSION_DENIED (exn_str error) = true ->
      VideoAds_sync_endpoint fuel kw w
      = (Return (O, get_bookmark VideoAds (kw_state kw) (kw_start_date kw)), w'))
     ∧ (str_contains PERMISSION_DENIED (exn_str error) = false ->
        VideoAds_sync_endpoint fuel kw w = (Raise error, w')))
  ∧ (∀ st stored bookmark,
       kw_state kw = Some st -> bookmarks st = Some stored ->
       stored !! "video_ads" = Some bookmark ->
       get_bookmark VideoAds (kw_state kw) (kw_start_date kw) = bookmark)
  ∧ (∀ st, kw_state kw = Some st ->
       (∀ stored, bookmarks st = Some stored -> stored !! "video_ads" = None) ->
       get_bookmark VideoAds (kw_state kw) (kw_start_date kw) = kw_start_date kw)
  ∧ (∀ result w',
       sync_endpoint fuel VideoAds kw w = (Return result, w') ->
       VideoAds_sync_endpoint fuel kw w = (Return result, w')).
Proof.
  unfold VideoAds_sync_endpoint, try_except.
  split; [|split; [|split]].
  - intros error w' Hraise. rewrite Hraise. split; intros Htext; by rewrite Htext.
  - intros st stored bookmark -> Hst Hstored. unfold get_bookmark.
    rewrite Hst. change (tap_stream_id VideoAds) with "video_ads". by rewrite Hstored.
  - intros st -> Hnone. unfold get_bookmark.
    destruct (bookmarks st) as [stored|]; [|done].
    change (tap_stream_id VideoAds) with "video_ads". by rewrite (Hnone stored eq_refl).
  - intros result w' ->. reflexivity.
Qed.

(** * Further properties *)

(** ** Chunks *)

(** [range(0, len, n)], by [n], cuts a list into full chunks and a rest. *)
Lemma chunks_spec {A} (l : list A) (n : nat) :
  (0 < n)%nat ->
  let chunks := (fun x => take n (drop x l)) <$> py_range (length l) n in
  concat chunks = l
  ∧ ∀ i chunk, chunks !! i = Some chunk ->
      (0 < length chunk <= n)%nat
      ∧ (S i < length chunks -> length chunk = n)%nat.
Proof.
  forget_externals.
  intros Hn chunks. subst chunks. unfold py_range. rewrite <- list_fmap_compose.
  set (len := length l).
  pose proof (Nat.div_mod_eq (len + n - 1) n) as Hdiv.
  pose proof (Nat.mod_upper_bound (len + n - 1) n ltac:(lia)) as Hmod.
  set (k := ((len + n - 1) / n)%nat) in *.
  split; [apply (concat_chunks n); [done|fold len; lia]|].
  intros i chunk Hi. rewrite length_fmap, length_seq.
  apply list_lookup_fmap_Some in Hi as (j & -> & Hj).
  apply lookup_seq in Hj as [-> Hlt]. cbn.
  rewrite length_take, length_drop. fold len. nia.
Qed.

(** X1: [split_into_chunks] refuses a chunk length of zero; for a
    positive one the chunks, put end to end, are the list, no chunk is
    empty or longer than the chunk length, and every chunk but the last
    is full. *)
Theorem split_into_chunks_partition {A} (fields : list A) (chunk_length : nat) :
  (chunk_length = 0%nat ->
   split_into_chunks fields chunk_length = Raise (ValueError "range() arg 3 must not be zero"))
  ∧ ((0 < chunk_length)%nat ->
     ∃ chunks,
       split_into_chunks fields chunk_length = Return chunks
       ∧ concat chunks = fields
       ∧ ∀ i chunk, chunks !! i = Some chunk ->
           (0 < length chunk <= chunk_length)%nat
           ∧ (S i < length chunks -> length chunk = chunk_length)%nat).
Proof.
  forget_externals.
  split; [by intros ->|]. intros Hn.
  destruct (chunks_spec fields chunk_length Hn) as [Hconcat Hlen].
  eexists. split; [|split; [exact Hconcat|exact Hlen]].
  unfold split_into_chunks. destruct chunk_length; [lia|reflexivity].
Qed.

Lemma elem_of_concat_inv {A} (x : A) (ls : list (list A)) :
  x ∈ concat ls -> ∃ l, x ∈ l ∧ l ∈ ls.
Proof.
  forget_externals.
  induction ls as [|l0 ls IH]; cbn; [by intros ?%elem_of_nil|].
  intros [Hx|Hx]%elem_of_app.
  - exists l0. split; [done|by left].
  - destruct (IH Hx) as (l & Hl & Hls). exists l. split; [done|by right].
Qed.

Lemma append_key_fields_length chunk :
  (length (append_key_fields chunk) <= length chunk + 2)%nat.
Proof.
  forget_externals.
  unfold append_key_fields; simpl.
  repeat case_bool_decide; rewrite ?length_app; simpl; lia.
Qed.

Lemma append_key_fields_elem chunk f :
  f ∈ append_key_fields chunk ↔ f ∈ chunk ∨ f = "dateRange" ∨ f = "pivotValues".
Proof.
  forget_externals.
  unfold append_key_fields; simpl.
  repeat case_bool_decide; set_solver.
Qed.

(** X2: whatever the selected fields, every chunk of an analytics request
    has at most 20 fields, [dateRange] and [pivotValues] among them; every
    selected field is in some chunk, and the chunks hold nothing but the
    selected fields and those two. *)
Theorem analytics_chunks_fit (fields : list string) :
  ∃ chunks,
    analytics_chunks fields = Return chunks
    ∧ Forall (fun chunk => (length chunk <= 20)%nat
                           ∧ "dateRange" ∈ chunk ∧ "pivotValues" ∈ chunk) chunks
    ∧ (∀ f, f ∈ fields -> ∃ chunk, chunk ∈ chunks ∧ f ∈ chunk)
    ∧ (∀ chunk f, chunk ∈ chunks -> f ∈ chunk ->
         f ∈ fields ∨ f = "dateRange" ∨ f = "pivotValues").
Proof.
  forget_externals.
  destruct (chunks_spec fields MAX_CHUNK_LENGTH ltac:(unfold MAX_CHUNK_LENGTH; lia))
    as [Hconcat Hlen].
  set (rest := (fun x => take MAX_CHUNK_LENGTH (drop x fields))
                 <$> py_range (length fields) MAX_CHUNK_LENGTH) in *.
  exists (append_key_fields <$> (["dateRange"; "pivotValues"] :: rest)).
  split; [reflexivity|]. split; [|split].
  - apply Forall_fmap, Forall_cons. split.
    + unfold compose. split; [|apply append_key_fields_has].
      pose proof (append_key_fields_length ["dateRange"; "pivotValues"]) as Hle.
      cbn [length] in Hle. lia.
    + apply Forall_lookup. intros i chunk Hi. unfold compose.
      destruct (Hlen i chunk Hi) as [Hle _].
      pose proof (append_key_fields_length chunk).
      unfold MAX_CHUNK_LENGTH in Hle.
      split; [lia|apply append_key_fields_has].
  - intros f Hf. rewrite <- Hconcat in Hf.
    apply elem_of_concat_inv in Hf as (chunk & Hf & Hchunk).
    exists (append_key_fields chunk). split.
    + apply list_elem_of_fmap. exists chunk. split; [done|by right].
    + apply append_key_fields_elem. by left.
  - intros chunk f Hchunk Hf.
    apply list_elem_of_fmap in Hchunk as (raw & -> & Hraw).
    apply append_key_fields_elem in Hf as [Hf|Hf]; [|by right].
    apply elem_of_cons in Hraw as [->|Hraw].
    + right. set_solver.
    + left. rewrite <- Hconcat. by apply (elem_of_concat f raw).
Qed.

(** ** Date windows *)

Lemma ltb_min (a b : Z) : (if a <? b then a else b) = Z.min a b.
Proof. forget_externals. destruct (Z.ltb_spec a b); lia. Qed.

(** X3: the first window of an analytics sync. Its end is the start
    shifted by the window size, but not after today; its start is the date
    asked for, but not after that end: [start <= end <= today] from the
    very first window. *)
Theorem first_window_invariant (window_start_date date_window_size today : Z) :
  Z.abs date_window_size <= 999999999 ->
  0 < window_start_date + date_window_size <= _MAXORDINAL ->
  ∃ start end_,
    first_window window_start_date date_window_size today = Return (start, end_)
    ∧ end_ = Z.min today (window_start_date + date_window_size)
    ∧ start = Z.min window_start_date end_
    ∧ start <= end_ <= today.
Proof.
  forget_externals.
  intros Hdelta Hrange. unfold first_window, timedelta_days, date_add.
  replace (Z.abs date_window_size <=? 999999999) with true
    by (symmetry; apply Z.leb_le; lia).
  cbn [obind].
  replace (0 <? window_start_date + date_window_size) with true
    by (symmetry; apply Z.ltb_lt; lia).
  replace (window_start_date + date_window_size <=? _MAXORDINAL) with true
    by (symmetry; apply Z.leb_le; lia).
  cbn [andb obind]. rewrite !ltb_min. eexists _, _. split; [reflexivity|]. lia.
Qed.

Lemma with_date_range_other (params : dict) (start end_ : date) (k : string) :
  k ∉ DATE_RANGE_KEYS ->
  dict_get k (with_date_range params start end_) = dict_get k params.
Proof.
  forget_externals.
  intros Hk. unfold with_date_range.
  repeat rewrite dict_update_cons. change (dict_update ?d []) with d.
  cbn [fst snd].
  rewrite !dict_get_set_ne; [done|..]; intros ->; apply Hk;
    by apply (bool_decide_unpack _).
Qed.

Lemma with_date_range_keys (params : dict) (start end_ : date) (k : string) :
  k ∈ params.*1 -> k ∈ (with_date_range params start end_).*1.
Proof.
  forget_externals.
  intros Hk. unfold with_date_range.
  repeat rewrite dict_update_cons. change (dict_update ?d []) with d.
  cbn [fst snd]. unfold dict_set.
  repeat (apply al_set_elem_of_keys; right). done.
Qed.

(** X4: [shift_sync_window] needs the end of the window in [params] (a
    missing year is a [KeyError]); when it returns, the new parameters have
    every key of the old ones, and every parameter other than the six
    date-range ones keeps its value. *)
Theorem shift_sync_window_other_params (params : dict) (today date_window_size : Z)
    (forced_window_size : option Z) :
  (dict_get "dateRange.end.year" params = None ->
   shift_sync_window params today date_window_size forced_window_size
   = Raise (KeyError "dateRange.end.year"))
  ∧ (∀ start end_ new_params,
       shift_sync_window params today date_window_size forced_window_size
       = Return (start, end_, new_params) ->
       (∀ k, k ∈ params.*1 -> k ∈ new_params.*1)
       ∧ (∀ k, k ∉ DATE_RANGE_KEYS -> dict_get k new_params = dict_get k params)).
Proof.
  forget_externals.
  unfold shift_sync_window. split.
  - intros Hyear. cbn [py_getitem]. by rewrite Hyear.
  - intros start end_ new_params Hshift. obind_in Hshift.
    injection Hshift as <- <- <-. split.
    + intros k. apply with_date_range_keys.
    + intros k. apply with_date_range_other.
Qed.

(** X5: the loop over the date windows ends. With a positive window size,
    the end of the window in the parameters and each window's sync ending
    (with a result or an error), the loop needs at most one pass per day
    between the end of the first window and today, and one more: with that
    much fuel it never runs out. *)
Theorem window_loop_terminates (fuel page_fuel : nat) (client : Client) (self : stream)
    (chunks : list (list string)) (bookmark_field : string)
    (last_datetime : json) (last_datetime_dt : Z) (parent_id : json)
    (today : date) (date_window_size : Z) (window_end_date : date) (static_params : dict)
    (total_records : nat) (max_bookmark_value : json) (w : world) :
  0 < date_window_size ->
  date_valid window_end_date ->
  dict_get "dateRange.end.day" static_params = Some (JNum (date_day window_end_date)) ->
  dict_get "dateRange.end.month" static_params = Some (JNum (date_month window_end_date)) ->
  dict_get "dateRange.end.year" static_params = Some (JNum (date_year window_end_date)) ->
  (∀ static_params' total_records' max_bookmark_value' w',
     fst (sync_window page_fuel client self chunks bookmark_field last_datetime
            last_datetime_dt parent_id static_params' total_records'
            max_bookmark_value' w') ≠ Timeout) ->
  (Z.to_nat (today - window_end_date) < fuel)%nat ->
  fst (window_loop fuel page_fuel client self chunks bookmark_field last_datetime
         last_datetime_dt parent_id today date_window_size window_end_date
         static_params total_records max_bookmark_value w) ≠ Timeout.
Proof.
  intros Hsize Hvalid Hday Hmonth Hyear Hsync.
  revert window_end_date static_params total_records max_bookmark_value w
         Hvalid Hday Hmonth Hyear.
  induction fuel as [|fuel IH];
    intros end_ static total maxb w Hvalid Hday Hmonth Hyear Hfuel; [lia|].
  cbn [window_loop].
  destruct (Z.leb_spec end_ today) as [Hle|Hgt]; [|done].
  unfold sbind at 1.
  pose proof (Hsync static total maxb w) as Hends.
  destruct (sync_window page_fuel client self chunks bookmark_field last_datetime
              last_datetime_dt parent_id static total maxb w) as [[r|e|] w1] eqn:Hrun;
    [|done|done].
  clear Hends.
  assert (Hkeep : ∀ k, k ≠ "fields" -> dict_get k (fst (fst r)) = dict_get k static).
  { intros k Hk. by eapply sync_window_params. }
  unfold shift_sync_window. cbn [py_getitem].
  rewrite !Hkeep, Hyear, Hmonth, Hday by done. cbn [obind].
  rewrite (date_new_of_date end_ Hvalid). cbn [obind].
  unfold timedelta_days. destruct (Z.abs date_window_size <=? 999999999); [|done].
  cbn [obind]. unfold date_add.
  destruct (Z.ltb_spec 0 (end_ + date_window_size)); [|done].
  destruct (Z.leb_spec (end_ + date_window_size) _MAXORDINAL); [|done].
  cbn [andb obind]. rewrite sbind_liftO_Return. cbn [fst snd].
  destruct (Z.eqb_spec end_ (Z.min today (end_ + date_window_size))) as [Heq|Hne]; [done|].
  destruct (with_date_range_window (fst (fst r)) end_ (Z.min today (end_ + date_window_size)))
    as (_ & _ & _ & Hday' & Hmonth' & Hyear').
  apply IH; try assumption; unfold date_valid in *; lia.
Qed.

(** X18: the last pass of the loop over the date windows. When the
    window ends today, or when the window size is 0, the shift leaves the
    end of the window where it is, and the loop returns after the sync of
    that one window. *)
Theorem window_loop_last_pass (fuel page_fuel : nat) (client : Client) (self : stream)
    (chunks : list (list string)) (bookmark_field : string)
    (last_datetime : json) (last_datetime_dt : Z) (parent_id : json)
    (today : date) (date_window_size : Z) (window_end_date : date) (static_params : dict)
    (total_records : nat) (max_bookmark_value : json) (w : world) :
  date_valid window_end_date ->
  window_end_date <= today ->
  dict_get "dateRange.end.day" static_params = Some (JNum (date_day window_end_date)) ->
  dict_get "dateRange.end.month" static_params = Some (JNum (date_month window_end_date)) ->
  dict_get "dateRange.end.year" static_params = Some (JNum (date_year window_end_date)) ->
  0 <= date_window_size ->
  window_end_date + date_window_size <= _MAXORDINAL ->
  window_end_date = today ∨ date_window_size = 0 ->
  window_loop (S fuel) page_fuel client self chunks bookmark_field last_datetime
    last_datetime_dt parent_id today date_window_size window_end_date static_params
    total_records max_bookmark_value w
  = (done <~ sync_window page_fuel client self chunks bookmark_field last_datetime
               last_datetime_dt parent_id static_params total_records max_bookmark_value ;;
     sret (snd (fst done), snd done)) w.
Proof.
  intros Hvalid Hle Hday Hmonth Hyear Hsize Hmax Hlast.
  cbn [window_loop].
  replace (window_end_date <=? today) with true by (symmetry; apply Z.leb_le; lia).
  apply sbind_ext. intros done w1 Hdone.
  rewrite (shift_sync_window_eq _ window_end_date today date_window_size None
             date_window_size);
    try rewrite (sync_window_params _ _ _ _ _ _ _ _ _ _ _ _ _ _ _ Hdone) by done;
    try done.
  rewrite sbind_liftO_Return. cbn [fst snd].
  replace (window_end_date =? Z.min today (window_end_date + date_window_size)) with true;
    [reflexivity|].
  symmetry. apply Z.eqb_eq. lia.
Qed.

(** ** Pagination *)

Lemma prefix_snoc (p s : string) (c : ascii) :
  str_contains (String c "") p = false ->
  String.prefix p (s +:+ String c "") = String.prefix p s.
Proof.
  forget_externals.
  revert s. induction p as [|a p IH]; intros s Hc; [by destruct s|].
  cbn [str_contains String.prefix] in Hc. apply orb_false_elim in Hc as [Ha Hp].
  destruct s as [|b s].
  - rewrite str_app_nil_l. cbn [String.prefix].
    destruct (ascii_dec c a) as [->|Hne]; [by destruct p|].
    destruct (ascii_dec a c) as [->|]; [done|reflexivity].
  - rewrite str_app_cons. cbn [String.prefix].
    destruct (ascii_dec a b); [by apply IH|reflexivity].
Qed.

Lemma str_contains_snoc (p s : string) (c : ascii) :
  p ≠ "" ->
  str_contains (String c "") p = false ->
  str_contains p (s +:+ String c "") = str_contains p s.
Proof.
  forget_externals.
  intros Hp Hc. induction s as [|b s IH].
  - rewrite str_app_nil_l. cbn [str_contains].
    rewrite <- (str_app_nil_l (String c "")), (prefix_snoc p "" c Hc).
    by destruct p.
  - rewrite str_app_cons. cbn [str_contains]. rewrite IH. f_equal.
    rewrite <- str_app_cons. by apply prefix_snoc.
Qed.

(** X6: two pages of a token stream. The token of the first page is
    appended to a URL without [pageToken]; the token of the second page
    then takes its place, so that the URL is the one that appending the
    second token to the first URL gives: one [pageToken] parameter,
    however many pages. *)
Theorem get_next_url_token_chain (stream_name next_url t1 t2 : string)
    (data1 data2 metadata1 metadata2 : json) :
  stream_name ∈ CURSOR_BASED_PAGINATION_STREAMS ->
  str_contains "pageToken=" next_url = false ->
  py_get data1 "metadata" (JObj []) = Return metadata1 ->
  py_get metadata1 "nextPageToken" JNull = Return (JStr t1) ->
  py_get data2 "metadata" (JObj []) = Return metadata2 ->
  py_get metadata2 "nextPageToken" JNull = Return (JStr t2) ->
  t1 ≠ "" -> str_contains "&" t1 = false ->
  t2 ≠ "" -> str_contains "\" t2 = false ->
  let url1 := next_url +:+ "&pageToken=" +:+ t1 in
  get_next_url stream_name next_url data1 = Return (Some url1)
  ∧ get_next_url stream_name url1 data2
    = Return (Some (next_url +:+ "&pageToken=" +:+ t2)).
Proof.
  intros Hstream Hno Hm1 Ht1 Hm2 Ht2 Hne1 Hamp Hne2 Hescape url1.
  assert (Htruthy : ∀ t, t ≠ "" -> py_truthy (JStr t) = true).
  { intros t Ht. cbn. by destruct (String.eqb_spec t ""). }
  unfold get_next_url. rewrite bool_decide_eq_true_2 by done.
  rewrite Hm1, Hm2. cbn [obind]. rewrite Ht1, Ht2. cbn [obind].
  rewrite !Htruthy by done. rewrite Hno. split; [reflexivity|].
  assert (Hurl : url1 = (next_url +:+ "&") +:+ "pageToken=" +:+ t1 +:+ "").
  { unfold url1. by rewrite str_app_assoc, str_app_nil_r. }
  rewrite Hurl at 1. rewrite str_contains_app.
  rewrite Hurl, (re_sub_page_token_replaces _ (next_url +:+ "&") t1 "");
    [|done|by rewrite str_contains_snoc|done|done|by left|done].
  cbn [obind py_str]. by rewrite str_app_nil_r, str_app_assoc.
Qed.

(** ** Response merger, further *)

Lemma merge_pages_empty (pivot : json) (resolving : bool) (data : list json) :
  Forall (fun page => py_iter page = Return []) data ->
  merge_pages pivot resolving data = Return ([], ∅).
Proof.
  intros Hdata. unfold merge_pages.
  generalize (@nil (primary_key * dict), (∅ : gset pykey)).
  induction Hdata as [|page data Hpage _ IH]; intros st; [reflexivity|].
  cbn [fold_outcome]. rewrite Hpage. cbn [obind fold_outcome]. apply IH.
Qed.

(** X7: pages without records merge to no record, and no lookup request
    is made for them, with or without a client, whatever the stream. *)
Theorem merge_responses_no_records (pivot : json) (data : list json)
    (client : option Client) (stream_name : option string) (w : world) :
  Forall (fun page => py_iter page = Return []) data ->
  merge_responses pivot data client stream_name w = (Return [], w).
Proof.
  intros Hdata. unfold merge_responses.
  rewrite (merge_pages_empty _ _ _ Hdata). unfold sbind at 1, liftO at 1. cbn [fst snd].
  destruct (resolution_of client stream_name) as [[c [endpoint locale]]|] eqn:Hres;
    [|reflexivity].
  destruct (resolution_of_resolver _ _ _ _ _ Hres) as (_ & kind & Hkind).
  unfold urn_strings. rewrite elements_empty. cbn [map_outcome obind list_to_set].
  rewrite sbind_liftO_Return. unfold sbind at 1.
  unfold resolve_urns. rewrite Hkind, sbind_liftO_Return.
  unfold resolve. rewrite decide_True by done. reflexivity.
Qed.

Lemma latest_value_app (f : string) (K : primary_key) (es1 es2 : list (primary_key * dict)) :
  latest_value f K (es1 ++ es2)
  = match latest_value f K es2 with
    | Some v => Some v
    | None => latest_value f K es1
    end.
Proof.
  forget_externals.
  induction es1 as [|[K1 d1] es1 IH]; cbn [app latest_value].
  - by destruct (latest_value f K es2).
  - rewrite IH. by destruct (latest_value f K es2).
Qed.

(** A field of a record with its name depends on the fields of the record
    alone. *)
Lemma with_names_field (resolved : gmap string json)
    (records again : list (primary_key * dict)) (K : primary_key) :
  (K ∈ again.*1 ↔ K ∈ records.*1) ->
  (∀ f, field_at f K again = field_at f K records) ->
  ∀ f, field_at f K (with_names resolved again)
       = field_at f K (with_names resolved records).
Proof.
  forget_externals.
  intros Hkeys Hfields f. unfold field_at in *. rewrite !with_names_get.
  destruct (al_get K again) as [r2|] eqn:H2, (al_get K records) as [r1|] eqn:H1;
    cbn [fmap option_fmap option_map].
  - pose proof (Hfields "pivot_value") as Hpv. cbn in Hpv. rewrite Hpv.
    destruct (dict_get "pivot_value" r1) as [[| | |u| |]|]; try apply Hfields.
    rewrite !dict_get_set. case_decide; [done|apply Hfields].
  - apply al_get_Some_keys in H2. apply al_get_None in H1. tauto.
  - apply al_get_Some_keys in H1. apply al_get_None in H2. tauto.
  - done.
Qed.

(** X8: merging is idempotent. When every page comes a second time (in
    copies of its own), the merged records have the same keys and, field
    by field, the same values, and the same lookups are made. *)
Theorem merge_responses_idempotent (pivot : json) (data : list json)
    (pages : list (list json)) (es : list (primary_key * dict))
    (client : option Client) (stream_name : option string) (w : world) :
  Forall2 (fun page elements => py_iter page = Return elements) data pages ->
  Forall2 (fun element kd => composite_key element = Return (fst kd)
                             ∧ decorated pivot element = Return (snd kd))
          (concat pages) es ->
  Forall (fun element => ∀ d, element = JObj d -> NoDup d.*1) (concat pages) ->
  (is_Some (resolution_of client stream_name) ->
   Forall (fun kd => ∃ u, fst (fst kd) = KStr u) es) ->
  ∃ records again w',
    merge_responses pivot data client stream_name w = (Return records, w')
    ∧ merge_responses pivot (data ++ data) client stream_name w = (Return again, w')
    ∧ (∀ K, K ∈ again.*1 ↔ K ∈ records.*1)
    ∧ (∀ K f, field_at f K again = field_at f K records).
Proof.
  forget_externals.
  intros Hpages Hes Hraw Hstr.
  pose proof (decorated_all_NoDup pivot _ _ Hes Hraw) as Hnd.
  assert (Hpages2 : Forall2 (fun page elements => py_iter page = Return elements)
                      (data ++ data) (pages ++ pages)) by by apply Forall2_app.
  assert (Hes2 : Forall2 (fun element kd => composite_key element = Return (fst kd)
                                            ∧ decorated pivot element = Return (snd kd))
                   (concat (pages ++ pages)) (es ++ es)).
  { rewrite concat_app. by apply Forall2_app. }
  assert (Hnd2 : Forall (fun kd => NoDup (snd kd).*1) (es ++ es)) by by apply Forall_app.
  assert (Hstr2 : is_Some (resolution_of client stream_name) ->
                  Forall (fun kd => ∃ u, fst (fst kd) = KStr u) (es ++ es)).
  { intros Hres. apply Forall_app. by split; apply Hstr. }
  pose proof (merge_responses_spec pivot data pages es client stream_name w
                Hpages Hes Hnd Hstr) as Hone.
  pose proof (merge_responses_spec pivot (data ++ data) (pages ++ pages) (es ++ es)
                client stream_name w Hpages2 Hes2 Hnd2 Hstr2) as Htwo.
  assert (Hkeys : ∀ K, K ∈ (merge_spec (es ++ es) []).*1 ↔ K ∈ (merge_spec es []).*1).
  { intros K. rewrite !merge_spec_keys, fmap_app, elem_of_app. tauto. }
  assert (Hfields : ∀ K f, field_at f K (merge_spec (es ++ es) [])
                           = field_at f K (merge_spec es [])).
  { intros K f. rewrite !merge_spec_field, latest_value_app by done.
    by destruct (latest_value f K es). }
  destruct (resolution_of client stream_name) as [[c [endpoint locale]]|].
  - destruct Hone as (urns & resolved & w' & Hurns & Hresolve & Hrun).
    destruct Htwo as (urns2 & resolved2 & w2 & Hurns2 & Hresolve2 & Hrun2).
    assert (urns2 = urns) as ->.
    { apply set_eq. intros u. rewrite Hurns, Hurns2, fmap_app, elem_of_app. tauto. }
    rewrite Hresolve in Hresolve2. injection Hresolve2 as <- <-.
    eexists _, _, w'. split; [exact Hrun|]. split; [exact Hrun2|]. split.
    + intros K. rewrite !with_names_keys. apply Hkeys.
    + intros K f. apply with_names_field; [apply Hkeys|apply Hfields].
  - eexists _, _, w. split; [exact Hone|]. split; [exact Htwo|]. by split.
Qed.

(** ** Record filter, further *)

Lemma json_null_dec (x : json) : x = JNull ∨ x ≠ JNull.
Proof. forget_externals. destruct x; (by left) || (by right). Qed.

(** [track_max] keeps the later of the two timestamps. *)
Lemma track_max_spec (max_bookmark_value value : json) :
  ¬ is_Ok (strptime_to_utc JNull) ->
  max_bookmark_value = JNull ∨ is_Ok (strptime_to_utc max_bookmark_value) ->
  is_Ok (strptime_to_utc value) ->
  ∃ new_max,
    track_max max_bookmark_value value = Return new_max
    ∧ is_Ok (strptime_to_utc new_max)
    ∧ (new_max = value ∨ new_max = max_bookmark_value)
    ∧ instant value <= instant new_max
    ∧ (max_bookmark_value ≠ JNull -> instant max_bookmark_value <= instant new_max).
Proof.
  forget_externals.
  intros Hnull Hmax [new Hnew]. unfold track_max.
  destruct Hmax as [->|[old Hold]].
  { exists value. repeat split; [by exists new|by left|lia|done]. }
  destruct (json_null_dec max_bookmark_value) as [->|Hne].
  { exfalso. apply Hnull. by exists old. }
  assert (Hrun : (new' <- liftR (strptime_to_utc value) ;;
                  old' <- liftR (strptime_to_utc max_bookmark_value) ;;
                  Return (if old' <? new' then value else max_bookmark_value))
                 = Return (if old <? new then value else max_bookmark_value)).
  { by rewrite Hnew, Hold. }
  exists (if old <? new then value else max_bookmark_value).
  split; [by destruct max_bookmark_value|].
  unfold instant. rewrite Hnew, Hold.
  destruct (Z.ltb_spec old new).
  - rewrite Hnew. repeat split; [by exists new|by left|lia|lia].
  - rewrite Hold. repeat split; [by exists old|by right|lia|lia].
Qed.

(** One record: the new maximum is the old one or the bookmark of the
    record, and it is not before either. *)
Lemma process_record_max (self : stream) (bookmark_field : option string)
    (last_datetime parent_id max_bookmark_value : json) (count : nat)
    (record : json) (transformed_record : dict) (w : world) :
  ¬ is_Ok (strptime_to_utc JNull) ->
  prepare_record self parent_id record = Return transformed_record ->
  (∀ value, bookmark_of bookmark_field transformed_record = Some value ->
            is_Ok (strptime_to_utc value)) ->
  is_Ok (strptime_to_utc last_datetime) ->
  max_bookmark_value = JNull ∨ is_Ok (strptime_to_utc max_bookmark_value) ->
  ∃ new_max count' w',
    process_record self bookmark_field last_datetime parent_id
      (max_bookmark_value, count) record w = (Return (new_max, count'), w')
    ∧ (new_max = JNull ∨ is_Ok (strptime_to_utc new_max))
    ∧ (max_bookmark_value ≠ JNull ->
       new_max ≠ JNull ∧ instant max_bookmark_value <= instant new_max)
    ∧ match bookmark_of bookmark_field transformed_record with
      | Some value => instant value <= instant new_max
                      ∧ new_max ≠ JNull
                      ∧ (new_max = value ∨ new_max = max_bookmark_value)
      | None => new_max = max_bookmark_value
      end.
Proof.
  intros Hnull Hprep Hvalue [last Hlast] Hmax.
  unfold process_record. rewrite Hprep, sbind_liftO_Return. cbn [fst snd].
  destruct (bookmark_of bookmark_field transformed_record) as [value|] eqn:Hb.
  - destruct (track_max_spec max_bookmark_value value Hnull Hmax (Hvalue value eq_refl))
      as (new_max & Htrack & Hok & Hwhich & Hvalue_le & Hmax_le).
    destruct (Hvalue value eq_refl) as [bookmark Hbookmark].
    assert (Hnn : new_max ≠ JNull) by (intros ->; by apply Hnull).
    destruct (decide (replication_method self = "FULL_TABLE")).
    + eexists new_max, _, _. split.
      { unfold sbind at 1. unfold write_record, modify. cbn [fst snd].
        unfold sbind at 1. unfold increment, gets.
        rewrite Htrack, sbind_liftO_Return. reflexivity. }
      split; [by right|]. split; [by split; [|apply Hmax_le]|]. by split.
    + rewrite Htrack, sbind_liftO_Return, Hlast. cbn [liftR].
      rewrite sbind_liftO_Return, Hbookmark. cbn [liftR]. rewrite sbind_liftO_Return.
      destruct (last <=? bookmark).
      * eexists new_max, _, _. split; [reflexivity|].
        split; [by right|]. split; [by split; [|apply Hmax_le]|]. by split.
      * eexists new_max, _, _. split; [reflexivity|].
        split; [by right|]. split; [by split; [|apply Hmax_le]|]. by split.
  - destruct (decide (replication_method self = "FULL_TABLE")).
    + eexists max_bookmark_value, _, _. split; [reflexivity|].
      split; [done|]. split; [by split; [|lia]|done].
    + eexists max_bookmark_value, _, _. split; [reflexivity|].
      split; [done|]. split; [by split; [|lia]|done].
Qed.

(** X9: the maximum that [process_records] returns is not before the
    bookmark of any record of the batch, written or not, nor before the
    maximum it was given; and it is that maximum or the bookmark of one of
    the records. (Timestamps parse; [None] is not a timestamp.) *)
Theorem process_records_max_bookmark (self : stream) (records : list json)
    (transformed : list dict) (bookmark_field : option string)
    (max_bookmark_value last_datetime parent_id : json) (w : world) :
  ¬ is_Ok (strptime_to_utc JNull) ->
  Forall2 (fun record written => prepare_record self parent_id record = Return written)
          records transformed ->
  (∀ written value, written ∈ transformed ->
     bookmark_of bookmark_field written = Some value -> is_Ok (strptime_to_utc value)) ->
  is_Ok (strptime_to_utc last_datetime) ->
  max_bookmark_value = JNull ∨ is_Ok (strptime_to_utc max_bookmark_value) ->
  ∃ new_max count w',
    process_records self records bookmark_field max_bookmark_value last_datetime parent_id w
    = (Return (new_max, count), w')
    ∧ (∀ written value, written ∈ transformed ->
         bookmark_of bookmark_field written = Some value ->
         instant value <= instant new_max)
    ∧ (max_bookmark_value ≠ JNull -> instant max_bookmark_value <= instant new_max)
    ∧ (new_max = max_bookmark_value
       ∨ ∃ written, written ∈ transformed
                    ∧ bookmark_of bookmark_field written = Some new_max).
Proof.
  intros Hnull Hprep Hvalues Hlast Hmax. unfold process_records.
  generalize O as count0.
  assert (Hgen : ∀ count0, ∃ new_max count w',
    fold_st (process_record self bookmark_field last_datetime parent_id) records
            (max_bookmark_value, count0) w = (Return (new_max, count), w')
    ∧ (new_max = JNull ∨ is_Ok (strptime_to_utc new_max))
    ∧ (∀ written value, written ∈ transformed ->
         bookmark_of bookmark_field written = Some value ->
         instant value <= instant new_max)
    ∧ (max_bookmark_value ≠ JNull ->
       new_max ≠ JNull ∧ instant max_bookmark_value <= instant new_max)
    ∧ (new_max = max_bookmark_value
       ∨ ∃ written, written ∈ transformed
                    ∧ bookmark_of bookmark_field written = Some new_max)).
  { revert max_bookmark_value w Hmax.
    induction Hprep as [|record written records transformed Hrec Hrest IH];
      intros max_bookmark_value w Hmax count0.
    - exists max_bookmark_value, count0, w. split; [reflexivity|]. split; [done|].
      split; [by intros ? ? ?%elem_of_nil|]. split; [by split; [|lia]|by left].
    - destruct (process_record_max self bookmark_field last_datetime parent_id
                  max_bookmark_value count0 record written w Hnull Hrec
                  (fun value => Hvalues written value (list_elem_of_here _ _)) Hlast Hmax)
        as (max1 & count1 & w1 & Hstep & Hok1 & Hold1 & Hnew1).
      destruct (IH (fun wr v Hin => Hvalues wr v (list_elem_of_further _ _ _ Hin))
                  max1 w1 Hok1 count1)
        as (new_max & count & w' & Hfold & Hok & Hall & Hold & Hwhich).
      exists new_max, count, w'.
      split; [cbn [fold_st]; unfold sbind at 1; by rewrite Hstep|].
      split; [exact Hok|].
      assert (Hchain : max1 ≠ JNull -> instant max1 <= instant new_max)
        by (intros Hne; by apply Hold).
      split; [|split].
      + intros wr v [->|Hin]%elem_of_cons Hv; [|by eapply Hall].
        rewrite Hv in Hnew1. destruct Hnew1 as (Hle & Hne1 & _).
        specialize (Hchain Hne1). lia.
      + intros Hne. destruct (Hold1 Hne) as [Hne1 Hle1].
        destruct (Hold Hne1) as [Hnn Hle]. split; [done|]. specialize (Hchain Hne1). lia.
      + destruct Hwhich as [->|(wr & Hin & Hwr)].
        * destruct (bookmark_of bookmark_field written) as [value|] eqn:Hb.
          -- destruct Hnew1 as (_ & _ & [->| ->]);
               [right; exists written; split; [left|done]|by left].
          -- left. exact Hnew1.
        * right. exists wr. split; [by right|done]. }
  intros count0. destruct (Hgen count0) as (new_max & count & w' & Hrun & _ & Hall & Hold & Hw).
  exists new_max, count, w'. split; [exact Hrun|]. split; [exact Hall|].
  split; [|exact Hw]. intros Hne. by apply Hold.
Qed.

(** ** Counting the records written *)

Lemma sbind_liftO_cases {S A B} (o : outcome A) (k : A -> ST S B) (s : S) :
  sbind (liftO o) k s
  = match o with
    | Return a => k a s
    | Raise e => (Raise e, s)
    | Timeout => (Timeout, s)
    end.
Proof. by destruct o. Qed.

Lemma sbind_client_get {B} (client : Client) (r : request) (k : json -> ST world B)
    (w : world) :
  sbind (client_get client r) k w
  = match client (requests w) r with
    | Ok data => k data (World (requests w ++ [r]) (sink w))
    | Failed e => (Raise e, World (requests w ++ [r]) (sink w))
    end.
Proof. unfold sbind, client_get. by destruct (client (requests w) r). Qed.

Lemma written_refl (stream_name : string) (w w' : world) :
  sink w' = sink w -> written stream_name w w' 0.
Proof. intros Hsink. exists []. by rewrite app_nil_r. Qed.

Lemma written_trans (stream_name : string) (w1 w2 w3 : world) (n m : nat) :
  written stream_name w1 w2 n -> written stream_name w2 w3 m ->
  written stream_name w1 w3 (n + m).
Proof.
  intros (out1 & Hs1 & Hl1 & Hf1) (out2 & Hs2 & Hl2 & Hf2).
  exists (out1 ++ out2). rewrite Hs2, Hs1, <- app_assoc, length_app, Hl1, Hl2.
  split; [done|]. split; [done|]. by apply Forall_app.
Qed.

Lemma written_one (stream_name : string) (record : dict) (w : world) :
  written stream_name w (World (requests w) (sink w ++ [(stream_name, record)])) 1.
Proof. exists [(stream_name, record)]. repeat split. by repeat constructor. Qed.

Lemma sbind_unfold {S A B} (m : ST S A) (k : A -> ST S B) (s : S) :
  sbind m k s = match m s with
                | (Return a, s') => k a s'
                | (Raise e, s') => (Raise e, s')
                | (Timeout, s') => (Timeout, s')
                end.
Proof. unfold sbind. by destruct (m s) as [[a|e|] s']. Qed.

Lemma counted_refl (before : nat) : counted before before 0.
Proof. forget_externals. split; [lia|intros _; lia]. Qed.

Lemma counted_trans (a b c n m : nat) :
  counted a b n -> counted b c m -> counted a c (n + m).
Proof.
  intros [Hle Heq] [Hle' Heq']. split; [clear Heq Heq'; lia|].
  intros Hnever. rewrite (Heq' Hnever), (Heq Hnever). clear. lia.
Qed.

Lemma counted_from (before count n : nat) :
  counted 0 count n -> counted before (before + count) n.
Proof.
  intros [Hle Heq]. split; [clear Heq; lia|].
  intros Hnever. rewrite (Heq Hnever). clear. lia.
Qed.

Lemma counted_increment (value : nat) (w : world) :
  counted value (if ready_to_log w then O else S value) 1.
Proof.
  split.
  - generalize (ready_to_log w). clear. intros [|]; lia.
  - intros Hnever. rewrite Hnever. clear. lia.
Qed.

(** One record, however its processing ends: what is written goes to the
    stream, and the counter follows. *)
Lemma process_record_tally (self : stream) (bookmark_field : option string)
    (last_datetime parent_id : json) (acc : json * nat) (record : json) (w : world) :
  let run := process_record self bookmark_field last_datetime parent_id acc record w in
  ∃ k, written (tap_stream_id self) w (snd run) k
       ∧ ∀ r, fst run = Return r -> counted (snd acc) (snd r) k.
Proof.
  assert (Hstop : ∀ o : outcome (json * nat),
            (∀ r, o ≠ Return r) ->
            ∃ k, written (tap_stream_id self) w w k
                 ∧ ∀ r, o = Return r -> counted (snd acc) (snd r) k).
  { intros o Ho. exists 0%nat. split; [by apply written_refl|]. intros r Hr. by destruct (Ho r). }
  assert (Hone : ∀ (tr : dict) (o : outcome (json * nat)),
            (∀ r, o = Return r ->
                  snd r = if ready_to_log (World (requests w)
                                             (sink w ++ [(tap_stream_id self, tr)]))
                          then O else S (snd acc)) ->
            ∃ k, written (tap_stream_id self) w
                   (World (requests w) (sink w ++ [(tap_stream_id self, tr)])) k
                 ∧ ∀ r, o = Return r -> counted (snd acc) (snd r) k).
  { intros tr o Ho. exists 1%nat. split; [apply written_one|].
    intros r Hr. rewrite (Ho r Hr). apply counted_increment. }
  unfold process_record. rewrite sbind_liftO_cases.
  destruct (prepare_record self parent_id record) as [tr| |];
    [|by apply Hstop|by apply Hstop].
  destruct (decide (replication_method self = "FULL_TABLE")).
  - unfold sbind at 1. unfold write_record, modify. cbn [fst snd].
    unfold sbind at 1. unfold increment, gets.
    destruct (bookmark_of bookmark_field tr) as [bookmark|].
    + rewrite sbind_liftO_cases.
      destruct (track_max (fst acc) bookmark) as [m| |]; cbn [fst snd];
        apply Hone; intros r Hr; try discriminate Hr. by injection Hr as <-.
    + cbn [fst snd sret]. apply Hone. intros r Hr. by injection Hr as <-.
  - destruct (bookmark_of bookmark_field tr) as [bookmark|].
    + rewrite sbind_liftO_cases.
      destruct (track_max (fst acc) bookmark) as [m| |];
        [|by apply Hstop|by apply Hstop].
      rewrite sbind_liftO_cases.
      destruct (liftR (strptime_to_utc last_datetime)) as [last| |];
        [|by apply Hstop|by apply Hstop].
      rewrite sbind_liftO_cases.
      destruct (liftR (strptime_to_utc bookmark)) as [bookmark_dttm| |];
        [|by apply Hstop|by apply Hstop].
      destruct (last <=? bookmark_dttm).
      * unfold sbind at 1. unfold write_record, modify. cbn [fst snd].
        unfold sbind at 1. unfold increment, gets. cbn [fst snd sret].
        apply Hone. intros r Hr. by injection Hr as <-.
      * cbn [fst snd sret]. exists 0%nat. split; [by apply written_refl|].
        intros r Hr. injection Hr as <-. apply counted_refl.
    + unfold sbind at 1. unfold write_record, modify. cbn [fst snd].
      unfold sbind at 1. unfold increment, gets. cbn [fst snd sret].
      apply Hone. intros r Hr. by injection Hr as <-.
Qed.

Lemma process_records_tally (self : stream) (records : list json)
    (bookmark_field : option string) (max_bookmark_value last_datetime parent_id : json)
    (w : world) :
  let run := process_records self records bookmark_field max_bookmark_value last_datetime
               parent_id w in
  ∃ k, written (tap_stream_id self) w (snd run) k
       ∧ ∀ r, fst run = Return r -> counted 0 (snd r) k.
Proof.
  unfold process_records.
  enough (Hgen : ∀ w acc,
            let run := fold_st (process_record self bookmark_field last_datetime parent_id)
                         records acc w in
            ∃ k, written (tap_stream_id self) w (snd run) k
                 ∧ ∀ r, fst run = Return r -> counted (snd acc) (snd r) k)
    by apply (Hgen w (max_bookmark_value, O)).
  clear w. induction records as [|record records IH]; intros w acc.
  { exists 0%nat. split; [by apply written_refl|].
    intros r Hr. injection Hr as <-. apply counted_refl. }
  cbn [fold_st]. unfold sbind.
  destruct (process_record_tally self bookmark_field last_datetime parent_id acc record w)
    as (k1 & Hw1 & Hr1).
  destruct (process_record self bookmark_field last_datetime parent_id acc record w)
    as [[acc1| |] w1]; cbn [fst snd] in *.
  - destruct (IH w1 acc1) as (k2 & Hw2 & Hr2).
    exists (k1 + k2)%nat. split; [by eapply written_trans|].
    intros r Hr. apply counted_trans with (snd acc1); [by apply Hr1|by apply Hr2].
  - exists k1. split; [done|]. intros r Hr. discriminate Hr.
  - exists k1. split; [done|]. intros r Hr. discriminate Hr.
Qed.

Lemma process_records_written (self : stream) (records : list json)
    (bookmark_field : option string) (max_bookmark_value last_datetime parent_id : json)
    (r : json * nat) (w w' : world) :
  process_records self records bookmark_field max_bookmark_value last_datetime parent_id w
  = (Return r, w') ->
  ∃ k, written (tap_stream_id self) w w' k ∧ counted 0 (snd r) k.
Proof.
  intros H.
  destruct (process_records_tally self records bookmark_field max_bookmark_value
              last_datetime parent_id w) as (k & Hw & Hr).
  rewrite H in Hw, Hr. exists k. split; [done|]. by apply Hr.
Qed.

Lemma page_loop_tally (fuel : nat) (self : stream) (kw : sync_kwargs)
    (bookmark_field : string) (last_datetime : json) (next_url : string)
    (acc : nat * json) (w : world) :
  let run := page_loop fuel self kw bookmark_field last_datetime next_url acc w in
  ∃ k, written (tap_stream_id self) w (snd run) k
       ∧ ∀ r, fst run = Return r -> counted (fst acc) (fst r) k.
Proof.
  assert (Hstop : ∀ (o : outcome (nat * json)) (acc : nat * json) (w w' : world),
            sink w' = sink w -> (∀ r, o = Return r -> r = acc) ->
            ∃ k, written (tap_stream_id self) w w' k
                 ∧ ∀ r, o = Return r -> counted (fst acc) (fst r) k).
  { intros o acc0 w0 w0' Hsink Ho. exists 0%nat. split; [by apply written_refl|].
    intros r Hr. rewrite (Ho r Hr). apply counted_refl. }
  revert next_url acc w. induction fuel as [|fuel IH]; intros next_url acc w.
  { by apply Hstop. }
  cbn [page_loop]. rewrite sbind_client_get.
  destruct (kw_client kw (requests w) _) as [data|e]; [|by apply Hstop].
  set (w0 := World _ (sink w)).
  rewrite sbind_liftO_cases.
  destruct (py_contains (data_key self) data) as [has| |];
    [|by apply Hstop|by apply Hstop].
  rewrite sbind_liftO_cases.
  match goal with
  | |- context [match ?o with Return _ => _ | Raise _ => _ | Timeout => _ end] =>
      destruct o as [transformed_data| |]
  end; [|by apply Hstop|by apply Hstop].
  destruct (py_truthy transformed_data);
    [|apply Hstop; [done|by intros r [= <-]]].
  match goal with
  | |- context [sbind ?m _ w0] => set (step := m)
  end.
  assert (Hstep : ∃ k, written (tap_stream_id self) w (snd (step w0)) k
                       ∧ ∀ r, fst (step w0) = Return r -> counted (fst acc) (fst r) k).
  { subst step.
    destruct (bool_decide (tap_stream_id self ∈ kw_selected_streams kw));
      [|apply Hstop; [done|by intros r [= <-]]].
    rewrite sbind_liftO_cases.
    destruct (py_iter transformed_data) as [records| |];
      [|by apply Hstop|by apply Hstop].
    unfold sbind.
    destruct (process_records_tally self records (Some bookmark_field) (snd acc)
                last_datetime (kw_parent_id kw) w0) as (k & Hw & Hr).
    destruct (process_records self records (Some bookmark_field) (snd acc)
                last_datetime (kw_parent_id kw) w0) as [[processed| |] w1];
      cbn [fst snd] in *.
    - exists k. split; [by destruct Hw as (out & ? & ? & ?); exists out|].
      intros r Hr'. injection Hr' as <-. cbn [fst]. apply counted_from. by apply Hr.
    - exists k. split; [by destruct Hw as (out & ? & ? & ?); exists out|].
      intros r Hr'. discriminate Hr'.
    - exists k. split; [by destruct Hw as (out & ? & ? & ?); exists out|].
      intros r Hr'. discriminate Hr'. }
  destruct Hstep as (k1 & Hw1 & Hr1). rewrite (sbind_unfold step).
  destruct (step w0) as [[acc1| |] w1]; cbn [fst snd] in *;
    [|exists k1; split; [done|intros r Hr; discriminate Hr]
     |exists k1; split; [done|intros r Hr; discriminate Hr]].
  specialize (Hr1 acc1 eq_refl).
  rewrite sbind_liftO_cases.
  destruct (get_next_url (tap_stream_id self) next_url data) as [[url|]| |];
    [|by exists k1; split; [|intros r [= <-]]
     |by exists k1; split; [|intros r Hr]
     |by exists k1; split; [|intros r Hr]].
  destruct (decide (url = "")); [by exists k1; split; [|intros r [= <-]]|].
  destruct (IH url acc1 w1) as (k2 & Hw2 & Hr2).
  exists (k1 + k2)%nat. split; [by eapply written_trans|].
  intros r Hr. apply counted_trans with (fst acc1); [done|by apply Hr2].
Qed.

Lemma sync_endpoint_tally (fuel : nat) (self : stream) (kw : sync_kwargs) (w : world) :
  let run := sync_endpoint fuel self kw w in
  ∃ k, written (tap_stream_id self) w (snd run) k
       ∧ ∀ r, fst run = Return r -> counted 0 (fst r) k.
Proof.
  unfold sync_endpoint. rewrite sbind_liftO_cases.
  destruct (first_replication_key self) as [bookmark_field| |];
    [|by exists 0%nat; split; [apply written_refl|intros r Hr]
     |by exists 0%nat; split; [apply written_refl|intros r Hr]].
  enough (Hgen : ∀ urls w acc,
            let run := fold_st (fun (acc : nat * json) (entry : json * string) =>
                                  page_loop fuel self kw bookmark_field
                                    (get_bookmark self (kw_state kw) (kw_start_date kw))
                                    (snd entry) acc) urls acc w in
            ∃ k, written (tap_stream_id self) w (snd run) k
                 ∧ ∀ r, fst run = Return r -> counted (fst acc) (fst r) k)
    by apply (Hgen _ w (O, get_bookmark self (kw_state kw) (kw_start_date kw))).
  clear w. induction urls as [|entry urls IH]; intros w acc.
  { exists 0%nat. split; [by apply written_refl|].
    intros r Hr. injection Hr as <-. apply counted_refl. }
  cbn [fold_st]. unfold sbind.
  destruct (page_loop_tally fuel self kw bookmark_field
              (get_bookmark self (kw_state kw) (kw_start_date kw)) (snd entry) acc w)
    as (k1 & Hw1 & Hr1).
  destruct (page_loop fuel self kw bookmark_field _ (snd entry) acc w)
    as [[acc1| |] w1]; cbn [fst snd] in *.
  - destruct (IH w1 acc1) as (k2 & Hw2 & Hr2).
    exists (k1 + k2)%nat. split; [by eapply written_trans|].
    intros r Hr. apply counted_trans with (fst acc1); [by apply Hr1|by apply Hr2].
  - exists k1. split; [done|]. intros r Hr. discriminate Hr.
  - exists k1. split; [done|]. intros r Hr. discriminate Hr.
Qed.

(** X10: the count that [sync_endpoint] returns is the value of the
    record counter summed over the pages: never more than the number of
    records the sync has written, and exactly that number when the
    counter never logs; [VideoAds.sync_endpoint] returns no more than the
    number written either (0 after a permission error, whatever was
    written before it).  The records are written after those already in
    the sink, and all to the stream itself. *)
Theorem sync_endpoint_counts_written (fuel : nat) (self : stream) (kw : sync_kwargs)
    (w w' : world) (total_records : nat) (max_bookmark_value : json) :
  (sync_endpoint fuel self kw w = (Return (total_records, max_bookmark_value), w') ->
   ∃ n, written (tap_stream_id self) w w' n
        ∧ (total_records <= n)%nat
        ∧ ((∀ w0, ready_to_log w0 = false) -> total_records = n))
  ∧ (VideoAds_sync_endpoint fuel kw w = (Return (total_records, max_bookmark_value), w') ->
     ∃ n, written "video_ads" w w' n ∧ (total_records <= n)%nat).
Proof.
  split.
  - intros H. destruct (sync_endpoint_tally fuel self kw w) as (n & Hw & Hr).
    rewrite H in Hw, Hr. exists n. split; [done|].
    destruct (Hr _ eq_refl) as [Hle Heq]. split; [exact Hle|exact Heq].
  - unfold VideoAds_sync_endpoint, try_except.
    destruct (sync_endpoint_tally fuel VideoAds kw w) as (n & Hw & Hr).
    destruct (sync_endpoint fuel VideoAds kw w) as [[r|error|] w1]; cbn [fst snd] in *.
    + intros H. injection H as -> <-. exists n. split; [done|].
      by destruct (Hr _ eq_refl) as [Hle _].
    + destruct (str_contains PERMISSION_DENIED (exn_str error)); [|discriminate].
      intros H. injection H as <- _ <-. exists n. split; [done|]. clear. lia.
    + discriminate.
Qed.

Lemma sbind_sret {S A B} (a : A) (k : A -> ST S B) (s : S) : sbind (sret a) k s = k a s.
Proof. reflexivity. Qed.

Lemma page_loop_unselected (fuel : nat) (self : stream) (kw : sync_kwargs)
    (bookmark_field : string) (last_datetime : json) (next_url : string)
    (acc : nat * json) (w : world) :
  tap_stream_id self ∉ kw_selected_streams kw ->
  let run := page_loop fuel self kw bookmark_field last_datetime next_url acc w in
  sink (snd run) = sink w ∧ ∀ r, fst run = Return r -> r = acc.
Proof.
  intros Hsel. revert next_url w.
  induction fuel as [|fuel IH]; intros next_url w; [by split|].
  cbn [page_loop]. rewrite sbind_client_get.
  destruct (kw_client kw (requests w) _) as [data|e]; [|by split].
  rewrite sbind_liftO_cases.
  destruct (py_contains (data_key self) data) as [has| |]; [|by split|by split].
  rewrite sbind_liftO_cases.
  match goal with
  | |- context [match ?o with Return _ => _ | Raise _ => _ | Timeout => _ end] =>
      destruct o as [transformed_data| |]
  end; [|by split|by split].
  destruct (py_truthy transformed_data); [|by split; [|intros r [= <-]]].
  rewrite bool_decide_eq_false_2, sbind_sret, sbind_liftO_cases by done.
  destruct (get_next_url (tap_stream_id self) next_url data) as [[url|]| |];
    [|by split; [|intros r [= <-]]|by split|by split].
  destruct (decide (url = "")); [by split; [|intros r [= <-]]|].
  destruct (IH url (World (requests w ++ [Req next_url (tap_stream_id self)
                                             (Some (headers self))]) (sink w)))
    as [Hsink Hacc].
  split; [exact Hsink|exact Hacc].
Qed.

(** X11: a stream (without children) that is not among the selected
    streams writes no record, whatever the API answers and however the
    sync ends; when the sync returns, it returns the count 0 and the
    bookmark it started from. *)
Theorem sync_endpoint_unselected (fuel : nat) (self : stream) (kw : sync_kwargs)
    (w : world) :
  tap_stream_id self ∉ kw_selected_streams kw ->
  let run := sync_endpoint fuel self kw w in
  sink (snd run) = sink w
  ∧ ∀ r, fst run = Return r ->
         r = (O, get_bookmark self (kw_state kw) (kw_start_date kw)).
Proof.
  intros Hsel. unfold sync_endpoint. rewrite sbind_liftO_cases.
  destruct (first_replication_key self) as [bookmark_field| |]; [|by split|by split].
  generalize (O, get_bookmark self (kw_state kw) (kw_start_date kw)) as acc.
  generalize (urllist self (query_string_of (endpoint_params self (kw_page_size kw)))
                (kw_parent_id kw) (kw_account_list kw)) as urls.
  intros urls. revert w.
  induction urls as [|entry urls IH]; intros w acc.
  { cbn. split; [done|]. intros r Hr. congruence. }
  cbn [fold_st]. unfold sbind.
  destruct (page_loop_unselected fuel self kw bookmark_field
              (get_bookmark self (kw_state kw) (kw_start_date kw)) (snd entry) acc w Hsel)
    as [Hsink Hacc].
  destruct (page_loop fuel self kw bookmark_field _ (snd entry) acc w) as [[acc1|e|] w1];
    cbn [fst snd] in Hsink, Hacc; cbv beta iota; cbn [fst snd];
    [|split; [done|intros r Hr; discriminate Hr]..].
  rewrite (Hacc acc1 eq_refl). destruct (IH w1 acc) as [Hsink' Hacc'].
  split; [by rewrite Hsink'|exact Hacc'].
Qed.

(** ** Identifier resolver, further *)

(** [_batch_resolve] is the loop over the chunks of the resolver. *)
Lemma batch_resolve_loop (kind : resolver_kind) (client : Client) (locale : option string)
    (codes : gset string) (w : world) :
  _batch_resolve kind client locale codes w
  = returning_resolved
      (for_each (chunks_of kind codes) (resolve_chunk kind client locale)) w.
Proof.
  unfold _batch_resolve, returning_resolved.
  destruct kind; try reflexivity.
  cbn [chunks_of for_each]. unfold sbind.
  destruct (resolve_chunk_spec SenioritiesResolver client locale (elements codes)
              (RState w ∅)) as (m & -> & _). reflexivity.
Qed.

(** X12: the batches of a resolver other than the seniorities one. For
    any number of codes the requests are one per chunk; the chunks, put
    end to end, are the codes, each once; no chunk is empty or has more
    than 150 codes, and all but the last have 150. *)
Theorem resolve_batches (kind : resolver_kind) (client : Client)
    (locale : option string) (urns : gset string) (w : world) :
  kind ≠ SenioritiesResolver ->
  urns ≠ ∅ ->
  let codes : gset string := set_map last_segment urns in
  ∃ resolved chunks,
    resolve kind client locale urns w
    = (Return resolved,
       World (requests w ++ (chunk_request kind locale <$> chunks)) (sink w))
    ∧ concat chunks = elements codes
    ∧ NoDup (concat chunks)
    ∧ length chunks = ((size codes + 149) / 150)%nat
    ∧ ∀ i chunk, chunks !! i = Some chunk ->
        (0 < length chunk <= 150)%nat
        ∧ (S i < length chunks -> length chunk = 150)%nat.
Proof.
  forget_externals.
  intros Hkind Hurns codes.
  destruct (batch_resolve_spec kind client locale codes w) as (resolved & Hrun & _).
  destruct (chunks_spec (elements codes) chunk_size ltac:(unfold chunk_size; lia))
    as [Hconcat Hlen].
  exists resolved, (code_chunks codes).
  split; [|split; [exact Hconcat|split; [|split; [|exact Hlen]]]].
  - unfold resolve. rewrite decide_False by done. fold codes. rewrite Hrun.
    by destruct kind.
  - unfold code_chunks in Hconcat |- *. rewrite Hconcat. apply NoDup_elements.
  - unfold code_chunks, py_range, chunk_size. rewrite !length_fmap, length_seq.
    replace (size codes) with (length (elements codes)) by reflexivity.
    f_equal. lia.
Qed.

Lemma resolve_chunks_failed (kind : resolver_kind) (client : Client)
    (locale : option string) (chunks : list (list string)) (s : rstate) :
  (∀ history request, ∃ e, client history request = Failed e) ->
  ∃ m',
    for_each chunks (resolve_chunk kind client locale) s
    = (Return tt,
       RState (World (requests (rs_world s) ++ (chunk_request kind locale <$> chunks))
                     (sink (rs_world s))) m')
    ∧ ∀ code, m' !! code
              = match rs_resolved s !! code with
                | Some v => Some v
                | None => if decide (code ∈ concat chunks) then Some (JStr code) else None
                end.
Proof.
  forget_externals.
  intros Hfail. revert s. induction chunks as [|chunk chunks IH]; intros s.
  - exists (rs_resolved s). cbn. rewrite app_nil_r.
    split; [by destruct s as [[] ?]|].
    intros code. destruct (rs_resolved s !! code); [done|].
    by rewrite decide_False by apply not_elem_of_nil.
  - cbn [for_each]. unfold sbind.
    destruct (resolve_chunk_spec kind client locale chunk s) as (m1 & Hrun & _ & Hfailed).
    rewrite Hrun.
    destruct (Hfail (requests (rs_world s)) (chunk_request kind locale chunk)) as [e He].
    destruct (Hfailed e He) as (Hnew & Hold & Hout).
    destruct (IH (RState (World (requests (rs_world s) ++ [chunk_request kind locale chunk])
                                (sink (rs_world s))) m1))
      as (m' & Hrest & Hm').
    cbn [rs_world rs_resolved requests sink] in *.
    exists m'. rewrite Hrest, <- app_assoc. split; [done|].
    intros code. rewrite Hm'. cbn [concat].
    destruct (rs_resolved s !! code) as [v|] eqn:Hv.
    + by rewrite (Hold code v Hv).
    + destruct (decide (code ∈ chunk)) as [Hin|Hnin].
      * rewrite (Hnew code Hin Hv). rewrite decide_True; [done|].
        apply elem_of_app. by left.
      * rewrite (Hout code Hnin), Hv.
        destruct (decide (code ∈ concat chunks)) as [Hc|Hc].
        -- rewrite decide_True; [done|]. apply elem_of_app. by right.
        -- rewrite decide_False; [done|]. rewrite elem_of_app. tauto.
Qed.

(** X13: when every request fails, every resolver returns the mapping of
    each requested code to itself, and nothing else. *)
Theorem resolve_all_failed (kind : resolver_kind) (client : Client)
    (locale : option string) (urns : gset string) (w : world) :
  (∀ history request, ∃ e, client history request = Failed e) ->
  let codes : gset string := set_map last_segment urns in
  ∃ resolved w',
    resolve kind client locale urns w = (Return resolved, w')
    ∧ ∀ code, resolved !! code = if decide (code ∈ codes) then Some (JStr code) else None.
Proof.
  forget_externals.
  intros Hfail codes. unfold resolve.
  destruct (decide (urns = ∅)) as [->|Hne].
  - exists ∅, w. split; [done|]. intros code. rewrite lookup_empty.
    subst codes. rewrite set_map_empty. by rewrite decide_False by apply not_elem_of_empty.
  - fold codes. rewrite batch_resolve_loop. unfold returning_resolved.
    destruct (resolve_chunks_failed kind client locale (chunks_of kind codes) (RState w ∅)
                Hfail) as (m' & Hrun & Hm').
    rewrite Hrun. cbn [obind rs_world rs_resolved]. eexists m', _. split; [reflexivity|].
    intros code. rewrite Hm'. cbn [rs_resolved]. rewrite lookup_empty, concat_chunks_of.
    destruct (decide (code ∈ elements codes)) as [Hin|Hnin].
    + rewrite decide_True; [done|]. by apply elem_of_elements.
    + rewrite decide_False; [done|]. by rewrite <- elem_of_elements.
Qed.

Lemma keeps_sret {A} (I : rstate -> Prop) (a : A) : keeps I (sret a).
Proof. by intros s. Qed.

Lemma keeps_liftO {A} (I : rstate -> Prop) (o : outcome A) : keeps I (liftO o).
Proof. by intros s. Qed.

Lemma keeps_sbind {A B} (I : rstate -> Prop) (m : ST rstate A) (k : A -> ST rstate B) :
  keeps I m -> (∀ a, keeps I (k a)) -> keeps I (sbind m k).
Proof.
  intros Hm Hk s Hs. unfold sbind. specialize (Hm s Hs).
  destruct (m s) as [[a|e|] s1]; cbn [snd] in *; [by apply Hk|done|done].
Qed.

Lemma keeps_for_each {A} (I : rstate -> Prop) (xs : list A) (body : A -> ST rstate unit) :
  (∀ x, x ∈ xs -> keeps I (body x)) -> keeps I (for_each xs body).
Proof.
  induction xs as [|x xs IH]; intros Hbody; [apply keeps_sret|].
  cbn [for_each]. apply keeps_sbind; [apply Hbody; by left|].
  intros _. apply IH. intros y Hy. apply Hbody. by right.
Qed.

Lemma keeps_try_except {A} (I : rstate -> Prop) (m : ST rstate A)
    (h : exn -> ST rstate A) :
  keeps I m -> (∀ e, keeps I (h e)) -> keeps I (try_except m h).
Proof.
  intros Hm Hh s Hs. unfold try_except. specialize (Hm s Hs).
  destruct (m s) as [[a|e|] s1]; cbn [snd] in *; [done|by apply Hh|done].
Qed.

Lemma keeps_set_resolved (codes : gset string) (code : string) (name : json) :
  code ∈ codes -> keeps (keys_in codes) (set_resolved code name).
Proof.
  forget_externals.
  intros Hcode s Hs k. cbn. destruct (decide (k = code)) as [->|Hne]; [done|].
  rewrite lookup_insert_ne by done. apply Hs.
Qed.

Lemma keeps_resolve_element (codes : gset string) (wanted : string -> bool)
    (element : json) :
  (∀ code, wanted code = true -> code ∈ codes) ->
  keeps (keys_in codes) (resolve_element wanted element).
Proof.
  intros Hwanted. unfold resolve_element.
  destruct element as [| | | | |d]; try apply keeps_sret.
  destruct (wanted _) eqn:Hw; [|apply keeps_sret].
  apply keeps_sbind; [apply keeps_liftO|]. intros name.
  apply keeps_set_resolved. by apply Hwanted.
Qed.

Lemma keeps_fallback (codes : gset string) (chunk : list string) :
  (∀ code, code ∈ chunk -> code ∈ codes) ->
  keeps (keys_in codes) (fallback chunk).
Proof.
  forget_externals.
  intros Hchunk. unfold fallback. apply keeps_for_each. intros code Hcode s Hs.
  cbn. destruct (rs_resolved s !! code) eqn:Hget; [done|].
  intros k. cbn. destruct (decide (k = code)) as [->|Hne]; [by intros _; apply Hchunk|].
  rewrite lookup_insert_ne by done. apply Hs.
Qed.

Lemma keeps_resolver_get (I : rstate -> Prop) (client : Client) (r : request) :
  (∀ s w, I s -> I (RState w (rs_resolved s))) ->
  keeps I (resolver_get client r).
Proof.
  intros Hworld s Hs. unfold resolver_get.
  destruct (client_get client r (rs_world s)) as [o w1]. by apply Hworld.
Qed.

Lemma keeps_resolve_chunk_elements (kind : resolver_kind) (client : Client)
    (locale : option string) (codes : gset string) (chunk : list string) :
  kind = FunctionsResolver ∨ kind = SenioritiesResolver ->
  (∀ code, code ∈ chunk -> code ∈ codes) ->
  keeps (keys_in codes) (resolve_chunk kind client locale chunk).
Proof.
  intros Hkind Hchunk. unfold resolve_chunk.
  apply keeps_try_except; [|intros _; by apply keeps_fallback].
  unfold try_chunk. apply keeps_sbind; [by apply keeps_resolver_get|].
  intros response.
  assert (Hloop : ∀ items, keeps (keys_in codes)
            (for_each items (resolve_element (fun code => bool_decide (code ∈ chunk))))).
  { intros items. apply keeps_for_each. intros element _.
    apply keeps_resolve_element. intros code Hcode%bool_decide_eq_true. by apply Hchunk. }
  destruct Hkind as [-> | ->]; cbn [process_response].
  - unfold functions_process. destruct (py_truthy response); [|apply keeps_sret].
    apply keeps_sbind; [apply keeps_liftO|]. intros [|]; [|apply keeps_sret].
    apply keeps_sbind; [apply keeps_liftO|]. intros elements.
    apply keeps_sbind; [apply keeps_liftO|]. intros items. apply Hloop.
  - unfold seniorities_process.
    destruct response as [| | | | |[|entry d]]; try apply keeps_sret.
    apply keeps_sbind; [apply keeps_liftO|]. intros elements.
    apply keeps_sbind; [apply keeps_liftO|]. intros items. apply Hloop.
Qed.

(** X14: the functions and the seniorities resolvers never return an
    entry for a code that was not asked for, whatever the responses hold. *)
Theorem resolve_only_requested (kind : resolver_kind) (client : Client)
    (locale : option string) (urns : gset string) (w : world) :
  kind = FunctionsResolver ∨ kind = SenioritiesResolver ->
  let codes : gset string := set_map last_segment urns in
  ∃ resolved w',
    resolve kind client locale urns w = (Return resolved, w')
    ∧ ∀ code, is_Some (resolved !! code) -> code ∈ codes.
Proof.
  intros Hkind codes. unfold resolve.
  destruct (decide (urns = ∅)) as [->|Hne].
  - exists ∅, w. split; [done|]. intros code. rewrite lookup_empty. by intros [? ?].
  - fold codes. rewrite batch_resolve_loop. unfold returning_resolved.
    destruct (resolve_chunks_spec kind client locale (chunks_of kind codes) (RState w ∅))
      as (resolved & Hrun & _).
    assert (Hkeeps : keeps (keys_in codes)
              (for_each (chunks_of kind codes) (resolve_chunk kind client locale))).
    { apply keeps_for_each. intros chunk Hchunk.
      apply keeps_resolve_chunk_elements; [done|]. intros code Hcode.
      apply elem_of_elements. rewrite <- (concat_chunks_of kind codes).
      by apply (elem_of_concat code chunk). }
    specialize (Hkeeps (RState w ∅)). rewrite Hrun in Hkeeps.
    rewrite Hrun. cbn [obind rs_world rs_resolved]. eexists resolved, _.
    split; [reflexivity|]. apply Hkeeps. intros code. cbn. rewrite lookup_empty.
    by intros [? ?].
Qed.

(** [_extract_code]: the part after the last colon. *)
Lemma last_segment_from_no_colon (cur s : string) :
  str_contains ":" s = false -> last_segment_from cur s = cur.
Proof.
  forget_externals.
  induction s as [|c s IH]; [done|].
  cbn [str_contains String.prefix last_segment_from]. intros [Hc Hs]%orb_false_elim.
  destruct (Ascii.eqb_spec c ":") as [->|Hne]; [by destruct s|by apply IH].
Qed.

Lemma last_segment_from_app (cur prefix code : string) :
  str_contains ":" code = false ->
  last_segment_from cur (prefix +:+ String ":" code) = code.
Proof.
  forget_externals.
  intros Hcode. revert cur. induction prefix as [|c prefix IH]; intros cur.
  - rewrite str_app_nil_l. cbn [last_segment_from].
    change (Ascii.eqb ":" ":") with true. cbv iota.
    by apply last_segment_from_no_colon.
  - rewrite str_app_cons. cbn [last_segment_from]. destruct (Ascii.eqb c ":"); apply IH.
Qed.

Lemma last_segment_from_colon_free (seen s : string) :
  str_contains ":" seen = false ->
  str_contains ":" (last_segment_from (seen +:+ s) s) = false.
Proof.
  forget_externals.
  revert seen. induction s as [|c s IH]; intros seen Hseen.
  - by rewrite str_app_nil_r.
  - cbn [last_segment_from]. destruct (Ascii.eqb_spec c ":") as [->|Hne].
    + apply (IH ""). reflexivity.
    + replace (seen +:+ String c s) with ((seen +:+ String c "") +:+ s)
        by (by rewrite str_app_assoc).
      apply IH. rewrite str_contains_snoc; [done|done|].
      cbn. destruct (ascii_dec c ":"); [done|reflexivity].
Qed.

(** X15: [_extract_code] gives the part of a URN after its last colon: a
    string without a colon is its own code, the code put after a colon
    comes back whatever stands before, and a code never has a colon. *)
Theorem extract_code_last_segment :
  (∀ s, str_contains ":" s = false -> last_segment s = s)
  ∧ (∀ prefix code, str_contains ":" code = false ->
       last_segment (prefix +:+ ":" +:+ code) = code)
  ∧ (∀ urn, str_contains ":" (last_segment urn) = false).
Proof.
  forget_externals.
  unfold last_segment. split; [|split].
  - intros s. apply last_segment_from_no_colon.
  - intros prefix code. apply last_segment_from_app.
  - intros urn. by apply (last_segment_from_colon_free "" urn).
Qed.

(** ** Bookmarks *)

(** X16: a bookmark written is the bookmark read. After
    [write_bookmark] on a state, [get_bookmark] of the stream written gives
    the value, whatever the default; the bookmark of every other stream is
    as before; the state written out is the new state. On [None] there is
    a [TypeError] and nothing is written. *)
Theorem write_then_get_bookmark (value : json) (stream_name : string)
    (state : option tap_state) (messages : list tap_state) :
  (state = None ->
   write_bookmark value stream_name (state, messages)
   = (Raise (TypeError "argument of type 'NoneType' is not iterable"), (state, messages)))
  ∧ (∀ st, state = Some st ->
       ∃ st',
         write_bookmark value stream_name (state, messages)
         = (Return tt, (Some st', messages ++ [st']))
         ∧ ∀ (self : stream) (dflt : json),
             get_bookmark self (Some st') dflt
             = if decide (tap_stream_id self = stream_name) then value
               else get_bookmark self state dflt).
Proof.
  forget_externals.
  split; [by intros ->|]. intros st ->. eexists. split; [reflexivity|].
  intros self dflt. unfold get_bookmark. cbn [bookmarks].
  destruct (decide (tap_stream_id self = stream_name)) as [->|Hne].
  - by rewrite lookup_insert_eq.
  - rewrite lookup_insert_ne by done. destruct (bookmarks st); [done|].
    cbn. by rewrite lookup_empty.
Qed.

(** ** Counting the records of an analytics sync *)

Lemma analytics_pages_sink (page_fuel : nat) (client : Client) (self : stream)
    (next_url : string) (responses r : list json) (w w' : world) :
  analytics_pages page_fuel client self next_url responses w = (Return r, w') ->
  sink w' = sink w.
Proof.
  revert next_url responses w.
  induction page_fuel as [|page_fuel IH]; intros next_url responses w H;
    [discriminate H|].
  cbn [analytics_pages] in H. rewrite sbind_client_get in H.
  destruct (client (requests w) _) as [data|e]; [|discriminate H].
  rewrite sbind_liftO_cases in H.
  destruct (py_get data (data_key self) JNull) as [item| |]; try discriminate H.
  rewrite sbind_liftO_cases in H.
  destruct (get_next_url (tap_stream_id self) next_url data) as [[url|]| |];
    try discriminate H.
  - destruct (decide (url = "")); [by injection H as _ <-|].
    by apply IH in H.
  - by injection H as _ <-.
Qed.

Lemma fetch_chunks_sink (page_fuel : nat) (client : Client) (self : stream)
    (chunks : list (list string)) (acc r : dict * option dict * list json) (w w' : world) :
  fold_st (fetch_chunk page_fuel client self) chunks acc w = (Return r, w') ->
  sink w' = sink w.
Proof.
  revert acc w. induction chunks as [|chunk chunks IH]; intros acc w H.
  - by injection H as _ <-.
  - cbn [fold_st] in H. apply sbind_Return in H as (acc1 & w1 & Hstep & H).
    unfold fetch_chunk in Hstep.
    apply sbind_Return in Hstep as (responses & w2 & Hpages & Hstep).
    injection Hstep as _ <-. apply analytics_pages_sink in Hpages.
    apply IH in H. congruence.
Qed.

Lemma resolve_urns_sink (client : Client) (urns : gset string) (endpoint : string)
    (locale : option string) (resolved : gmap string json) (w w' : world) :
  resolve_urns client urns endpoint locale w = (Return resolved, w') ->
  sink w' = sink w.
Proof.
  unfold resolve_urns. intros H. rewrite sbind_liftO_cases in H.
  destruct (create_resolver endpoint) as [kind| |]; try discriminate H.
  unfold resolve in H. destruct (decide (urns = ∅)); [by injection H as _ <-|].
  destruct (batch_resolve_spec kind client locale (set_map last_segment urns) w)
    as (resolved' & Hrun & _).
  rewrite Hrun in H. by injection H as _ <-.
Qed.

Lemma merge_responses_sink (pivot : json) (data : list json) (client : option Client)
    (stream_name : option string) (r : list (primary_key * dict)) (w w' : world) :
  merge_responses pivot data client stream_name w = (Return r, w') ->
  sink w' = sink w.
Proof.
  unfold merge_responses. intros H. rewrite sbind_liftO_cases in H.
  destruct (merge_pages pivot _ data) as [st| |]; try discriminate H.
  destruct (resolution_of client stream_name) as [[c [endpoint locale]]|];
    [|by injection H as _ <-].
  rewrite sbind_liftO_cases in H.
  destruct (urn_strings (snd st)) as [urns| |]; try discriminate H.
  apply sbind_Return in H as (resolved & w1 & Hresolve & H).
  apply resolve_urns_sink in Hresolve. unfold liftO in H. by injection H as _ <-.
Qed.

Lemma sync_window_written (page_fuel : nat) (client : Client) (self : stream)
    (chunks : list (list string)) (bookmark_field : string)
    (last_datetime : json) (last_datetime_dt : Z) (parent_id : json)
    (static_params : dict) (total_records : nat) (max_bookmark_value : json)
    (r : dict * nat * json) (w w' : world) :
  sync_window page_fuel client self chunks bookmark_field last_datetime last_datetime_dt
    parent_id static_params total_records max_bookmark_value w = (Return r, w') ->
  ∃ k, written (tap_stream_id self) w w' k ∧ counted total_records (snd (fst r)) k.
Proof.
  unfold sync_window. intros H.
  apply sbind_Return in H as (fetched & w1 & Hfetch & H).
  apply fetch_chunks_sink in Hfetch.
  rewrite sbind_liftO_cases in H.
  destruct (snd (fst fetched)) as [params|]; [|discriminate H].
  apply sbind_Return in H as (raw_records & w2 & Hmerge & H).
  apply merge_responses_sink in Hmerge.
  rewrite sbind_liftO_cases in H.
  destruct (liftR (transform_json _ _)) as [transformed| |]; try discriminate H.
  rewrite sbind_liftO_cases in H.
  destruct (py_getitem transformed (data_key self)) as [transformed_data| |];
    try discriminate H.
  assert (Hsink : sink w2 = sink w) by congruence.
  destruct (py_truthy transformed_data).
  - rewrite sbind_liftO_cases in H.
    destruct (py_iter transformed_data) as [records| |]; try discriminate H.
    apply sbind_Return in H as (processed & w3 & Hrun & H).
    injection H as <- <-. apply process_records_written in Hrun as (k & Hrun & Hcount).
    exists k. split; [|by apply counted_from].
    destruct Hrun as (out & Hs & Hl & Hf). exists out. by rewrite Hs, Hsink.
  - injection H as <- <-. exists 0%nat. split; [by apply written_refl|apply counted_refl].
Qed.

Lemma window_loop_written (fuel page_fuel : nat) (client : Client) (self : stream)
    (chunks : list (list string)) (bookmark_field : string)
    (last_datetime : json) (last_datetime_dt : Z) (parent_id : json)
    (today : date) (date_window_size : Z) (window_end_date : date) (static_params : dict)
    (total_records : nat) (max_bookmark_value : json) (r : nat * json) (w w' : world) :
  window_loop fuel page_fuel client self chunks bookmark_field last_datetime
    last_datetime_dt parent_id today date_window_size window_end_date static_params
    total_records max_bookmark_value w = (Return r, w') ->
  ∃ k, written (tap_stream_id self) w w' k ∧ counted total_records (fst r) k.
Proof.
  revert window_end_date static_params total_records max_bookmark_value w.
  induction fuel as [|fuel IH]; intros end_ static total maxb w H; [discriminate H|].
  cbn [window_loop] in H. destruct (end_ <=? today).
  2: { injection H as <- <-. exists 0%nat. split; [by apply written_refl|apply counted_refl]. }
  apply sbind_Return in H as (done & w1 & Hsync & H).
  apply sync_window_written in Hsync as (k1 & Hw1 & Hk1).
  rewrite sbind_liftO_cases in H.
  destruct (shift_sync_window _ today date_window_size None) as [shifted| |];
    try discriminate H.
  destruct (fst (fst shifted) =? snd (fst shifted)).
  - injection H as <- <-. by exists k1.
  - apply IH in H as (k2 & Hw2 & Hk2).
    exists (k1 + k2)%nat. split; [by eapply written_trans|by eapply counted_trans].
Qed.

(** X17: the count that [sync_ad_analytics] returns is the value of the
    record counter summed over the date windows: never more than the
    number of records the sync has written, and exactly that number when
    the counter never logs; the records all go to the stream, and the
    lookups of names and the requests for pages write nothing. *)
Theorem sync_ad_analytics_counts_written (fuel page_fuel : nat) (self : stream)
    (client : Client) (selected : list string) (last_datetime : json)
    (date_window_size : Z) (parent_id : json) (today : date) (w w' : world)
    (total_records : nat) (max_bookmark_value : json) :
  sync_ad_analytics fuel page_fuel self client selected last_datetime date_window_size
    parent_id today w = (Return (total_records, max_bookmark_value), w') ->
  ∃ n, written (tap_stream_id self) w w' n
       ∧ (total_records <= n)%nat
       ∧ ((∀ w0, ready_to_log w0 = false) -> total_records = n).
Proof.
  unfold sync_ad_analytics. intros H.
  rewrite sbind_liftO_cases in H.
  destruct (first_replication_key self) as [bookmark_field| |]; try discriminate H.
  rewrite sbind_liftO_cases in H.
  destruct (liftR (strptime_to_utc last_datetime)) as [bookmark_dt| |]; try discriminate H.
  rewrite sbind_liftO_cases in H.
  destruct (datetime_sub_days bookmark_dt 7) as [last_datetime_dt| |]; try discriminate H.
  rewrite sbind_liftO_cases in H.
  destruct (first_window _ date_window_size today) as [window| |]; try discriminate H.
  rewrite sbind_liftO_cases in H.
  destruct (analytics_chunks _) as [chunks| |]; try discriminate H.
  apply window_loop_written in H as (n & Hw & Hle & Heq). cbn [fst] in Hle, Heq.
  exists n. split; [done|]. split; [exact Hle|exact Heq].
Qed.

(** ** The sync of a stream with its children *)

Lemma sbind_cong {S A B} (m m' : ST S A) (k k' : A -> ST S B) (s : S) :
  m s = m' s -> (∀ a s', k a s' = k' a s') -> sbind m k s = sbind m' k' s.
Proof. intros Hm Hk. unfold sbind. rewrite Hm. destruct (m' s) as [[x| |] s']; auto. Qed.

Lemma sbind_assoc {S A B C} (m : ST S A) (k : A -> ST S B) (h : B -> ST S C) (s : S) :
  sbind (sbind m k) h s = sbind m (fun x => sbind (k x) h) s.
Proof. unfold sbind. by destruct (m s) as [[x| |] s']. Qed.

Lemma on_world_sbind {A B} (m : ST world A) (k : A -> ST world B) (e : engine) :
  on_world (sbind m k) e = sbind (on_world m) (fun x => on_world (k x)) e.
Proof. unfold on_world, sbind. by destruct (m (eng_world e)) as [[x| |] w]. Qed.

Lemma on_world_liftO {A} (o : outcome A) (e : engine) : on_world (liftO o) e = liftO o e.
Proof. by destruct e. Qed.

Lemma on_world_sret {A} (x : A) (e : engine) : on_world (sret x) e = sret x e.
Proof. by destruct e. Qed.

Lemma sbind_on_world_sbind {A B C} (m : ST world A) (k : A -> ST world B)
    (h : B -> ST engine C) (e : engine) :
  sbind (on_world (sbind m k)) h e = sbind (on_world m) (fun x => sbind (on_world (k x)) h) e.
Proof. unfold on_world, sbind. by destruct (m (eng_world e)) as [[x| |] w]. Qed.

Lemma sbind_on_world_sret {A B} (x : A) (h : A -> ST engine B) (e : engine) :
  sbind (on_world (sret x)) h e = h x e.
Proof. by destruct e. Qed.

Lemma init_children_unselected (a : sync_args) (children : list string)
    (child_max_bookmarks : dict) (e : engine) :
  (∀ child, child ∈ children -> child ∉ a_selected_streams a) ->
  fold_st (init_child a) children child_max_bookmarks e = (Return child_max_bookmarks, e).
Proof.
  intros Hsel. induction children as [|child children IH]; [reflexivity|].
  cbn [fold_st]. unfold init_child at 1.
  rewrite bool_decide_eq_false_2 by (apply Hsel; by left).
  rewrite sbind_sret. apply IH. intros c Hc. apply Hsel. by right.
Qed.

Lemma sync_children_unselected (selected_of : string -> list string) (today : date)
    (fuel page_fuel : nat) (child_sync : stream_class -> sync_args -> ST engine (nat * json))
    (self : stream) (a : sync_args) (acct_id data : json) (children : list string)
    (acc : json * dict) (e : engine) :
  (∀ child, child ∈ children -> child ∉ a_selected_streams a) ->
  fold_st (sync_children_of_page selected_of today fuel page_fuel child_sync self a acct_id data)
          children acc e = (Return acc, e).
Proof.
  intros Hsel. induction children as [|child children IH]; [reflexivity|].
  cbn [fold_st]. unfold sync_children_of_page at 1.
  rewrite bool_decide_eq_false_2 by (apply Hsel; by left).
  rewrite sbind_sret. apply IH. intros c Hc. apply Hsel. by right.
Qed.

(** Without a selected child, the pages are those of the stream alone. *)
Lemma page_loop_no_child (selected_of : string -> list string) (today : date)
    (fuel page_fuel : nat) (child_sync : stream_class -> sync_args -> ST engine (nat * json))
    (n : nat) (self : stream) (children : list string) (a : sync_args) (kw : sync_kwargs)
    (bookmark_field : string) (last_datetime acct_id : json) (next_url : string)
    (counted : nat * json) (families : json * dict) (e : engine) :
  (∀ child, child ∈ children -> child ∉ a_selected_streams a) ->
  kw_client kw = a_client a ->
  kw_selected_streams kw = a_selected_streams a ->
  kw_parent_id kw = fst families ->
  page_loop_with_children selected_of today fuel page_fuel child_sync n self children a
    bookmark_field last_datetime acct_id next_url (counted, families) e
  = (x <~ on_world (page_loop n self kw bookmark_field last_datetime next_url counted) ;;
     sret (x, families)) e.
Proof.
  intros Hsel Hclient Hselected Hparent.
  revert next_url counted e. induction n as [|n IH]; intros next_url counted e.
  { by destruct e. }
  cbn [page_loop_with_children page_loop fst snd].
  rewrite sbind_on_world_sbind, Hclient.
  apply sbind_cong; [reflexivity|]. intros data e1.
  rewrite sbind_on_world_sbind.
  apply sbind_cong; [by rewrite on_world_liftO|]. intros has_data e2.
  rewrite sbind_on_world_sbind.
  apply sbind_cong; [by rewrite on_world_liftO|]. intros transformed_data e3.
  destruct (py_truthy transformed_data); [|by rewrite sbind_on_world_sret].
  rewrite sbind_on_world_sbind, Hselected, Hparent.
  apply sbind_cong.
  { destruct (bool_decide _); [|by rewrite on_world_sret].
    rewrite on_world_sbind. apply sbind_cong; [by rewrite on_world_liftO|]. intros records e4.
    rewrite on_world_sbind. apply sbind_cong; [reflexivity|]. intros processed e5.
    by rewrite on_world_sret. }
  intros counted' e4.
  unfold sbind at 1. rewrite sync_children_unselected by done.
  rewrite sbind_on_world_sbind.
  apply sbind_cong; [by rewrite on_world_liftO|]. intros [url|] e5.
  - destruct (decide (url = "")); [|apply IH].
    by rewrite sbind_on_world_sret.
  - by rewrite sbind_on_world_sret.
Qed.

Lemma fold_pages_no_child (selected_of : string -> list string) (today : date)
    (fuel page_fuel : nat) (child_sync : stream_class -> sync_args -> ST engine (nat * json))
    (self : stream) (children : list string) (a : sync_args) (kw : sync_kwargs)
    (bookmark_field : string) (last_datetime : json) (urls : list (json * string))
    (counted : nat * json) (families : json * dict) (e : engine) :
  (∀ child, child ∈ children -> child ∉ a_selected_streams a) ->
  kw_client kw = a_client a ->
  kw_selected_streams kw = a_selected_streams a ->
  kw_parent_id kw = fst families ->
  fold_st (fun acc entry =>
             page_loop_with_children selected_of today fuel page_fuel child_sync fuel self
               children a bookmark_field last_datetime (fst entry) (snd entry) acc)
          urls (counted, families) e
  = (x <~ on_world (fold_st (fun acc entry =>
                               page_loop fuel self kw bookmark_field last_datetime
                                 (snd entry) acc) urls counted) ;;
     sret (x, families)) e.
Proof.
  intros Hsel Hclient Hselected Hparent.
  revert counted e. induction urls as [|entry urls IH]; intros counted e.
  { cbn [fold_st]. by rewrite sbind_on_world_sret. }
  cbn [fold_st]. rewrite sbind_on_world_sbind.
  etransitivity.
  { apply sbind_cong; [by apply (page_loop_no_child _ _ _ _ _ _ _ _ _ kw)|reflexivity]. }
  rewrite sbind_assoc. apply sbind_cong; [reflexivity|]. intros x e1.
  rewrite sbind_sret. apply IH.
Qed.

(** The sync of a stream none of whose children is selected. *)
Lemma sync_endpoint_of_class_alone (selected_of : string -> list string) (today : date)
    (fuel page_fuel : nat) (child_sync : stream_class -> sync_args -> ST engine (nat * json))
    (cls : stream_class) (a : sync_args) (e : engine) :
  (∀ child, child ∈ cls_children cls -> child ∉ a_selected_streams a) ->
  sync_endpoint_of_class selected_of today fuel page_fuel child_sync cls a e
  = on_world (sync_endpoint fuel (instance cls e) (kwargs a e)) e.
Proof.
  intros Hsel. unfold sync_endpoint_of_class, sync_endpoint.
  unfold sbind at 1. unfold gets at 1. unfold sbind at 1. unfold gets at 1.
  cbn [kwargs kw_state kw_start_date kw_page_size kw_parent_id kw_account_list].
  rewrite on_world_sbind.
  apply sbind_cong; [by rewrite on_world_liftO|]. intros bookmark_field e1.
  unfold sbind at 1. rewrite init_children_unselected by done.
  etransitivity.
  { apply sbind_cong; [|reflexivity].
    by apply (fold_pages_no_child _ _ _ _ _ _ _ _ (kwargs a e)). }
  rewrite sbind_assoc. unfold sbind, sret. cbn [fst snd for_each].
  by destruct (on_world _ e1) as [[x| |] e2].
Qed.

(** X19: when none of the children of a stream is selected,
    [sync_endpoint] does what it does for a stream without children: the
    same requests, records and result; it writes no schema and no STATE
    message, and leaves the state object and the parameters of every
    class as they were. *)
Theorem sync_endpoint_no_selected_child (selected_of : string -> list string) (today : date)
    (fuel page_fuel : nat) (child_sync : stream_class -> sync_args -> ST engine (nat * json))
    (cls : stream_class) (a : sync_args) (e : engine) :
  Forall (fun child => child ∉ a_selected_streams a) (cls_children cls) ->
  let run := sync_endpoint_of_class selected_of today fuel page_fuel child_sync cls a e in
  let alone := sync_endpoint fuel (instance cls e) (kwargs a e) (eng_world e) in
  fst run = fst alone
  ∧ eng_world (snd run) = snd alone
  ∧ eng_schemas (snd run) = eng_schemas e
  ∧ eng_states (snd run) = eng_states e
  ∧ eng_state (snd run) = eng_state e
  ∧ eng_params (snd run) = eng_params e.
Proof.
  intros Hsel run alone. subst run alone.
  rewrite sync_endpoint_of_class_alone by (by apply Forall_forall).
  unfold on_world. by destruct (sync_endpoint _ _ _ _) as [o w].
Qed.

(** X20: under [accounts], a sync of [video_ads] that is refused for
    missing permissions does not stop the sync of the accounts: the child
    counts as synced up to the bookmark it had, [child_max_bookmarks] stays
    as it is, and only the refused requests are added.  The child is called
    with the page size 1000 of [accounts] and the account of the record. *)
Theorem accounts_video_ads_denied (selected_of : string -> list string) (today : date)
    (depth fuel page_fuel : nat) (a : sync_args) (acct_id : json) (acc : json * dict)
    (record parent_id : json) (e : engine) (error : exn) (w' : world)
    (child_max_bookmark : json) (d_batch d_max : date) :
  let video_ads := StreamClass VideoAds [] (Some "id") in
  let a' := SyncArgs (a_client a) (JNum 1000) (a_start_date a) (a_selected_streams a)
                     (a_date_window_size a) parent_id [acct_id] in
  py_get record "id" JNull = Return parent_id ->
  sync_endpoint fuel (instance video_ads e) (kwargs a' e) (eng_world e) = (Raise error, w') ->
  str_contains PERMISSION_DENIED (exn_str error) = true ->
  dict_get "video_ads" (snd acc) = Some child_max_bookmark ->
  strptime_to_utc (get_bookmark VideoAds (eng_state e) (a_start_date a)) = Ok d_batch ->
  strptime_to_utc child_max_bookmark = Ok d_max ->
  d_batch <= d_max ->
  sync_child selected_of today fuel page_fuel
    (sync_stream selected_of today (S depth) fuel page_fuel)
    (cls_stream Accounts) a acct_id video_ads acc record e
  = (Return (parent_id, snd acc),
     Engine w' (eng_state e) (eng_states e) (eng_schemas e) (eng_params e)).
Proof.
  intros video_ads a' Hid Hraise Htext Hmax Hbatch Hparse Hle.
  unfold sync_child. change (foreign_key_of video_ads record) with (py_get record "id" JNull).
  rewrite Hid, sbind_liftO_Return.
  change (set_child_filter (cls_stream Accounts) video_ads parent_id)
    with (sret tt : ST engine unit).
  rewrite sbind_sret.
  change (tap_stream_id (cls_stream video_ads)) with "video_ads".
  assert (Hother : bool_decide ("video_ads" ∈ ANALYTICS_STREAMS) = false) by (by vm_compute).
  rewrite Hother.
  change (effective_page_size (cls_stream Accounts) (a_page_size a)) with (JNum 1000).
  fold a'.
  assert (Hrun : sync_stream selected_of today (S depth) fuel page_fuel video_ads a' e
                 = (Return (O, get_bookmark VideoAds (eng_state e) (a_start_date a)),
                    Engine w' (eng_state e) (eng_states e) (eng_schemas e) (eng_params e))).
  { cbn [sync_stream].
    destruct (decide (tap_stream_id (cls_stream video_ads) = "video_ads")) as [_|Hne]; [|done].
    unfold try_except.
    rewrite sync_endpoint_of_class_alone by (intros child Hchild; inversion Hchild).
    unfold on_world at 1. rewrite Hraise, Htext. reflexivity. }
  unfold sbind at 1. rewrite Hrun. cbn [snd].
  rewrite Hbatch, Hmax. cbn [liftR default]. rewrite sbind_liftO_Return.
  cbn [id]. rewrite Hparse. cbn [liftR]. rewrite sbind_liftO_Return.
  by rewrite (proj2 (Z.ltb_ge d_max d_batch) Hle).
Qed.

(** ** The bookmarks of the children *)

Lemma same_or_later_trans (v1 v2 v3 : json) :
  same_or_later v1 v2 -> same_or_later v2 v3 -> same_or_later v1 v3.
Proof.
  forget_externals.
  intros [->|(d1 & d2 & H1 & H2 & Hlt)] [->|(d2' & d3 & H2' & H3 & Hlt')].
  - by left.
  - right. by exists d2', d3.
  - right. by exists d1, d2.
  - right. exists d1, d3. rewrite H2 in H2'. injection H2' as <-.
    split; [done|]. split; [done|]. by apply Z.lt_trans with d2.
Qed.

Lemma not_before_refl (cmb : dict) : not_before cmb cmb.
Proof. split; [done|]. intros name v Hv. exists v. split; [done|by left]. Qed.

Lemma not_before_trans (cmb1 cmb2 cmb3 : dict) :
  not_before cmb1 cmb2 -> not_before cmb2 cmb3 -> not_before cmb1 cmb3.
Proof.
  intros [Hnd Hle] [Hnd' Hle']. split; [auto|].
  intros name v Hv. destruct (Hle name v Hv) as (v2 & Hv2 & Hlater).
  destruct (Hle' name v2 Hv2) as (v3 & Hv3 & Hlater').
  exists v3. split; [done|]. by apply same_or_later_trans with v2.
Qed.

(** A loop keeps what each of its passes keeps. *)
Lemma fold_st_rel {S A B} (R : B -> B -> Prop) (body : B -> A -> ST S B) (xs : list A) :
  (∀ acc, R acc acc) ->
  (∀ acc1 acc2 acc3, R acc1 acc2 -> R acc2 acc3 -> R acc1 acc3) ->
  (∀ acc x s acc' s', body acc x s = (Return acc', s') -> R acc acc') ->
  ∀ acc s acc' s', fold_st body xs acc s = (Return acc', s') -> R acc acc'.
Proof.
  intros Hrefl Htrans Hbody. induction xs as [|x xs IH]; intros acc s acc' s' H.
  - injection H as <- _. apply Hrefl.
  - cbn [fold_st] in H. apply sbind_Return in H as (acc1 & s1 & Hstep & H).
    apply Htrans with acc1; [by apply Hbody in Hstep|by apply IH in H].
Qed.

(** The sync of one record by one child moves the bookmark of the child
    forward or leaves it. *)
Lemma sync_child_not_before (selected_of : string -> list string) (today : date)
    (fuel page_fuel : nat) (child_sync : stream_class -> sync_args -> ST engine (nat * json))
    (self : stream) (a : sync_args) (acct_id : json) (child_obj : stream_class)
    (acc : json * dict) (record : json) (e : engine) (acc' : json * dict) (e' : engine) :
  (∀ v d, strptime_to_utc v = Ok d -> strptime_to_utc (JStr (strftime d)) = Ok d) ->
  sync_child selected_of today fuel page_fuel child_sync self a acct_id child_obj acc record e
  = (Return acc', e') ->
  not_before (snd acc) (snd acc').
Proof.
  intros Hround H. unfold sync_child in H.
  apply sbind_Return in H as (parent_id & e1 & _ & H).
  apply sbind_Return in H as ([] & e2 & _ & H).
  apply sbind_Return in H as (result & e3 & _ & H).
  apply sbind_Return in H as (d_batch & e4 & Hbatch & H).
  apply sbind_Return in H as (d_max & e5 & Hmax & H).
  injection H as <- _. cbn [snd].
  destruct (strptime_to_utc (snd result)) as [d|] eqn:Hd; [|discriminate].
  injection Hbatch as <- _.
  destruct (strptime_to_utc (default JNull _)) as [d'|] eqn:Hd'; [|discriminate].
  injection Hmax as <- _.
  destruct (Z.ltb_spec d' d) as [Hlt|_]; [|apply not_before_refl].
  split; [apply al_set_NoDup|].
  intros name v Hv.
  destruct (decide (name = tap_stream_id (cls_stream child_obj))) as [->|Hne].
  - rewrite dict_get_set_eq. eexists. split; [done|]. right.
    rewrite Hv in Hd'. exists d', d. split; [done|]. split; [by apply Hround in Hd|done].
  - rewrite dict_get_set_ne by done. exists v. split; [done|by left].
Qed.

Section ChildBookmarks.

Variable selected_of : string -> list string.
Variable today : date.
Variable fuel page_fuel : nat.
Variable child_sync : stream_class -> sync_args -> ST engine (nat * json).
Hypothesis strftime_parses :
  ∀ v d, strptime_to_utc v = Ok d -> strptime_to_utc (JStr (strftime d)) = Ok d.

Lemma sync_children_of_page_not_before (self : stream) (a : sync_args) (acct_id data : json)
    (acc : json * dict) (child_stream_name : string) (e : engine)
    (acc' : json * dict) (e' : engine) :
  sync_children_of_page selected_of today fuel page_fuel child_sync self a acct_id data
    acc child_stream_name e = (Return acc', e') ->
  not_before (snd acc) (snd acc').
Proof using All.
  unfold sync_children_of_page. destruct (bool_decide _).
  2:{ intros H. injection H as <- _. apply not_before_refl. }
  intros H. apply sbind_Return in H as (child_obj & e1 & _ & H).
  apply sbind_Return in H as (records & e2 & _ & H).
  revert H. apply (fold_st_rel (fun x y : json * dict => not_before (snd x) (snd y))).
  - intros x. apply not_before_refl.
  - intros x y z. apply not_before_trans.
  - intros x record s y s'. by apply sync_child_not_before.
Qed.

Lemma page_loop_with_children_not_before (n : nat) (self : stream) (children : list string)
    (a : sync_args) (bookmark_field : string) (last_datetime acct_id : json)
    (next_url : string) (acc : nat * json * (json * dict)) (e : engine)
    (acc' : nat * json * (json * dict)) (e' : engine) :
  page_loop_with_children selected_of today fuel page_fuel child_sync n self children a
    bookmark_field last_datetime acct_id next_url acc e = (Return acc', e') ->
  not_before (snd (snd acc)) (snd (snd acc')).
Proof using All.
  revert next_url acc e. induction n as [|n IH]; intros next_url acc e H; [discriminate|].
  cbn [page_loop_with_children] in H.
  apply sbind_Return in H as (data & e1 & _ & H).
  apply sbind_Return in H as (has_data & e2 & _ & H).
  apply sbind_Return in H as (transformed_data & e3 & _ & H).
  destruct (py_truthy transformed_data).
  2:{ injection H as <- _. apply not_before_refl. }
  apply sbind_Return in H as (counted & e4 & _ & H).
  apply sbind_Return in H as (families & e5 & Hfamilies & H).
  apply sbind_Return in H as (next & e6 & _ & H).
  assert (Hpage : not_before (snd (snd acc)) (snd families)).
  { revert Hfamilies.
    apply (fold_st_rel (fun x y : json * dict => not_before (snd x) (snd y))).
    - intros x. apply not_before_refl.
    - intros x y z. apply not_before_trans.
    - intros x child s y s'. apply sync_children_of_page_not_before. }
  destruct next as [url|]; [destruct (decide (url = ""))|].
  - by injection H as <- _.
  - apply IH in H. by apply not_before_trans with (snd families).
  - by injection H as <- _.
Qed.

End ChildBookmarks.

(** The first loop over the children writes schemas only, and enters the
    stored bookmark of each selected child that has replication keys. *)
Lemma init_child_step (a : sync_args) (acc : dict) (child : string) (e : engine)
    (acc' : dict) (e' : engine) :
  init_child a acc child e = (Return acc', e') ->
  eng_state e' = eng_state e
  ∧ (acc' = acc ∧ ¬ (child ∈ a_selected_streams a
                     ∧ ∃ obj, stream_object child = Return obj
                              ∧ replication_keys (cls_stream obj) ≠ [])
     ∨ ∃ obj, stream_object child = Return obj
              ∧ acc' = dict_set child
                         (get_bookmark (cls_stream obj) (eng_state e) (a_start_date a)) acc).
Proof.
  forget_externals.
  unfold init_child. destruct (bool_decide_reflect (child ∈ a_selected_streams a)) as [Hsel|Hsel].
  2:{ intros H. injection H as <- <-. split; [done|]. left. split; [done|]. tauto. }
  destruct (stream_object child) as [obj| |] eqn:Hobj; [|discriminate|discriminate].
  rewrite sbind_liftO_Return. unfold sbind at 1, write_schema at 1, modify at 1.
  destruct (replication_keys (cls_stream obj)) as [|key keys] eqn:Hkeys.
  - intros H. injection H as <- <-. split; [done|]. left. split; [done|].
    intros (_ & obj' & Hobj' & Hne). injection Hobj' as <-. done.
  - intros H. injection H as <- <-. split; [done|]. right. by exists obj.
Qed.

Lemma init_children_bookmarks (a : sync_args) (children : list string) (acc : dict)
    (e : engine) (cmb : dict) (e' : engine) :
  fold_st (init_child a) children acc e = (Return cmb, e') ->
  eng_state e' = eng_state e
  ∧ (NoDup acc.*1 -> NoDup cmb.*1)
  ∧ (∀ k v, dict_get k cmb = Some v ->
       dict_get k acc = Some v
       ∨ ∃ obj, stream_object k = Return obj
                ∧ v = get_bookmark (cls_stream obj) (eng_state e) (a_start_date a))
  ∧ (∀ k, is_Some (dict_get k acc) -> is_Some (dict_get k cmb))
  ∧ (∀ child obj, child ∈ children -> child ∈ a_selected_streams a ->
       stream_object child = Return obj -> replication_keys (cls_stream obj) ≠ [] ->
       is_Some (dict_get child cmb)).
Proof.
  forget_externals.
  revert acc e. induction children as [|child children IH]; intros acc e H.
  { injection H as <- <-. repeat split; try done; [by left|]. intros child obj Hin. inversion Hin. }
  cbn [fold_st] in H. apply sbind_Return in H as (acc1 & e1 & Hstep & H).
  apply init_child_step in Hstep as [Hstate Hstep].
  apply IH in H as (Hstate' & Hnd & Hvalue & Hkeep & Hkeys). clear IH.
  rewrite Hstate in Hstate'. rewrite Hstate in Hvalue.
  split; [done|].
  destruct Hstep as [[-> Hnot]|(obj & Hobj & ->)].
  - repeat split; try done.
    intros c o Hin Hsel Ho Hne. apply elem_of_cons in Hin as [->|Hin]; [|by eauto].
    destruct Hnot. split; [done|]. by exists o.
  - split; [|split; [|split]].
    + intros Hacc. by apply Hnd, al_set_NoDup.
    + intros k v Hk. destruct (Hvalue k v Hk) as [Hset|Hinit]; [|by right].
      rewrite dict_get_set in Hset. destruct (decide (k = child)) as [->|Hne]; [|by left].
      injection Hset as <-. right. by exists obj.
    + intros k Hk. apply Hkeep. rewrite dict_get_set. by destruct (decide (k = child)).
    + intros c o Hin Hsel Ho Hne. apply elem_of_cons in Hin as [->|Hin]; [|by eauto].
      apply Hkeep. by rewrite dict_get_set_eq.
Qed.

(** The last loop writes every entry of [child_max_bookmarks] to the state. *)
Lemma write_bookmark_step (value : json) (stream_name : string) (e e' : engine) :
  on_state (write_bookmark value stream_name) e = (Return tt, e') ->
  ∃ state, eng_state e = Some state
    ∧ eng_state e' = Some (TapState (Some (<[stream_name := value]>
                                              (default ∅ (bookmarks state))))).
Proof.
  unfold on_state, write_bookmark. cbn [fst snd].
  destruct (eng_state e) as [state|]; [|discriminate].
  intros H. injection H as <-. by exists state.
Qed.

Lemma written_bookmarks_stay (l : dict) (e e' : engine) (state : tap_state)
    (stored : gmap string json) (k : string) (v : json) :
  for_each l (fun bookmark => on_state (write_bookmark (snd bookmark) (fst bookmark))) e
  = (Return tt, e') ->
  eng_state e = Some state -> bookmarks state = Some stored -> stored !! k = Some v ->
  k ∉ l.*1 ->
  ∃ state' stored', eng_state e' = Some state' ∧ bookmarks state' = Some stored'
                    ∧ stored' !! k = Some v.
Proof.
  forget_externals.
  revert e state stored. induction l as [|[k0 v0] l IH]; intros e state stored H Hst Hbs Hk Hnot.
  { injection H as <-. by exists state, stored. }
  cbn [for_each] in H. apply sbind_Return in H as ([] & e1 & Hstep & H).
  apply write_bookmark_step in Hstep as (state0 & Hst0 & Hst1). cbn [fst snd] in Hst1.
  rewrite Hst in Hst0. injection Hst0 as <-. rewrite Hbs in Hst1. cbn [default] in Hst1.
  apply not_elem_of_cons in Hnot as [Hne Hnot].
  apply (IH e1 _ _ H Hst1 eq_refl); [|done].
  by rewrite lookup_insert_ne.
Qed.

Lemma for_each_write_bookmark (l : dict) (e e' : engine) (k : string) (v : json) :
  for_each l (fun bookmark => on_state (write_bookmark (snd bookmark) (fst bookmark))) e
  = (Return tt, e') ->
  NoDup l.*1 -> dict_get k l = Some v ->
  ∃ state stored, eng_state e' = Some state ∧ bookmarks state = Some stored
                  ∧ stored !! k = Some v.
Proof.
  forget_externals.
  revert e. induction l as [|[k0 v0] l IH]; intros e H Hnd Hk; [discriminate|].
  cbn [for_each] in H. apply sbind_Return in H as ([] & e1 & Hstep & H).
  apply write_bookmark_step in Hstep as (state0 & Hst0 & Hst1). cbn [fst snd] in Hst1.
  apply NoDup_cons in Hnd as [Hnot Hnd].
  rewrite dict_get_cons in Hk. destruct (decide (k = k0)) as [->|Hne].
  - injection Hk as <-.
    apply (written_bookmarks_stay l e1 e' _ _ k0 v0 H Hst1 eq_refl); [|done].
    by rewrite lookup_insert_eq.
  - by apply (IH e1).
Qed.

(** X21: when [sync_endpoint] returns, the state holds a bookmark for
    every selected child that has replication keys, and that bookmark is
    the one the child had when the sync began or a later one; for this
    [strftime] has to give a string that parses to the instant it was
    given. *)
Theorem child_bookmarks_never_go_back (selected_of : string -> list string) (today : date)
    (fuel page_fuel : nat) (child_sync : stream_class -> sync_args -> ST engine (nat * json))
    (cls : stream_class) (a : sync_args) (e : engine) (returned : nat * json) (e' : engine) :
  (∀ v d, strptime_to_utc v = Ok d -> strptime_to_utc (JStr (strftime d)) = Ok d) ->
  sync_endpoint_of_class selected_of today fuel page_fuel child_sync cls a e
  = (Return returned, e') ->
  ∀ child child_obj,
    child ∈ cls_children cls -> child ∈ a_selected_streams a ->
    stream_object child = Return child_obj ->
    replication_keys (cls_stream child_obj) ≠ [] ->
    ∃ state stored after,
      eng_state e' = Some state ∧ bookmarks state = Some stored
      ∧ stored !! child = Some after
      ∧ same_or_later
          (get_bookmark (cls_stream child_obj) (eng_state e) (a_start_date a)) after.
Proof.
  intros Hround H child child_obj Hchild Hsel Hobj Hkeys.
  unfold sync_endpoint_of_class in H.
  apply sbind_Return in H as (self & e1 & Hself & H). injection Hself as <- <-.
  apply sbind_Return in H as (state0 & e2 & Hstate & H). injection Hstate as <- <-.
  apply sbind_Return in H as (bookmark_field & e3 & Hfield & H).
  assert (e3 = e) as -> by (by destruct (first_replication_key _); injection Hfield).
  apply sbind_Return in H as (cmb & e4 & Hinit & H).
  apply sbind_Return in H as (synced & e5 & Hsync & H).
  apply sbind_Return in H as ([] & e6 & Hwrite & H). injection H as _ <-.
  apply init_children_bookmarks in Hinit as (_ & Hnd & Hvalue & _ & Hpresent).
  destruct (Hpresent child child_obj Hchild Hsel Hobj Hkeys) as [before Hbefore].
  destruct (Hvalue child before Hbefore) as [Hempty|(obj & Hobj' & ->)]; [discriminate|].
  rewrite Hobj in Hobj'. injection Hobj' as <-.
  assert (Hlater : not_before cmb (snd (snd synced))).
  { revert Hsync.
    apply (fold_st_rel (fun x y : nat * json * (json * dict) =>
                          not_before (snd (snd x)) (snd (snd y)))).
    - intros x. apply not_before_refl.
    - intros x y z. apply not_before_trans.
    - intros x entry s y s'. by apply page_loop_with_children_not_before. }
  destruct Hlater as [Hnd' Hlater].
  destruct (Hlater child _ Hbefore) as (after & Hafter & Horder).
  destruct (for_each_write_bookmark _ _ _ child after Hwrite) as (state & stored & Hst & Hbs & Hk).
  { apply Hnd', Hnd. constructor. }
  { done. }
  by exists state, stored, after.
Qed.

(** ** What the sync of a stream leaves alone *)

Lemma liftO_Return {S A} (o : outcome A) (s s' : S) (x : A) :
  liftO o s = (Return x, s') -> o = Return x ∧ s' = s.
Proof. destruct o; intros H; try discriminate. by injection H as -> ->. Qed.

Lemma frame_refl (touched : string -> Prop) (e : engine) : frame touched e e.
Proof. by repeat split. Qed.

Lemma frame_trans (touched : string -> Prop) (e1 e2 e3 : engine) :
  frame touched e1 e2 -> frame touched e2 e3 -> frame touched e1 e3.
Proof.
  intros (H1 & H2 & H3 & H4) (H1' & H2' & H3' & H4').
  repeat split; try congruence. intros k Hk. rewrite H4' by done. by apply H4.
Qed.

Lemma on_world_frame {A} (touched : string -> Prop) (m : ST world A) (e : engine)
    (o : outcome A) (e' : engine) :
  on_world m e = (o, e') -> frame touched e e'.
Proof.
  unfold on_world. destruct (m (eng_world e)) as [o' w]. intros H. injection H as _ <-.
  by repeat split.
Qed.

(** A loop keeps what each of its passes keeps, of the state as well. *)
Lemma fold_st_frame {S A B} (R : S -> S -> Prop) (body : B -> A -> ST S B) (xs : list A) :
  (∀ s, R s s) ->
  (∀ s1 s2 s3, R s1 s2 -> R s2 s3 -> R s1 s3) ->
  (∀ acc x s acc' s', x ∈ xs -> body acc x s = (Return acc', s') -> R s s') ->
  ∀ acc s acc' s', fold_st body xs acc s = (Return acc', s') -> R s s'.
Proof.
  intros Hrefl Htrans. induction xs as [|x xs IH]; intros Hbody acc s acc' s' H.
  - injection H as _ <-. apply Hrefl.
  - cbn [fold_st] in H. apply sbind_Return in H as (acc1 & s1 & Hstep & H).
    apply Htrans with s1.
    + apply Hbody in Hstep; [done|by left].
    + apply IH in H; [done|]. intros acc0 x0 s0 acc0' s0' Hin. apply Hbody. by right.
Qed.

Lemma stream_object_id (name : string) (cls : stream_class) :
  stream_object name = Return cls -> tap_stream_id (cls_stream cls) = name.
Proof.
  forget_externals.
  unfold stream_object, STREAMS. cbn [al_get].
  repeat (destruct (decide (name = _)) as [->|_]; [by intros H; injection H as <-|]).
  discriminate.
Qed.

Lemma set_child_filter_frame (touched : string -> Prop) (self : stream)
    (child_obj : stream_class) (parent_id : json) (e e' : engine) :
  touched (tap_stream_id (cls_stream child_obj)) ->
  set_child_filter self child_obj parent_id e = (Return tt, e') ->
  frame touched e e'.
Proof.
  forget_externals.
  intros Htouched. unfold set_child_filter, set_class_param, modify.
  assert (Hset : ∀ key value,
            frame touched e
              (Engine (eng_world e) (eng_state e) (eng_states e) (eng_schemas e)
                 (<[tap_stream_id (cls_stream child_obj)
                    := dict_set key value (class_params child_obj e)]> (eng_params e)))).
  { intros key value. repeat split. intros k Hk. cbn [eng_params].
    apply lookup_insert_ne. by intros <-. }
  repeat case_decide; try case_bool_decide; intros Hrun; injection Hrun as <-;
    auto using frame_refl.
Qed.

(** The sync of a stream without children works on requests and records only. *)
Lemma childless_sync_frame (touched : string -> Prop) (selected_of : string -> list string)
    (today : date) (depth fuel page_fuel : nat) (cls : stream_class) (a : sync_args)
    (e : engine) (result : nat * json) (e' : engine) :
  cls_children cls = [] ->
  sync_stream selected_of today depth fuel page_fuel cls a e = (Return result, e') ->
  frame touched e e'.
Proof.
  intros Hnone. destruct depth as [|depth]; [discriminate|]. cbn [sync_stream].
  assert (Hbase : ∀ o e1,
            sync_endpoint_of_class selected_of today fuel page_fuel
              (sync_stream selected_of today depth fuel page_fuel) cls a e = (o, e1) ->
            frame touched e e1).
  { intros o e1. rewrite sync_endpoint_of_class_alone.
    - apply on_world_frame.
    - rewrite Hnone. intros child Hchild. inversion Hchild. }
  destruct (decide _) as [_|_]; [|apply Hbase].
  unfold try_except.
  destruct (sync_endpoint_of_class _ _ _ _ _ _ _ e) as [[r|error|] e1] eqn:Hrun.
  - intros H. injection H as _ <-. exact (Hbase _ _ eq_refl).
  - destruct (str_contains _ _); [|discriminate].
    intros H. injection H as _ <-. exact (Hbase _ _ eq_refl).
  - discriminate.
Qed.

Section Untouched.

Variable selected_of : string -> list string.
Variable today : date.
Variable depth fuel page_fuel : nat.
Variable touched : string -> Prop.

Lemma sync_child_frame (self : stream) (a : sync_args) (acct_id : json)
    (child_obj : stream_class) (acc : json * dict) (record : json) (e : engine)
    (acc' : json * dict) (e' : engine) :
  touched (tap_stream_id (cls_stream child_obj)) ->
  cls_children child_obj = [] ->
  sync_child selected_of today fuel page_fuel
    (sync_stream selected_of today depth fuel page_fuel)
    self a acct_id child_obj acc record e = (Return acc', e') ->
  frame touched e e'
  ∧ ∀ k, k ∈ (snd acc').*1 -> k ∈ (snd acc).*1 ∨ touched k.
Proof using All.
  intros Htouched Hnone H. unfold sync_child in H.
  apply sbind_Return in H as (parent_id & e1 & Hid & H).
  apply liftO_Return in Hid as [_ ->].
  apply sbind_Return in H as ([] & e2 & Hfilter & H).
  apply (set_child_filter_frame touched) in Hfilter; [|done].
  apply sbind_Return in H as (result & e3 & Hsync & H).
  apply sbind_Return in H as (d_batch & e4 & Hbatch & H).
  apply liftO_Return in Hbatch as [_ ->].
  apply sbind_Return in H as (d_max & e5 & Hmax & H).
  apply liftO_Return in Hmax as [_ ->].
  injection H as <- <-. split.
  - apply frame_trans with e2; [done|].
    destruct (bool_decide _).
    + apply sbind_Return in Hsync as (child & e6 & Hchild & Hsync).
      injection Hchild as <- <-.
      apply sbind_Return in Hsync as (state & e7 & Hstate & Hsync).
      injection Hstate as <- <-. by apply (on_world_frame touched) in Hsync.
    + by apply (childless_sync_frame touched) in Hsync.
  - cbn [snd]. intros k. destruct (_ <? _); [|by left].
    unfold dict_set. rewrite al_set_elem_of_keys. intros [->|Hk]; [by right|by left].
Qed.

Lemma sync_children_of_page_frame (children : list string) (self : stream) (a : sync_args)
    (acct_id data : json) (acc : json * dict) (child_stream_name : string) (e : engine)
    (acc' : json * dict) (e' : engine) :
  (∀ child obj, child ∈ children -> child ∈ a_selected_streams a ->
                stream_object child = Return obj ->
                cls_children obj = [] ∧ touched child) ->
  child_stream_name ∈ children ->
  sync_children_of_page selected_of today fuel page_fuel
    (sync_stream selected_of today depth fuel page_fuel)
    self a acct_id data acc child_stream_name e = (Return acc', e') ->
  frame touched e e'
  ∧ ∀ k, k ∈ (snd acc').*1 -> k ∈ (snd acc).*1 ∨ touched k.
Proof using All.
  intros Hchildren Hin. unfold sync_children_of_page.
  destruct (bool_decide_reflect (child_stream_name ∈ a_selected_streams a)) as [Hsel|_].
  2:{ intros H. injection H as <- <-. split; [apply frame_refl|]. intros k. by left. }
  intros H. apply sbind_Return in H as (child_obj & e1 & Hobj & H).
  apply liftO_Return in Hobj as [Hobj ->].
  apply sbind_Return in H as (records & e2 & Hrecords & H).
  apply liftO_Return in Hrecords as [_ ->].
  destruct (Hchildren _ _ Hin Hsel Hobj) as [Hnone Htouched].
  apply stream_object_id in Hobj. rewrite <- Hobj in Htouched.
  split.
  - revert H. apply fold_st_frame; [apply frame_refl|apply frame_trans|].
    intros x record s y s' _ Hstep. by apply sync_child_frame in Hstep as [? _].
  - revert H.
    apply (fold_st_rel (fun x y : json * dict =>
                          ∀ k, k ∈ (snd y).*1 -> k ∈ (snd x).*1 ∨ touched k)).
    + intros x k. by left.
    + intros x y z Hxy Hyz k Hk. destruct (Hyz k Hk) as [Hy|]; [by apply Hxy|by right].
    + intros x record s y s' Hstep. by apply sync_child_frame in Hstep as [_ ?].
Qed.

Lemma page_loop_with_children_frame (n : nat) (self : stream) (children : list string)
    (a : sync_args) (bookmark_field : string) (last_datetime acct_id : json)
    (next_url : string) (acc : nat * json * (json * dict)) (e : engine)
    (acc' : nat * json * (json * dict)) (e' : engine) :
  (∀ child obj, child ∈ children -> child ∈ a_selected_streams a ->
                stream_object child = Return obj ->
                cls_children obj = [] ∧ touched child) ->
  page_loop_with_children selected_of today fuel page_fuel
    (sync_stream selected_of today depth fuel page_fuel) n self children a
    bookmark_field last_datetime acct_id next_url acc e = (Return acc', e') ->
  frame touched e e'
  ∧ ∀ k, k ∈ (snd (snd acc')).*1 -> k ∈ (snd (snd acc)).*1 ∨ touched k.
Proof using All.
  intros Hchildren.
  revert next_url acc e. induction n as [|n IH]; intros next_url acc e H; [discriminate|].
  cbn [page_loop_with_children] in H.
  apply sbind_Return in H as (data & e1 & Hdata & H).
  apply (on_world_frame touched) in Hdata.
  apply sbind_Return in H as (has_data & e2 & Hhas & H).
  apply liftO_Return in Hhas as [_ ->].
  apply sbind_Return in H as (transformed_data & e3 & Htransformed & H).
  apply liftO_Return in Htransformed as [_ ->].
  destruct (py_truthy transformed_data).
  2:{ injection H as <- <-. split; [done|]. intros k. by left. }
  apply sbind_Return in H as (counted & e4 & Hcounted & H).
  assert (Hown : frame touched e1 e4).
  { destruct (bool_decide _).
    - apply sbind_Return in Hcounted as (records & e5 & Hrecords & Hcounted).
      apply liftO_Return in Hrecords as [_ ->].
      apply sbind_Return in Hcounted as (processed & e6 & Hprocessed & Hcounted).
      apply (on_world_frame touched) in Hprocessed. by injection Hcounted as _ <-.
    - injection Hcounted as _ <-. apply frame_refl. }
  apply sbind_Return in H as (families & e5 & Hfamilies & H).
  apply sbind_Return in H as (next & e6 & Hnext & H).
  apply liftO_Return in Hnext as [_ ->].
  assert (Hpage : frame touched e4 e5
                  ∧ ∀ k, k ∈ (snd families).*1 -> k ∈ (snd (snd acc)).*1 ∨ touched k).
  { split.
    - revert Hfamilies. apply fold_st_frame; [apply frame_refl|apply frame_trans|].
      intros x child s y s' Hin Hstep.
      by apply (sync_children_of_page_frame children) in Hstep as [? _].
    - assert (Hall : ∀ l, l ⊆ children -> ∀ x s y s',
                fold_st (sync_children_of_page selected_of today fuel page_fuel
                           (sync_stream selected_of today depth fuel page_fuel)
                           self a acct_id transformed_data) l x s = (Return y, s') ->
                ∀ k, k ∈ (snd y).*1 -> k ∈ (snd x).*1 ∨ touched k).
      { induction l as [|child l IHl]; intros Hl x s y s' Hrun k Hk.
        - injection Hrun as <- _. by left.
        - cbn [fold_st] in Hrun. apply sbind_Return in Hrun as (x1 & s1 & Hstep & Hrun).
          apply (sync_children_of_page_frame children) in Hstep as [_ Hstep];
            [|done|apply Hl; by left].
          destruct (IHl (λ c Hc, Hl c (list_elem_of_further _ _ _ Hc)) _ _ _ _ Hrun k Hk)
            as [Hx1|]; [by apply Hstep|by right]. }
      by apply (Hall children) with e4 e5. }
  destruct Hpage as [Hframe Hkeys].
  assert (Hhere : frame touched e e5).
  { apply frame_trans with e1; [done|]. by apply frame_trans with e4. }
  destruct next as [url|]; [destruct (decide (url = ""))|].
  - by injection H as <- <-.
  - apply IH in H as [Hrest Hkeys']. split; [by apply frame_trans with e5|].
    intros k Hk. destruct (Hkeys' k Hk) as [Hfam|]; [by apply Hkeys|by right].
  - by injection H as <- <-.
Qed.

End Untouched.

Lemma init_child_frame (a : sync_args) (acc : dict) (child : string) (e : engine)
    (acc' : dict) (e' : engine) :
  init_child a acc child e = (Return acc', e') ->
  e' = Engine (eng_world e) (eng_state e) (eng_states e)
         (eng_schemas e ++ filter (.∈ a_selected_streams a) [child]) (eng_params e)
  ∧ ∀ k, k ∈ acc'.*1 -> k ∈ acc.*1 ∨ (k = child ∧ child ∈ a_selected_streams a).
Proof.
  forget_externals.
  unfold init_child. rewrite filter_cons, filter_nil.
  destruct (decide (child ∈ a_selected_streams a)) as [Hsel|Hsel].
  - rewrite bool_decide_eq_true_2 by done. intros H.
    apply sbind_Return in H as (obj & e2 & Hobj & H).
    apply liftO_Return in Hobj as [Hobj ->]. apply stream_object_id in Hobj.
    apply sbind_Return in H as ([] & e3 & Hschema & H).
    injection Hschema as <-. rewrite Hobj in H.
    destruct (replication_keys (cls_stream obj)).
    + injection H as <- <-. split; [done|]. intros k. by left.
    + injection H as <- <-. split; [done|]. intros k.
      unfold dict_set. rewrite al_set_elem_of_keys. intros [->|Hk]; [by right|by left].
  - rewrite bool_decide_eq_false_2 by done. intros H. injection H as <- <-.
    rewrite app_nil_r. split; [by destruct e|]. intros k. by left.
Qed.

Lemma init_children_frame (a : sync_args) (children : list string) (acc : dict)
    (e : engine) (cmb : dict) (e' : engine) :
  fold_st (init_child a) children acc e = (Return cmb, e') ->
  e' = Engine (eng_world e) (eng_state e) (eng_states e)
         (eng_schemas e ++ filter (.∈ a_selected_streams a) children) (eng_params e)
  ∧ ∀ k, k ∈ cmb.*1 -> k ∈ acc.*1 ∨ (k ∈ children ∧ k ∈ a_selected_streams a).
Proof.
  forget_externals.
  revert acc e. induction children as [|child children IH]; intros acc e H.
  { injection H as <- <-. rewrite filter_nil, app_nil_r.
    split; [by destruct e|]. intros k. by left. }
  cbn [fold_st] in H. apply sbind_Return in H as (acc1 & e1 & Hstep & H).
  apply init_child_frame in Hstep as [-> Hstep].
  apply IH in H as [-> Hkeys]. clear IH. cbn [eng_world eng_state eng_states eng_schemas eng_params].
  split.
  - rewrite <- app_assoc. by rewrite <- filter_app.
  - intros k Hk. destruct (Hkeys k Hk) as [Hacc1|[Hin Hsel]].
    + destruct (Hstep k Hacc1) as [|[-> Hsel]]; [by left|right]. split; [by left|done].
    + right. split; [by right|done].
Qed.

Lemma for_each_write_frame (l : dict) (e e' : engine) :
  for_each l (fun bookmark => on_state (write_bookmark (snd bookmark) (fst bookmark))) e
  = (Return tt, e') ->
  eng_world e' = eng_world e ∧ eng_schemas e' = eng_schemas e ∧ eng_params e' = eng_params e
  ∧ ∀ other dflt, tap_stream_id other ∉ l.*1 ->
      get_bookmark other (eng_state e') dflt = get_bookmark other (eng_state e) dflt.
Proof.
  forget_externals.
  revert e. induction l as [|[k0 v0] l IH]; intros e H.
  { by injection H as <-. }
  cbn [for_each] in H. apply sbind_Return in H as ([] & e1 & Hstep & H).
  apply IH in H as (-> & -> & -> & Hrest). clear IH.
  pose proof (write_bookmark_step _ _ _ _ Hstep) as (state & Hstate & Hstate1).
  unfold on_state, write_bookmark in Hstep. cbn [fst snd] in Hstep, Hstate1.
  rewrite Hstate in Hstep. injection Hstep as <-.
  cbn [eng_world eng_schemas eng_params eng_state] in *.
  repeat split. intros other dflt Hnot. apply not_elem_of_cons in Hnot as [Hne Hnot].
  rewrite Hrest by done. rewrite Hstate. unfold get_bookmark. cbn [bookmarks].
  rewrite lookup_insert_ne by done.
  destruct (bookmarks state); [done|]. cbn [default]. by rewrite lookup_empty.
Qed.

(** X22: when [sync_endpoint] of a stream whose children have no children
    returns, it has written the schema of each selected child once, in
    the order of [children], and no other schema; the stored bookmark and
    the class parameters of every stream that is not a selected child,
    the stream itself among them, are as they were. *)
Theorem sync_endpoint_touches_children_only (selected_of : string -> list string)
    (today : date) (depth fuel page_fuel : nat) (cls : stream_class) (a : sync_args)
    (e : engine) (returned : nat * json) (e' : engine) :
  (∀ child obj, child ∈ cls_children cls -> stream_object child = Return obj ->
                cls_children obj = []) ->
  sync_endpoint_of_class selected_of today fuel page_fuel
    (sync_stream selected_of today depth fuel page_fuel) cls a e = (Return returned, e') ->
  eng_schemas e' = eng_schemas e ++ filter (.∈ a_selected_streams a) (cls_children cls)
  ∧ ∀ other,
      ¬ (tap_stream_id other ∈ cls_children cls
         ∧ tap_stream_id other ∈ a_selected_streams a) ->
      (∀ dflt, get_bookmark other (eng_state e') dflt = get_bookmark other (eng_state e) dflt)
      ∧ eng_params e' !! tap_stream_id other = eng_params e !! tap_stream_id other.
Proof.
  intros Hchildless H.
  set (touched := fun k => k ∈ cls_children cls ∧ k ∈ a_selected_streams a).
  unfold sync_endpoint_of_class in H.
  apply sbind_Return in H as (self & e1 & Hself & H). injection Hself as <- <-.
  apply sbind_Return in H as (state0 & e2 & Hstate & H). injection Hstate as <- <-.
  apply sbind_Return in H as (bookmark_field & e3 & Hfield & H).
  apply liftO_Return in Hfield as [_ ->].
  apply sbind_Return in H as (cmb & e4 & Hinit & H).
  apply init_children_frame in Hinit as [-> Hkeys0].
  apply sbind_Return in H as (synced & e5 & Hsync & H).
  apply sbind_Return in H as ([] & e6 & Hwrite & H). injection H as _ <-.
  assert (Hpages : frame touched
                     (Engine (eng_world e) (eng_state e) (eng_states e)
                        (eng_schemas e ++ filter (.∈ a_selected_streams a) (cls_children cls))
                        (eng_params e)) e5
                   ∧ ∀ k, k ∈ (snd (snd synced)).*1 -> touched k).
  { assert (Hall : ∀ child obj, child ∈ cls_children cls -> child ∈ a_selected_streams a ->
                     stream_object child = Return obj -> cls_children obj = [] ∧ touched child).
    { intros child obj Hin Hsel Hobj. split; [by apply (Hchildless child)|done]. }
    split.
    - revert Hsync. apply fold_st_frame; [apply frame_refl|apply frame_trans|].
      intros x entry s y s' _ Hstep.
      by apply (page_loop_with_children_frame _ _ _ _ _ touched) in Hstep as [? _].
    - assert (Hkeys : ∀ k, k ∈ (snd (snd synced)).*1 -> k ∈ cmb.*1 ∨ touched k).
      { revert Hsync.
        apply (fold_st_rel (fun x y : nat * json * (json * dict) =>
                 ∀ k, k ∈ (snd (snd y)).*1 -> k ∈ (snd (snd x)).*1 ∨ touched k)).
        - intros x k. by left.
        - intros x y z Hxy Hyz k Hk. destruct (Hyz k Hk) as [Hy|]; [by apply Hxy|by right].
        - intros x entry s y s' Hstep.
          by apply (page_loop_with_children_frame _ _ _ _ _ touched) in Hstep as [_ ?]. }
      intros k Hk. destruct (Hkeys k Hk) as [Hcmb|]; [|done].
      destruct (Hkeys0 k Hcmb) as [Hnil|]; [inversion Hnil|done]. }
  destruct Hpages as [(Hstate & _ & Hschemas & Hparams) Hkeys].
  apply for_each_write_frame in Hwrite as (_ & Hschemas' & Hparams' & Hbookmarks).
  cbn [eng_state eng_schemas eng_params] in *.
  split; [congruence|]. intros other Hother. split.
  - intros dflt. rewrite Hbookmarks, Hstate; [done|]. intros Hin. by apply Hother, Hkeys.
  - rewrite Hparams'. by apply Hparams.
Qed.

End Tap.

Lemma chunking_40_fields_witness :
  ∃ c1 c2 c3 : list string,
    split_into_chunks (replicate 40 "clicks") MAX_CHUNK_LENGTH = Return [c1; c2; c3]
    ∧ length c1 = 18%nat ∧ length c2 = 18%nat ∧ length c3 = 4%nat.
Proof.
  destruct (chunking_40_fields (replicate 40 "clicks") eq_refl)
    as (c1 & c2 & c3 & H1 & H2 & H3 & H4 & _).
  exists c1, c2, c3. auto.
Defined.

(** * Examples *)


(** The filter on four records around the bookmark: the record before
    the bookmark is not written; the counter logs at the second record
    written and counts from there. *)
Lemma process_records_emits_witness :
  ∃ new_max count,
    process_records sample_strptime sample_transform logs_at_second VideoAds
      (JObj <$> sample_records)
      (Some "last_modified_time") JNull (JStr "2024-01-01T00:00:00Z") JNull (World [] [])
    = (Return (new_max, count),
       World [] (pair "video_ads" <$>
                   [ [("id", JNum 1); ("last_modified_time", JStr "2024-01-02T00:00:00Z")];
                     [("id", JNum 3); ("last_modified_time", JStr "2024-01-01T00:00:00Z")];
                     [("id", JNum 4)] ]))
    ∧ (count <= 3)%nat.
Proof.
  destruct (process_records_emits sample_strptime sample_transform logs_at_second VideoAds
              (JObj <$> sample_records) sample_records (Some "last_modified_time")
              JNull (JStr "2024-01-01T00:00:00Z") JNull (World [] []))
    as ((new_max & count & Hrun & Hcount) & _ & _).
  - repeat constructor.
  - intros written value Hin Hvalue.
    repeat (apply elem_of_cons in Hin as [->|Hin]);
      [..|by apply elem_of_nil in Hin]; vm_compute in Hvalue;
      try discriminate Hvalue; injection Hvalue as <-; by eexists.
  - by eexists.
  - by left.
  - exists new_max, count. split; [exact Hrun|exact Hcount].
Defined.

(** In that run three records are written and the count returned is 1. *)
Example process_records_counter_logs :
  fst (process_records sample_strptime sample_transform logs_at_second VideoAds
         (JObj <$> sample_records)
         (Some "last_modified_time") JNull (JStr "2024-01-01T00:00:00Z") JNull (World [] []))
  = Return (JStr "2024-01-02T00:00:00Z", 1%nat).
Proof. vm_compute. reflexivity. Qed.

(** The window 2023-12-25 to 2024-01-24 advanced by 30 days on
    2024-02-01. *)
Lemma shift_sync_window_advance_witness :
  ∃ new_params,
    shift_sync_window (with_date_range [] 738879 738909) 738917 30 None
    = Return (738909, 738917, new_params)
    ∧ params_window new_params 738909 738917.
Proof.
  destruct (shift_sync_window_advance (with_date_range [] 738879 738909)
              738879 738909 738917 30 None) as (new_params & Hshift & Hwindow & _).
  - vm_compute. by repeat split.
  - vm_compute. by split.
  - vm_compute. by split.
  - vm_compute. by split.
  - lia.
  - lia.
  - discriminate.
  - vm_compute. discriminate.
  - by exists new_params.
Defined.

(** The scenario of the two windows on a client with empty pages. *)
Lemma analytics_two_windows_witness :
  let today := _ymd2ord 2024 2 1 in
  let d1 := _ymd2ord 2023 12 25 in
  let d2 := _ymd2ord 2024 1 24 in
  ∃ chunks bookmark_field last_datetime_dt,
    let sync := sync_window sample_repr sample_unquote sample_re_sub sample_strptime
                  sample_strftime sample_transform sample_transform_json never_logs 5 empty_pages
                  AdAnalyticsByCampaign chunks bookmark_field
                  (JStr "2024-01-01T00:00:00Z") last_datetime_dt (JNum 7) in
    sync_ad_analytics sample_repr sample_unquote sample_re_sub sample_strptime
      sample_strftime sample_transform sample_transform_json never_logs 5 5 AdAnalyticsByCampaign
      empty_pages ["clicks"; "impressions"] (JStr "2024-01-01T00:00:00Z") 30 (JNum 7)
      today (World [] [])
    = (first <~ sync (with_date_range (params AdAnalyticsByCampaign) d1 d2) O
                  (JStr "2024-01-01T00:00:00Z") ;;
       second <~ sync (with_date_range (fst (fst first)) d2 today)
                   (snd (fst first)) (snd first) ;;
       sret (snd (fst second), snd second)) (World [] []).
Proof.
  intros today d1 d2.
  destruct (analytics_two_windows sample_repr sample_unquote sample_re_sub sample_strptime
              sample_strftime sample_transform sample_transform_json never_logs AdAnalyticsByCampaign
              empty_pages ["clicks"; "impressions"] (JStr "2024-01-01T00:00:00Z") (JNum 7)
              (738885 * MICROSECONDS_PER_DAY) 5 5 (World [] []))
    as (chunks & bookmark_field & dt & _ & _ & Hrun).
  - discriminate.
  - reflexivity.
  - reflexivity.
  - lia.
  - exists chunks, bookmark_field, dt. exact Hrun.
Defined.

(** The requests of that run: the two chunks of fields on the first
    window, then on the second. *)
Example analytics_two_windows_requests :
  length (requests (snd (sync_ad_analytics sample_repr sample_unquote sample_re_sub
      sample_strptime sample_strftime sample_transform sample_transform_json never_logs 5 5
      AdAnalyticsByCampaign empty_pages ["clicks"; "impressions"]
      (JStr "2024-01-01T00:00:00Z") 30 (JNum 7) (_ymd2ord 2024 2 1) (World [] []))))
  = 4%nat.
Proof. vm_compute. reflexivity. Qed.

(** A failed lookup of one code: the code resolves to itself. *)
Lemma resolve_never_raises_witness :
  ∃ resolved,
    resolve sample_repr GeoResolver failing None {["urn:li:geo:103"]} (World [] [])
    = (Return resolved, World [chunk_request GeoResolver None ["103"]] [])
    ∧ is_Some (resolved !! "103").
Proof.
  destruct (resolve_never_raises sample_repr GeoResolver failing None
              {["urn:li:geo:103"]} (World [] [])) as (resolved & Hrun & Hfailed & _).
  exists resolved. split; [exact Hrun|].
  apply (Hfailed O ["103"] (Exn "Exception" "HTTP-error-code: 429")); [reflexivity..|].
  by constructor.
Defined.

(** A successful response that does not carry the requested code: the
    code has no entry in the mapping. *)
Lemma resolve_absent_code_no_entry :
  ∃ resolved w',
    resolve sample_repr GeoResolver no_entries None {["urn:li:geo:103"]} (World [] [])
    = (Return resolved, w')
    ∧ "103" ∈ (set_map last_segment ({["urn:li:geo:103"]} : gset string) : gset string)
    ∧ resolved !! "103" = None.
Proof.
  exists ∅, (World [chunk_request GeoResolver None ["103"]] []).
  split; [vm_compute; reflexivity|]. split; [|reflexivity].
  by vm_compute.
Qed.

(** 200 title codes, the second request failing. *)
Lemma two_batches_second_fails_witness :
  let codes : gset string := set_map last_segment (sample_urns "urn:li:title:") in
  ∃ resolved w',
    resolve sample_repr TitlesResolver (first_answered TitlesResolver codes) (Some "en_US")
      (sample_urns "urn:li:title:") (World [] [])
    = (Return resolved, w')
    ∧ length (requests w') = 2%nat
    ∧ (∀ code, code ∈ take 150 (elements codes) ->
         resolved !! code = Some (JStr (sample_name code)))
    ∧ (∀ code, code ∈ drop 150 (elements codes) -> resolved !! code = Some (JStr code)).
Proof.
  intros codes.
  destruct (two_batches_second_fails sample_repr TitlesResolver
              (first_answered TitlesResolver codes) (Some "en_US")
              (sample_urns "urn:li:title:") (World [] []) sample_name
              (Exn "Exception" "HTTP-error-code: 500"))
    as (resolved & Hrun & _ & _ & _ & Hfirst & Hsecond).
  - discriminate.
  - vm_compute. reflexivity.
  - intros c. discriminate.
  - vm_compute. reflexivity.
  - vm_compute. reflexivity.
  - eexists resolved, _. split; [exact Hrun|].
    split; [reflexivity|]. split; [exact Hfirst|exact Hsecond].
Defined.

(** The seniorities resolver asks once for 200 distinct codes. *)
Lemma seniorities_one_request :
  size (set_map last_segment (sample_urns "urn:li:seniority:") : gset string) = 200%nat
  ∧ length (requests (snd (resolve sample_repr SenioritiesResolver failing None
                             (sample_urns "urn:li:seniority:") (World [] [])))) = 1%nat.
Proof. split; vm_compute; reflexivity. Qed.

(** Two pages with one record each for the same campaign and day. *)
Lemma merge_responses_union_witness :
  let K := (KStr campaign11, "2024-1-5") in
  ∃ records w',
    merge_responses sample_repr (JStr "CAMPAIGN")
      [ JArr [sample_element campaign11 [("clicks", JNum 3); ("impressions", JNum 10)]];
        JArr [sample_element campaign11 [("clicks", JNum 4); ("likes", JNum 1)]] ]
      None None (World [] [])
    = (Return records, w')
    ∧ field_at "impressions" K records = Some (JNum 10)
    ∧ field_at "likes" K records = Some (JNum 1)
    ∧ field_at "clicks" K records = Some (JNum 4).
Proof.
  intros K.
  set (e1 := sample_element campaign11 [("clicks", JNum 3); ("impressions", JNum 10)]).
  set (e2 := sample_element campaign11 [("clicks", JNum 4); ("likes", JNum 1)]).
  destruct (merge_responses_union sample_repr (JStr "CAMPAIGN") [JArr [e1]; JArr [e2]]
              [[e1]; [e2]]
              ((fun e => (K, match decorated (JStr "CAMPAIGN") e with
                             | Return d => d
                             | _ => []
                             end)) <$> [e1; e2])
              None None (World [] []))
    as (records & w' & Hrun & _ & _ & Hfields).
  - repeat constructor.
  - repeat constructor.
  - repeat constructor; intros d [= <-]; by apply (bool_decide_unpack _).
  - intros [config Hconfig]. discriminate Hconfig.
  - exists records, w'. split; [exact Hrun|].
    rewrite !Hfields by (left; done). by repeat split.
Defined.

(** A record of the industry stream, merged with a client. *)
Lemma merge_responses_pivot_witness :
  let K := (KStr industry47, "2024-1-5") in
  ∃ records w',
    merge_responses sample_repr (JStr "MEMBER_INDUSTRY")
      [JArr [sample_element industry47 [("clicks", JNum 3)]]]
      (Some industries) (Some "ad_analytics_by_member_industry") (World [] [])
    = (Return records, w')
    ∧ field_at "pivot" K records = Some (JStr "MEMBER_INDUSTRY")
    ∧ field_at "pivot_value" K records = Some (JStr industry47)
    ∧ field_at "pivot_value_name" K records = Some (JStr "Accounting").
Proof.
  intros K.
  set (e := sample_element industry47 [("clicks", JNum 3)]).
  destruct (merge_responses_pivot sample_repr (JStr "MEMBER_INDUSTRY") [JArr [e]] [[e]]
              [(K, match decorated (JStr "MEMBER_INDUSTRY") e with
                   | Return d => d
                   | _ => []
                   end)]
              (Some industries) (Some "ad_analytics_by_member_industry") (World [] []))
    as (records & w' & Hrun & _).
  - repeat constructor.
  - repeat constructor.
  - repeat constructor; intros d [= <-]; by apply (bool_decide_unpack _).
  - intros _. repeat constructor. by eexists.
  - exists records, w'. split; [exact Hrun|].
    vm_compute in Hrun. injection Hrun as <- _. by repeat split.
Defined.

(** The same record merged without a client: the stream has a
    resolution configuration and the record no [pivot_value_name]. *)
Lemma merge_responses_no_client :
  is_Some (al_get "ad_analytics_by_member_industry" resolution_configs)
  ∧ ∃ K r w',
      merge_responses sample_repr (JStr "MEMBER_INDUSTRY")
        [JArr [sample_element industry47 [("clicks", JNum 3)]]]
        None (Some "ad_analytics_by_member_industry") (World [] [])
      = (Return [(K, r)], w')
      ∧ dict_get "pivot_value_name" r = None.
Proof.
  split; [by eexists|]. eexists _, _, _. split; [vm_compute; reflexivity|reflexivity].
Qed.

(** A token that replaces the one of the URL, and a [next] link to the
    posts endpoint. *)
Lemma get_next_url_cursor_witness :
  get_next_url sample_repr sample_unquote sample_re_sub "campaigns"
    "https://api.linkedin.com/rest/adAccounts/1/adCampaigns?q=search&pageToken=abc&pageSize=100"
    token_page
  = Return (Some "https://api.linkedin.com/rest/adAccounts/1/adCampaigns?q=search&pageToken=DgGerr1iVQreCJVjZDOW&pageSize=100")
  ∧ get_next_url sample_repr sample_unquote sample_re_sub "video_ads"
      "https://api.linkedin.com/rest/posts?q=dscAdAccount&start=0&count=100"
      (link_page "/rest/posts?q=dscAdAccount&start=100&count=100")
    = Return (Some "https://api.linkedin.com/rest/posts?q=dscAdAccount&start=100&count=100").
Proof.
  split.
  - destruct (get_next_url_cursor sample_repr sample_unquote sample_re_sub "campaigns"
      "https://api.linkedin.com/rest/adAccounts/1/adCampaigns?q=search&pageToken=abc&pageSize=100"
      token_page) as (Hcursor & _).
    destruct (Hcursor ltac:(by apply (bool_decide_unpack _))
                (JObj [("nextPageToken", JStr "DgGerr1iVQreCJVjZDOW")])
                (JStr "DgGerr1iVQreCJVjZDOW") eq_refl eq_refl) as (_ & Htoken).
    destruct (Htoken eq_refl eq_refl) as (_ & Hreplace).
    apply (Hreplace "https://api.linkedin.com/rest/adAccounts/1/adCampaigns?q=search&"
             "abc" "&pageSize=100"); try reflexivity; [discriminate|by right; eexists].
  - destruct (get_next_url_cursor sample_repr sample_unquote sample_re_sub "video_ads"
      "https://api.linkedin.com/rest/posts?q=dscAdAccount&start=0&count=100"
      (link_page "/rest/posts?q=dscAdAccount&start=100&count=100")) as (_ & Hlinks).
    destruct (Hlinks ltac:(by apply (bool_decide_unpack _)) _ _ _ eq_refl eq_refl eq_refl)
      as (_ & Hnext).
    apply (Hnext [JObj [("rel", JStr "prev"); ("href", JStr "/rest/x")]]
             [("rel", JStr "next"); ("href", JStr "/rest/posts?q=dscAdAccount&start=100&count=100")]
             [] "/rest/posts?q=dscAdAccount&start=100&count=100");
      try reflexivity; try discriminate; repeat constructor.
    by eexists.
Defined.

(** The first request of the sync is refused for lack of permission. *)
Lemma video_ads_permission_error_witness :
  ∃ w',
    VideoAds_sync_endpoint sample_repr sample_unquote sample_re_sub sample_strptime
      sample_transform sample_transform_json never_logs 3 sample_kwargs (World [] [])
    = (Return (O, JStr "2024-01-01T00:00:00Z"), w')
    ∧ length (requests w') = 1%nat.
Proof.
  destruct (video_ads_permission_error sample_repr sample_unquote sample_re_sub sample_strptime
              sample_transform sample_transform_json never_logs 3 sample_kwargs (World [] []))
    as (Hraise & Hstored & _).
  eexists. split.
  - rewrite <- (Hstored _ _ (JStr "2024-01-01T00:00:00Z") eq_refl eq_refl eq_refl).
    apply (Hraise (Exn "LinkedInForbiddenError" denied_message));
      vm_compute; reflexivity.
  - reflexivity.
Defined.

(** * Examples of the further properties *)

(** The example of the docstring: five fields in chunks of two. *)
Lemma split_into_chunks_partition_witness :
  split_into_chunks [1; 2; 3; 4; 5]%Z 2 = Return [[1; 2]; [3; 4]; [5]]%Z
  ∧ ∃ chunks, split_into_chunks [1; 2; 3; 4; 5]%Z 2 = Return chunks
              ∧ concat chunks = [1; 2; 3; 4; 5]%Z.
Proof.
  split; [reflexivity|].
  destruct (split_into_chunks_partition [1; 2; 3; 4; 5]%Z 2) as [_ Hpos].
  destruct (Hpos ltac:(lia)) as (chunks & Hrun & Hconcat & _).
  by exists chunks.
Defined.

(** The first window for a start on 2023-12-25, 30 days and today
    2024-02-01. *)
Lemma first_window_invariant_witness :
  ∃ start end_,
    first_window 738879 30 738917 = Return (start, end_) ∧ start <= end_ <= 738917.
Proof.
  destruct (first_window_invariant 738879 30 738917) as (start & end_ & Hrun & _ & _ & Hle).
  - lia.
  - unfold _MAXORDINAL. lia.
  - by exists start, end_.
Defined.

(** The shift of a window keeps the query parameters of the stream. *)
Lemma shift_sync_window_other_params_witness :
  ∃ start end_ new_params,
    shift_sync_window (with_date_range (params AdAnalyticsByCampaign) 738879 738909)
      738917 30 None = Return (start, end_, new_params)
    ∧ dict_get "pivot" new_params = Some (JStr "CAMPAIGN").
Proof.
  destruct (shift_sync_window_other_params
              (with_date_range (params AdAnalyticsByCampaign) 738879 738909) 738917 30 None)
    as [_ Hkeep].
  eexists _, _, _. split; [vm_compute; reflexivity|].
  destruct (Hkeep _ _ _ eq_refl) as [_ Hother].
  rewrite Hother; [reflexivity|]. by apply (bool_decide_unpack _).
Defined.

(** The window loop on a client with empty pages, from 2024-01-24 to
    2024-02-01: nine passes are enough. *)
Lemma window_loop_terminates_witness :
  fst (window_loop sample_repr sample_unquote sample_re_sub sample_strptime
         sample_strftime sample_transform sample_transform_json never_logs 9 2 empty_pages
         AdAnalyticsByCampaign [["dateRange"; "pivotValues"]] "end_at"
         (JStr "2024-01-01T00:00:00Z") (738878 * MICROSECONDS_PER_DAY) (JNum 7)
         738917 30 738909
         (with_date_range (params AdAnalyticsByCampaign) 738879 738909)
         O (JStr "2024-01-01T00:00:00Z") (World [] [])) ≠ Timeout.
Proof.
  apply window_loop_terminates; try reflexivity; try lia.
  - by vm_compute.
  - intros static_params total_records max_bookmark_value w. by vm_compute.
Defined.

(** A window that ends today, 2024-02-01: one sync, however much fuel. *)
Lemma window_loop_last_pass_witness :
  window_loop sample_repr sample_unquote sample_re_sub sample_strptime
    sample_strftime sample_transform sample_transform_json never_logs 9 2 empty_pages
    AdAnalyticsByCampaign [["dateRange"; "pivotValues"]] "end_at"
    (JStr "2024-01-01T00:00:00Z") (738878 * MICROSECONDS_PER_DAY) (JNum 7)
    738917 30 738917
    (with_date_range (params AdAnalyticsByCampaign) 738909 738917)
    O (JStr "2024-01-01T00:00:00Z") (World [] [])
  = (done <~ sync_window sample_repr sample_unquote sample_re_sub sample_strptime
               sample_strftime sample_transform sample_transform_json never_logs 2 empty_pages
               AdAnalyticsByCampaign [["dateRange"; "pivotValues"]] "end_at"
               (JStr "2024-01-01T00:00:00Z") (738878 * MICROSECONDS_PER_DAY) (JNum 7)
               (with_date_range (params AdAnalyticsByCampaign) 738909 738917)
               O (JStr "2024-01-01T00:00:00Z") ;;
     sret (snd (fst done), snd done)) (World [] []).
Proof.
  apply window_loop_last_pass;
    first [reflexivity | lia | by vm_compute | by left].
Defined.

(** Two pages of campaigns: the second token takes the place of the
    first. *)
Lemma get_next_url_token_chain_witness :
  get_next_url sample_repr sample_unquote sample_re_sub "campaigns"
    "https://api.linkedin.com/rest/adAccounts/1/adCampaigns?q=search&pageSize=100"
    token_page
  = Return (Some "https://api.linkedin.com/rest/adAccounts/1/adCampaigns?q=search&pageSize=100&pageToken=DgGerr1iVQreCJVjZDOW")
  ∧ get_next_url sample_repr sample_unquote sample_re_sub "campaigns"
      "https://api.linkedin.com/rest/adAccounts/1/adCampaigns?q=search&pageSize=100&pageToken=DgGerr1iVQreCJVjZDOW"
      (JObj [("metadata", JObj [("nextPageToken", JStr "next2")])])
    = Return (Some "https://api.linkedin.com/rest/adAccounts/1/adCampaigns?q=search&pageSize=100&pageToken=next2").
Proof.
  apply (get_next_url_token_chain sample_repr sample_unquote sample_re_sub "campaigns"
           "https://api.linkedin.com/rest/adAccounts/1/adCampaigns?q=search&pageSize=100"
           "DgGerr1iVQreCJVjZDOW" "next2" token_page
           (JObj [("metadata", JObj [("nextPageToken", JStr "next2")])])
           (JObj [("nextPageToken", JStr "DgGerr1iVQreCJVjZDOW")])
           (JObj [("nextPageToken", JStr "next2")]));
    try reflexivity; try discriminate.
  by apply (bool_decide_unpack _).
Defined.

(** Two empty pages of the industry stream, with a client. *)
Lemma merge_responses_no_records_witness :
  merge_responses sample_repr (JStr "MEMBER_INDUSTRY") [JArr []; JArr []]
    (Some industries) (Some "ad_analytics_by_member_industry") (World [] [])
  = (Return [], World [] []).
Proof.
  apply merge_responses_no_records. by repeat constructor.
Defined.

(** A page of one record, and the same page twice. *)
Lemma merge_responses_idempotent_witness :
  let page := JArr [sample_element campaign11 [("clicks", JNum 3)]] in
  ∃ records again w',
    merge_responses sample_repr (JStr "CAMPAIGN") [page] None None (World [] [])
    = (Return records, w')
    ∧ merge_responses sample_repr (JStr "CAMPAIGN") [page; page] None None (World [] [])
      = (Return again, w')
    ∧ ∀ K f, field_at f K again = field_at f K records.
Proof.
  intros page.
  set (e := sample_element campaign11 [("clicks", JNum 3)]).
  destruct (merge_responses_idempotent sample_repr (JStr "CAMPAIGN") [page] [[e]]
              [((KStr campaign11, "2024-1-5"),
                match decorated (JStr "CAMPAIGN") e with
                | Return d => d
                | _ => []
                end)]
              None None (World [] []))
    as (records & again & w' & Hone & Htwo & _ & Hfields).
  - repeat constructor.
  - repeat constructor.
  - repeat constructor; intros d [= <-]; by apply (bool_decide_unpack _).
  - intros [config Hconfig]. discriminate Hconfig.
  - by exists records, again, w'.
Defined.

(** The four sample records, the bookmark on 2024-01-01: the maximum is
    the latest bookmark, 2024-01-02. *)
Lemma process_records_max_bookmark_witness :
  ∃ new_max count w',
    process_records sample_strptime sample_transform never_logs VideoAds (JObj <$> sample_records)
      (Some "last_modified_time") JNull (JStr "2024-01-01T00:00:00Z") JNull (World [] [])
    = (Return (new_max, count), w')
    ∧ instant sample_strptime (JStr "2024-01-02T00:00:00Z") <= instant sample_strptime new_max.
Proof.
  destruct (process_records_max_bookmark sample_strptime sample_transform never_logs VideoAds
              (JObj <$> sample_records) sample_records (Some "last_modified_time")
              JNull (JStr "2024-01-01T00:00:00Z") JNull (World [] []))
    as (new_max & count & w' & Hrun & Hall & _).
  - intros [dt Hdt]. discriminate Hdt.
  - repeat constructor.
  - intros written value Hin Hvalue.
    repeat (apply elem_of_cons in Hin as [->|Hin]);
      [..|by apply elem_of_nil in Hin]; vm_compute in Hvalue;
      try discriminate Hvalue; injection Hvalue as <-; by eexists.
  - by eexists.
  - by left.
  - exists new_max, count, w'. split; [exact Hrun|].
    apply (Hall [("id", JNum 1); ("last_modified_time", JStr "2024-01-02T00:00:00Z")]);
      [by left|reflexivity].
Defined.

(** A sync of the video ads on a page of one record, with a counter
    that does not log: the count is 1 and one record is written. *)
Lemma sync_endpoint_counts_written_witness :
  ∃ w',
    sync_endpoint sample_repr sample_unquote sample_re_sub sample_strptime
      sample_transform sample_transform_json never_logs 3 VideoAds
      (kwargs_of (one_record (JObj [("id", JNum 1)])) ["video_ads"]) (World [] [])
    = (Return (1%nat, JStr "2024-01-01T00:00:00Z"), w')
    ∧ written "video_ads" (World [] []) w' 1
    ∧ ∃ n, written "video_ads" (World [] []) w' n ∧ (1 <= n)%nat.
Proof.
  eexists. split; [vm_compute; reflexivity|].
  match goal with
  | |- written _ _ ?w' _ ∧ _ =>
      destruct (sync_endpoint_counts_written sample_repr sample_unquote sample_re_sub
                  sample_strptime sample_transform sample_transform_json never_logs 3
                  VideoAds (kwargs_of (one_record (JObj [("id", JNum 1)])) ["video_ads"])
                  (World [] []) w' 1 (JStr "2024-01-01T00:00:00Z")) as [Hown Hvideo]
  end.
  split.
  - destruct Hown as (n & Hwritten & _ & Hcount); [vm_compute; reflexivity|].
    rewrite (Hcount (fun _ => eq_refl)). exact Hwritten.
  - apply Hvideo. vm_compute. reflexivity.
Defined.

(** The same sync when the video ads are not selected. *)
Lemma sync_endpoint_unselected_witness :
  sync_endpoint sample_repr sample_unquote sample_re_sub sample_strptime
    sample_transform sample_transform_json never_logs 3 VideoAds
    (kwargs_of (one_record (JObj [("id", JNum 1)])) ["accounts"]) (World [] [])
  = (Return (O, JStr "2024-01-01T00:00:00Z"),
     World [Req "https://api.linkedin.com/rest/posts?start=0&count=100&q=dscAdAccount&dscAdTypes=List(VIDEO)&dscAdAccount=urn%3Ali%3AsponsoredAccount%3A1"
                "video_ads" (Some [("X-Restli-Protocol-Version", "2.0.0")])] [])
  ∧ sink (snd (sync_endpoint sample_repr sample_unquote sample_re_sub sample_strptime
                 sample_transform sample_transform_json never_logs 3 VideoAds
                 (kwargs_of (one_record (JObj [("id", JNum 1)])) ["accounts"])
                 (World [] []))) = [].
Proof.
  split; [vm_compute; reflexivity|].
  apply (sync_endpoint_unselected sample_repr sample_unquote sample_re_sub sample_strptime
           sample_transform sample_transform_json never_logs 3 VideoAds
           (kwargs_of (one_record (JObj [("id", JNum 1)])) ["accounts"]) (World [] [])).
  by apply (bool_decide_unpack _).
Defined.

(** 200 title codes: two requests, for 150 and for 50 codes. *)
Lemma resolve_batches_witness :
  ∃ resolved (chunks : list (list string)) w',
    resolve sample_repr TitlesResolver failing (Some "en_US")
      (sample_urns "urn:li:title:") (World [] [])
    = (Return resolved, w')
    ∧ length (requests w') = length chunks
    ∧ length chunks = 2%nat.
Proof.
  destruct (resolve_batches sample_repr TitlesResolver failing (Some "en_US")
              (sample_urns "urn:li:title:") (World [] []))
    as (resolved & chunks & Hrun & _ & _ & Hcount & _).
  - discriminate.
  - intros Hempty. apply (f_equal size) in Hempty. vm_compute in Hempty. discriminate Hempty.
  - eexists resolved, chunks, _. split; [exact Hrun|]. split.
    + cbn [requests]. by rewrite app_nil_l, length_fmap.
    + rewrite Hcount. vm_compute. reflexivity.
Defined.

(** A geo lookup that fails. *)
Lemma resolve_all_failed_witness :
  ∃ resolved w',
    resolve sample_repr GeoResolver failing None {["urn:li:geo:103"]} (World [] [])
    = (Return resolved, w')
    ∧ resolved !! "103" = Some (JStr "103")
    ∧ resolved !! "104" = None.
Proof.
  destruct (resolve_all_failed sample_repr GeoResolver failing None {["urn:li:geo:103"]}
              (World [] [])) as (resolved & w' & Hrun & Hall).
  - intros history request. by eexists.
  - exists resolved, w'. split; [exact Hrun|]. rewrite !Hall. split; by vm_compute.
Defined.

(** The function 1 is asked for; the list of functions holds 99 as
    well. *)
Lemma resolve_only_requested_witness :
  ∃ resolved w',
    resolve sample_repr FunctionsResolver two_functions (Some "en_US")
      {["urn:li:function:1"]} (World [] [])
    = (Return resolved, w')
    ∧ resolved !! "1" = Some (JStr "Accounting")
    ∧ resolved !! "99" = None.
Proof.
  destruct (resolve_only_requested sample_repr FunctionsResolver two_functions
              (Some "en_US") {["urn:li:function:1"]} (World [] []))
    as (resolved & w' & Hrun & Honly); [by left|].
  exists resolved, w'. split; [exact Hrun|].
  split.
  - vm_compute in Hrun. injection Hrun as <- _. reflexivity.
  - destruct (resolved !! "99") as [v|] eqn:Hv; [|done].
    exfalso. assert (Hin : "99" ∈ (set_map last_segment
                                     ({["urn:li:function:1"]} : gset string) : gset string))
      by (apply Honly; by eexists).
    vm_compute in Hin. discriminate Hin.
Defined.

(** The code of a geo URN. *)
Lemma extract_code_last_segment_witness :
  last_segment "urn:li:geo:103" = "103" ∧ last_segment "103" = "103".
Proof.
  destruct extract_code_last_segment as (Hplain & Hafter & _).
  split.
  - apply (Hafter "urn:li:geo" "103"). reflexivity.
  - apply Hplain. reflexivity.
Defined.

(** A bookmark of the creatives written to a state that has one of the
    video ads. *)
Lemma write_then_get_bookmark_witness :
  ∃ st',
    write_bookmark (JStr "2024-02-01T00:00:00Z") "creatives"
      (Some (TapState (Some {[ "video_ads" := JStr "2024-01-01T00:00:00Z" ]})), [])
    = (Return tt, (Some st', [st']))
    ∧ get_bookmark VideoAds (Some st') JNull = JStr "2024-01-01T00:00:00Z".
Proof.
  destruct (write_then_get_bookmark (JStr "2024-02-01T00:00:00Z") "creatives"
              (Some (TapState (Some {[ "video_ads" := JStr "2024-01-01T00:00:00Z" ]}))) [])
    as [_ Hsome].
  destruct (Hsome _ eq_refl) as (st' & Hrun & Hget).
  exists st'. split; [exact Hrun|]. rewrite Hget. reflexivity.
Defined.

(** An analytics sync over two windows, one record a page, with a
    counter that does not log: the count is 2 and two records are written. *)
Lemma sync_ad_analytics_counts_written_witness :
  ∃ w',
    sync_ad_analytics sample_repr sample_unquote sample_re_sub sample_strptime
      sample_strftime sample_transform sample_transform_json never_logs 5 5
      AdAnalyticsByCampaign
      (one_record (sample_element campaign11 [("clicks", JNum 3)])) ["clicks"]
      (JStr "2024-01-01T00:00:00Z") 30 (JNum 7) 738917 (World [] [])
    = (Return (2%nat, JStr "2024-01-01T00:00:00Z"), w')
    ∧ written "ad_analytics_by_campaign" (World [] []) w' 2.
Proof.
  eexists. split; [vm_compute; reflexivity|].
  match goal with
  | |- written _ _ ?w' _ =>
      destruct (sync_ad_analytics_counts_written sample_repr sample_unquote sample_re_sub
                  sample_strptime sample_strftime sample_transform sample_transform_json
                  never_logs 5 5 AdAnalyticsByCampaign
                  (one_record (sample_element campaign11 [("clicks", JNum 3)])) ["clicks"]
                  (JStr "2024-01-01T00:00:00Z") 30 (JNum 7) 738917 (World [] []) w' 2
                  (JStr "2024-01-01T00:00:00Z")) as (n & Hwritten & _ & Hcount);
        [vm_compute; reflexivity|]
  end.
  rewrite (Hcount (fun _ => eq_refl)). exact Hwritten.
Defined.

(** The campaigns alone: their children are not selected. *)
Lemma sync_endpoint_no_selected_child_witness :
  let run :=
    sync_endpoint_of_class sample_repr sample_unquote sample_re_sub sample_strptime
      sample_isoformat sample_transform sample_transform_json never_logs (fun _ => ["clicks"])
      738917 3 3 (fun _ _ => out_of_fuel) Campaigns
      (sample_args by_endpoint ["campaigns"]) fresh in
  fst run = Return (2%nat, JStr "2024-01-01T00:00:00Z")
  ∧ length (requests (eng_world (snd run))) = 1%nat
  ∧ eng_schemas (snd run) = [] ∧ eng_states (snd run) = []
  ∧ eng_state (snd run) = Some (TapState None) ∧ eng_params (snd run) = ∅.
Proof.
  intros run.
  destruct (sync_endpoint_no_selected_child sample_repr sample_unquote sample_re_sub
              sample_strptime sample_isoformat sample_transform sample_transform_json never_logs
              (fun _ => ["clicks"]) 738917 3 3 (fun _ _ => out_of_fuel) Campaigns
              (sample_args by_endpoint ["campaigns"]) fresh)
    as (Hresult & Hworld & Hschemas & Hstates & Hstate & Hparams).
  { apply (bool_decide_unpack _). vm_compute. exact I. }
  subst run. rewrite Hresult, Hworld, Hschemas, Hstates, Hstate, Hparams.
  repeat split; vm_compute; reflexivity.
Defined.

(** The account 7 without the permission for its video ads. *)
Lemma accounts_video_ads_denied_witness :
  ∃ w',
    sync_child sample_repr sample_unquote sample_re_sub sample_strptime sample_isoformat
      sample_transform sample_transform_json never_logs (fun _ => []) 738917 3 3
      (sync_stream sample_repr sample_unquote sample_re_sub sample_strptime sample_isoformat
         sample_transform sample_transform_json never_logs (fun _ => []) 738917 1 3 3)
      (cls_stream Accounts) (sample_args denied ["accounts"; "video_ads"]) JNull
      (StreamClass VideoAds [] (Some "id"))
      (JNull, [("video_ads", JStr "2024-01-01T00:00:00Z")]) (JObj [("id", JNum 7)]) fresh
    = (Return (JNum 7, [("video_ads", JStr "2024-01-01T00:00:00Z")]),
       Engine w' (Some (TapState None)) [] [] ∅)
    ∧ length (requests w') = 1%nat.
Proof.
  eexists. split.
  - apply (accounts_video_ads_denied sample_repr sample_unquote sample_re_sub
             sample_strptime sample_isoformat sample_transform sample_transform_json never_logs
             (fun _ => []) 738917 0 3 3 (sample_args denied ["accounts"; "video_ads"]) JNull
             (JNull, [("video_ads", JStr "2024-01-01T00:00:00Z")]) (JObj [("id", JNum 7)])
             (JNum 7) fresh (Exn "LinkedInForbiddenError" denied_message) _
             (JStr "2024-01-01T00:00:00Z")
             (738885 * MICROSECONDS_PER_DAY) (738885 * MICROSECONDS_PER_DAY)).
    + reflexivity.
    + vm_compute. reflexivity.
    + vm_compute. reflexivity.
    + reflexivity.
    + vm_compute. reflexivity.
    + vm_compute. reflexivity.
    + lia.
  - vm_compute. reflexivity.
Defined.

Lemma sample_isoformat_parses (v : json) (d : Z) :
  sample_strptime v = Ok d -> sample_strptime (JStr (sample_isoformat d)) = Ok d.
Proof.
  destruct v as [| | |s| |]; try discriminate. intros Hv.
  assert (Hd : d ∈ sample_instants.*2).
  { unfold sample_strptime, sample_instants in Hv. cbn [al_get] in Hv.
    repeat case_decide; try discriminate Hv; injection Hv as <-;
      cbn [fmap list_fmap snd]; repeat constructor. }
  clear Hv. cbn [sample_instants fmap list_fmap snd] in Hd.
  repeat (apply elem_of_cons in Hd as [->|Hd]); [..|by apply elem_of_nil in Hd];
    vm_compute; reflexivity.
Qed.

Lemma campaigns_children_childless (child : string) (obj : stream_class) :
  child ∈ cls_children Campaigns -> stream_object child = Return obj -> cls_children obj = [].
Proof.
  intros Hin Hobj.
  repeat (apply elem_of_cons in Hin as [->|Hin]); [..|by apply elem_of_nil in Hin];
    vm_compute in Hobj; injection Hobj as <-; reflexivity.
Qed.

(** The campaigns with their creatives: the bookmark of the creatives
    goes from the start date to the day of the creative 5. *)
Lemma child_bookmarks_never_go_back_witness :
  ∃ state stored after,
    eng_state (snd (sync_endpoint_of_class sample_repr sample_unquote sample_re_sub
                      sample_strptime sample_isoformat sample_transform
                      sample_transform_json never_logs (fun _ => ["clicks"]) 738917 3 3
                      (sync_stream sample_repr sample_unquote sample_re_sub sample_strptime
                         sample_isoformat sample_transform sample_transform_json never_logs
                         (fun _ => ["clicks"]) 738917 1 3 3)
                      Campaigns (sample_args by_endpoint ["campaigns"; "creatives"]) fresh))
    = Some state
    ∧ bookmarks state = Some stored
    ∧ stored !! "creatives" = Some after
    ∧ same_or_later sample_strptime (JStr "2024-01-01T00:00:00Z") after.
Proof.
  set (run := sync_endpoint_of_class _ _ _ _ _ _ _ _ _ _ _ _ _ _ _ _).
  apply (child_bookmarks_never_go_back sample_repr sample_unquote sample_re_sub
           sample_strptime sample_isoformat sample_transform sample_transform_json never_logs
           (fun _ => ["clicks"]) 738917 3 3
           (sync_stream sample_repr sample_unquote sample_re_sub sample_strptime
              sample_isoformat sample_transform sample_transform_json never_logs
              (fun _ => ["clicks"]) 738917 1 3 3)
           Campaigns (sample_args by_endpoint ["campaigns"; "creatives"]) fresh
           (2%nat, JStr "2024-01-01T00:00:00Z") (snd run) sample_isoformat_parses
           ltac:(vm_compute; reflexivity) "creatives" Creatives).
  - by left.
  - right. by left.
  - reflexivity.
  - discriminate.
Defined.

(** The same sync: one schema, and the bookmark and parameters of the
    campaigns as they were. *)
Lemma sync_endpoint_touches_children_only_witness :
  let e' :=
    snd (sync_endpoint_of_class sample_repr sample_unquote sample_re_sub
           sample_strptime sample_isoformat sample_transform
           sample_transform_json never_logs (fun _ => ["clicks"]) 738917 3 3
           (sync_stream sample_repr sample_unquote sample_re_sub sample_strptime
              sample_isoformat sample_transform sample_transform_json never_logs
              (fun _ => ["clicks"]) 738917 1 3 3)
           Campaigns (sample_args by_endpoint ["campaigns"; "creatives"]) fresh) in
  eng_schemas e' = ["creatives"]
  ∧ get_bookmark (cls_stream Campaigns) (eng_state e') JNull = JNull
  ∧ eng_params e' !! "campaigns" = None.
Proof.
  intros e'.
  destruct (sync_endpoint_touches_children_only sample_repr sample_unquote sample_re_sub
              sample_strptime sample_isoformat sample_transform sample_transform_json never_logs
              (fun _ => ["clicks"]) 738917 1 3 3 Campaigns
              (sample_args by_endpoint ["campaigns"; "creatives"]) fresh
              (2%nat, JStr "2024-01-01T00:00:00Z") e' campaigns_children_childless
              ltac:(vm_compute; reflexivity)) as [Hschemas Hother].
  split; [exact Hschemas|].
  destruct (Hother (cls_stream Campaigns)) as [Hbookmark Hparams].
  { intros [Hin _]. vm_compute in Hin. 
    repeat (apply elem_of_cons in Hin as [Hin|Hin]; [discriminate Hin|]).
    by apply elem_of_nil in Hin. }
  split; [by rewrite Hbookmark|exact Hparams].
Defined.
